(** * Keystore service: a shallow embedding of key_store_service.cpp

    The service sits between binder callers and the keymaster devices.  The
    embedding keeps the shape of the C++ code: every entry point of
    [KeyStoreService] is a computation over a [World] that holds the blob
    store, the operation map, the auth token table and the state of the
    external collaborators (keymaster devices, enforcement policy).  Device
    replies are not computed here: they come from an [Env] of oracles. *)

From Stdlib Require Import ZArith List Bool Lia.
From Stdlib Require Import Strings.Byte.
From stdpp Require Import base gmap strings list fin_maps.

Local Open Scope Z_scope.

(** ** Integers and bytes *)

Definition bytes := list byte.

(** Conversion of a wider integer to [int32_t] (two's complement wrap). *)
Definition wrap_int32 (z : Z) : Z := (z + 2 ^ 31) mod 2 ^ 32 - 2 ^ 31.

(** [static_cast<uid_t>] of an [int32_t]: [uid_t] is an unsigned 32-bit integer. *)
Definition cast_uid_t (z : Z) : Z := z mod 2 ^ 32.

(** Unsigned little-endian value of a byte string, as [memcpy] into an
    integer field reads it on the little-endian targets of the service. *)
Fixpoint le_uint (bs : bytes) : Z :=
  match bs with
  | [] => 0
  | b :: rest => Z.of_N (Byte.to_N b) + 256 * le_uint rest
  end.

(** Unsigned big-endian value of a byte string ([BN_bin2bn]). *)
Definition BN_bin2bn (bs : bytes) : Z :=
  fold_left (fun acc b => acc * 256 + Z.of_N (Byte.to_N b)) bs 0.

(** ** The two error taxonomies *)

(** Modelled from the spec: [ResponseCode] is declared in keystore.h, which is
    not part of the sources at hand; the constructors are the ones the spec
    lists in its error-handling section, with the wire values of that header.
    [NO_ERROR], [LOCKED] and [UNINITIALIZED] coincide with the user states. *)
Module ResponseCode.
Inductive t : Set :=
  | NO_ERROR | LOCKED | UNINITIALIZED | SYSTEM_ERROR | PROTOCOL_ERROR
  | PERMISSION_DENIED | KEY_NOT_FOUND | VALUE_CORRUPTED | UNDEFINED_ACTION
  | WRONG_PASSWORD_0 | WRONG_PASSWORD_1 | WRONG_PASSWORD_2 | WRONG_PASSWORD_3
  | SIGNATURE_INVALID | OP_AUTH_NEEDED.

Definition to_int32 (r : t) : Z :=
  match r with
  | NO_ERROR => 1 | LOCKED => 2 | UNINITIALIZED => 3 | SYSTEM_ERROR => 4
  | PROTOCOL_ERROR => 5 | PERMISSION_DENIED => 6 | KEY_NOT_FOUND => 7
  | VALUE_CORRUPTED => 8 | UNDEFINED_ACTION => 9 | WRONG_PASSWORD_0 => 10
  | WRONG_PASSWORD_1 => 11 | WRONG_PASSWORD_2 => 12 | WRONG_PASSWORD_3 => 13
  | SIGNATURE_INVALID => 14 | OP_AUTH_NEEDED => 15
  end.
End ResponseCode.

(** Modelled from the spec: the keymaster [ErrorCode] enumeration belongs to
    the keymaster HAL.  A device may answer with any of its values, so the
    type is the underlying [int32_t]; the constants the service names are
    given with their HAL values.  [OK] is zero and every error is negative. *)
Module ErrorCode.
Definition t := Z.
Definition OK : t := 0.
Definition KEY_USER_NOT_AUTHENTICATED : t := -26.
Definition INVALID_OPERATION_HANDLE : t := -28.
Definition TOO_MANY_OPERATIONS : t := -31.
Definition INVALID_ARGUMENT : t := -38.
Definition UNEXPECTED_NULL_POINTER : t := -32.
Definition KEY_REQUIRES_UPGRADE : t := -62.
Definition UNKNOWN_ERROR : t := -1000.
End ErrorCode.

(** Modelled from the spec: [KeyStoreServiceReturnCode] (keystore_return_types.h)
    is the "service result" that carries either taxonomy in one [int32_t].
    Both [ResponseCode::NO_ERROR] and [ErrorCode::OK] count as success, the
    comparison operators identify the two success values, and the conversion
    to [int32_t] reports success as [NO_ERROR]. *)
Module KeyStoreServiceReturnCode.
Definition t := Z.

Definition of_ResponseCode (r : ResponseCode.t) : t := ResponseCode.to_int32 r.
Definition of_ErrorCode (e : ErrorCode.t) : t := e.

Definition isOk (c : t) : bool := (c =? 1) || (c =? 0).

(** [operator==(const ResponseCode&)] *)
Definition eqResponseCode (c : t) (r : ResponseCode.t) : bool :=
  (match r with ResponseCode.NO_ERROR => c =? 0 | _ => false end)
  || (c =? ResponseCode.to_int32 r).

(** [operator==(const ErrorCode&)] *)
Definition eqErrorCode (c : t) (e : ErrorCode.t) : bool :=
  ((e =? 0) && (c =? 1)) || (c =? e).

(** [operator int32_t()] *)
Definition to_int32 (c : t) : Z := if c =? 0 then 1 else c.
End KeyStoreServiceReturnCode.

Abbreviation RC := KeyStoreServiceReturnCode.of_ResponseCode.
Abbreviation EC := KeyStoreServiceReturnCode.of_ErrorCode.
Abbreviation isOk := KeyStoreServiceReturnCode.isOk.

(** Binder status of a call: either [Status::ok()] or
    [Status::fromServiceSpecificError(code)]. *)
Inductive Status : Type :=
  | Status_ok
  | Status_fromServiceSpecificError (code : Z).

(** ** Keymaster parameters *)

Module Tag.
Inductive t : Set :=
  | PURPOSE | ALGORITHM | KEY_SIZE | DIGEST | PADDING | RSA_PUBLIC_EXPONENT
  | INCLUDE_UNIQUE_ID | NO_AUTH_REQUIRED | AUTH_TOKEN
  | APPLICATION_ID | APPLICATION_DATA
  | ATTESTATION_APPLICATION_ID | RESET_SINCE_ID_ROTATION
  | OTHER (n : N).

#[global] Instance eq_dec : EqDecision t.
Proof. solve_decision. Defined.

End Tag.

(** A [KeyParameter]: a tag, the integer member of the value union, and the
    blob member. *)
Record KeyParameter : Type := {
  tag : Tag.t;
  f_integer : Z;
  f_blob : bytes
}.

Definition AuthorizationSet := list KeyParameter.

Record KeyCharacteristics : Type := {
  softwareEnforced : AuthorizationSet;
  teeEnforced : AuthorizationSet
}.

Definition no_characteristics : KeyCharacteristics :=
  {| softwareEnforced := []; teeEnforced := [] |}.

Module Algorithm.
Definition RSA : Z := 1.
Definition EC : Z := 3.
End Algorithm.

Module KeyPurpose.
Definition SIGN : Z := 2.
Definition VERIFY : Z := 3.
End KeyPurpose.

Module Digest.
Definition NONE : Z := 0.
End Digest.

Module PaddingMode.
Definition NONE : Z := 1.
End PaddingMode.

Module KeyFormat.
Definition X509 : Z := 0.
Definition PKCS8 : Z := 1.
End KeyFormat.

Definition push_back (params : AuthorizationSet) (t : Tag.t) (v : Z) : AuthorizationSet :=
  params ++ [{| tag := t; f_integer := v; f_blob := [] |}].

Definition push_back_blob (params : AuthorizationSet) (t : Tag.t) (b : bytes) : AuthorizationSet :=
  params ++ [{| tag := t; f_integer := 0; f_blob := b |}].

Definition containsTag (params : AuthorizationSet) (t : Tag.t) : bool :=
  existsb (fun param => bool_decide (tag param = t)) params.

Definition isAuthenticationBound (params : AuthorizationSet) : bool :=
  negb (containsTag params Tag.NO_AUTH_REQUIRED).

(** [switch (params[i].tag)] of [checkAllowedOperationParams]. *)
Definition restricted_tag (t : Tag.t) : bool :=
  match t with
  | Tag.ATTESTATION_APPLICATION_ID | Tag.AUTH_TOKEN | Tag.RESET_SINCE_ID_ROTATION => true
  | _ => false
  end.

Fixpoint checkAllowedOperationParams (params : AuthorizationSet) : bool :=
  match params with
  | [] => true
  | param :: rest =>
      if restricted_tag (tag param) then false else checkAllowedOperationParams rest
  end.

(** ** Caller identities *)

Definition uid_t := Z.
Definition pid_t := Z.

Definition UID_SELF : Z := -1.
Definition AID_SYSTEM : uid_t := 1000.
Definition AID_USER : Z := 100000.

Definition get_user_id (uid : uid_t) : Z := uid / AID_USER.
Definition get_app_id (uid : uid_t) : Z := uid mod AID_USER.

Inductive perm_t : Set :=
  | P_GET_STATE | P_GET | P_INSERT | P_DELETE | P_EXIST | P_LIST | P_RESET
  | P_PASSWORD | P_LOCK | P_UNLOCK | P_IS_EMPTY | P_SIGN | P_VERIFY | P_GRANT
  | P_DUPLICATE | P_CLEAR_UID | P_ADD_AUTH | P_USER_CHANGED | P_GEN_UNIQUE_ID.

(** The binder context of a call: [IPCThreadState::self()]. *)
Record Caller : Type := {
  callingUid : uid_t;
  callingPid : pid_t
}.

(** Caller flags of [insert], [generateKey] and [importKey] (keystore.h). *)
Definition KEYSTORE_FLAG_NONE : Z := 0.
Definition KEYSTORE_FLAG_ENCRYPTED : Z := 1.
Definition KEYSTORE_FLAG_FALLBACK : Z := 2.
Definition KEYSTORE_FLAG_SUPER_ENCRYPTED : Z := 4.
Definition KEYSTORE_FLAG_CRITICAL_TO_DEVICE_ENCRYPTION : Z := 8.

(** [flags & FLAG] used as a condition. *)
Definition has_flag (flags flag : Z) : bool := negb (Z.land flags flag =? 0).

(** ** Blobs and the blob store *)

Inductive BlobType : Set :=
  | TYPE_ANY | TYPE_GENERIC | TYPE_MASTER_KEY | TYPE_KEY_PAIR
  | TYPE_KEYMASTER_10 | TYPE_KEY_CHARACTERISTICS.

#[global] Instance BlobType_eq_dec : EqDecision BlobType.
Proof. solve_decision. Defined.

(** Modelled from the spec: the [Blob] class (blob.h) is missing.  A blob is
    "bytes plus five independent flags": Encrypted, SuperEncrypted, Fallback,
    CriticalToDeviceEncryption and the info prefix, whose length is the
    length of [getInfo]. *)
Record Blob : Type := {
  getValue : bytes;
  getInfo : bytes;
  getType : BlobType;
  isEncrypted : bool;
  isSuperEncrypted : bool;
  isFallback : bool;
  isCriticalToDeviceEncryption : bool
}.

Definition getInfoLength (b : Blob) : nat := length (getInfo b).

(** [Blob(value, valueLength, info, infoLength, type)]: no flag is set. *)
Definition Blob_new (value info : bytes) (type : BlobType) : Blob :=
  {| getValue := value; getInfo := info; getType := type;
     isEncrypted := false; isSuperEncrypted := false;
     isFallback := false; isCriticalToDeviceEncryption := false |}.

(** The default-constructed [Blob] of a local variable. *)
Definition Blob_empty : Blob := Blob_new [] [] TYPE_GENERIC.

Definition setEncrypted (v : bool) (b : Blob) : Blob :=
  {| getValue := getValue b; getInfo := getInfo b; getType := getType b;
     isEncrypted := v; isSuperEncrypted := isSuperEncrypted b;
     isFallback := isFallback b;
     isCriticalToDeviceEncryption := isCriticalToDeviceEncryption b |}.

Definition setSuperEncrypted (v : bool) (b : Blob) : Blob :=
  {| getValue := getValue b; getInfo := getInfo b; getType := getType b;
     isEncrypted := isEncrypted b; isSuperEncrypted := v;
     isFallback := isFallback b;
     isCriticalToDeviceEncryption := isCriticalToDeviceEncryption b |}.

Definition setFallback (v : bool) (b : Blob) : Blob :=
  {| getValue := getValue b; getInfo := getInfo b; getType := getType b;
     isEncrypted := isEncrypted b; isSuperEncrypted := isSuperEncrypted b;
     isFallback := v;
     isCriticalToDeviceEncryption := isCriticalToDeviceEncryption b |}.

Definition setCriticalToDeviceEncryption (v : bool) (b : Blob) : Blob :=
  {| getValue := getValue b; getInfo := getInfo b; getType := getType b;
     isEncrypted := isEncrypted b; isSuperEncrypted := isSuperEncrypted b;
     isFallback := isFallback b;
     isCriticalToDeviceEncryption := v |}.

Definition blob2hidlVec (b : Blob) : bytes := getValue b.

(** User states of the [UserStateMachine]. *)
Inductive State : Set := STATE_NO_ERROR | STATE_LOCKED | STATE_UNINITIALIZED.

Definition State_to_ResponseCode (s : State) : ResponseCode.t :=
  match s with
  | STATE_NO_ERROR => ResponseCode.NO_ERROR
  | STATE_LOCKED => ResponseCode.LOCKED
  | STATE_UNINITIALIZED => ResponseCode.UNINITIALIZED
  end.

Inductive km_device_t : Set := PrimaryDevice | FallbackDevice.

(** Modelled from the spec: the name of a blob file.  "Two files per key":
    the key file and its characteristics sibling, both under the owner's
    uid; the composite identity of a stored blob is (user, uid, alias, kind).
    Every blob type other than [TYPE_KEY_CHARACTERISTICS] names the key file. *)
Record Path : Type := {
  path_uid : uid_t;
  path_alias : string;
  path_chr : bool
}.

#[global] Instance Path_eq_dec : EqDecision Path.
Proof. solve_decision. Defined.

#[global] Program Instance Path_countable : Countable Path :=
  inj_countable'
    (fun p => (path_uid p, path_alias p, path_chr p))
    (fun t => match t with (u, a, c) => Build_Path u a c end) _.
Next Obligation. by intros []. Qed.

Record Grant : Type := {
  grant_owner : uid_t;
  grant_alias : string;
  grant_grantee : uid_t
}.

(** Modelled from the spec: the [KeyStore] object behind [mKeyStore]
    (the BlobStore interface and the per-user state of the spec).  Files are a
    finite map from paths to blobs.  A blob that is Encrypted or
    SuperEncrypted is readable only while its user is unlocked; otherwise the
    read reports the user's state and hands back the blob header. *)
Module KeyStore.
Record t : Type := {
  files : gmap Path Blob;
  userState : Z -> State;
  grants : list Grant;
  hasFallbackDevice : bool
}.

Definition with_files (fs : gmap Path Blob) (ks : t) : t :=
  {| files := fs; userState := userState ks; grants := grants ks;
     hasFallbackDevice := hasFallbackDevice ks |}.

Definition getState (ks : t) (userId : Z) : State := userState ks userId.

Definition getKeyNameForUidWithDir (name : string) (uid : uid_t) (type : BlobType) : Path :=
  {| path_uid := uid; path_alias := name;
     path_chr := bool_decide (type = TYPE_KEY_CHARACTERISTICS) |}.

Definition type_matches (type : BlobType) (b : Blob) : bool :=
  bool_decide (type = TYPE_ANY) || bool_decide (getType b = type).

Definition read_gate (s : State) (b : Blob) : ResponseCode.t :=
  if isEncrypted b || isSuperEncrypted b then State_to_ResponseCode s
  else ResponseCode.NO_ERROR.

(** [get(path, &blob, type, userId)]: [keyBlob] is the caller's blob, which
    is left as it was when there is no file to read. *)
Definition get (ks : t) (path : Path) (keyBlob : Blob) (type : BlobType) (userId : Z)
  : ResponseCode.t * Blob :=
  match files ks !! path with
  | None => (ResponseCode.KEY_NOT_FOUND, keyBlob)
  | Some b =>
      match read_gate (getState ks userId) b with
      | ResponseCode.NO_ERROR =>
          if type_matches type b then (ResponseCode.NO_ERROR, b)
          else (ResponseCode.KEY_NOT_FOUND, b)
      | rc => (rc, b)
      end
  end.

(** [getKeyForName(&blob, name, uid, type)] *)
Definition getKeyForName (ks : t) (keyBlob : Blob) (name : string) (uid : uid_t)
    (type : BlobType) : ResponseCode.t * Blob :=
  get ks (getKeyNameForUidWithDir name uid type) keyBlob type (get_user_id uid).

(** [getBlobFileNameIfExists(name, uid, type)] *)
Definition getBlobFileNameIfExists (ks : t) (name : string) (uid : uid_t) (type : BlobType)
  : option Path :=
  let path := getKeyNameForUidWithDir name uid type in
  match files ks !! path with
  | Some _ => Some path
  | None => None
  end.

(** [put(path, &blob, userId)]: the file is created or replaced. *)
Definition put (ks : t) (path : Path) (b : Blob) (userId : Z) : ResponseCode.t * t :=
  (ResponseCode.NO_ERROR, with_files (<[path := b]> (files ks)) ks).

(** [del(path, type, userId)]: fails when there is no such file. *)
Definition del (ks : t) (path : Path) (type : BlobType) (userId : Z) : ResponseCode.t * t :=
  match files ks !! path with
  | None => (ResponseCode.KEY_NOT_FOUND, ks)
  | Some b =>
      if type_matches type b
      then (ResponseCode.NO_ERROR, with_files (delete path (files ks)) ks)
      else (ResponseCode.KEY_NOT_FOUND, ks)
  end.

(** [list("<uid>_", &aliases, userId)]: the aliases of the key files of [uid]. *)
Definition list (ks : t) (uid : uid_t) (userId : Z) : ResponseCode.t * list string :=
  (ResponseCode.NO_ERROR,
   omap (fun entry : Path * Blob =>
           let p := fst entry in
           if bool_decide (path_uid p = uid) && negb (path_chr p)
           then Some (path_alias p) else None)
        (map_to_list (files ks))).

Definition removeAllGrantsToUid (ks : t) (uid : uid_t) : t :=
  {| files := files ks; userState := userState ks;
     grants := filter (fun g => grant_grantee g ≠ uid) (grants ks);
     hasFallbackDevice := hasFallbackDevice ks |}.

(** [getDevice(blob)]: "the primary device or, iff Fallback flag set, the
    fallback device". *)
Definition getDevice (b : Blob) : km_device_t :=
  if isFallback b then FallbackDevice else PrimaryDevice.

(** [getFallbackDevice()] *)
Definition getFallbackDevice (ks : t) : option km_device_t :=
  if hasFallbackDevice ks then Some FallbackDevice else None.
End KeyStore.

(** ** Auth tokens *)

(** [sizeof(hw_auth_token_t)]: the packed structure has a one-byte version,
    three 64-bit fields, a 32-bit authenticator type, a 64-bit timestamp and
    a 32-byte HMAC. *)
Definition sizeof_hw_auth_token_t : nat := 69%nat.

Record hw_auth_token_t : Type := {
  version : Z;
  challenge : Z;
  user_id : Z;
  authenticator_id : Z;
  authenticator_type : Z;
  timestamp : Z;
  hmac : bytes
}.

Definition slice (off len : nat) (v : bytes) : bytes := take len (drop off v).

(** [memcpy(&authToken, authTokenAsVector.data(), sizeof(hw_auth_token_t))] *)
Definition memcpy_hw_auth_token_t (v : bytes) : hw_auth_token_t :=
  {| version := le_uint (slice 0 1 v);
     challenge := le_uint (slice 1 8 v);
     user_id := le_uint (slice 9 8 v);
     authenticator_id := le_uint (slice 17 8 v);
     authenticator_type := le_uint (slice 25 4 v);
     timestamp := le_uint (slice 29 8 v);
     hmac := slice 37 32 v |}.

Record HardwareAuthToken : Type := {
  hat_challenge : Z;
  hat_userId : Z;
  hat_authenticatorId : Z;
  hat_authenticatorType : Z;
  hat_timestamp : Z;
  hat_hmac : bytes
}.

(** Modelled from the spec: the [AuthTokenTable] "holds a set of recent
    AuthTokens"; [add(token)] puts the token into the table.  Matching
    ([FindAuthorization]) and [MarkCompleted] are oracles of the [Env]. *)
Module AuthTokenTable.
Definition t := list HardwareAuthToken.

Inductive Error : Set :=
  | OK | AUTH_NOT_REQUIRED | AUTH_TOKEN_EXPIRED | AUTH_TOKEN_WRONG_SID
  | AUTH_TOKEN_NOT_FOUND | OP_HANDLE_REQUIRED | OTHER_ERROR.

Definition AddAuthenticationToken (token : HardwareAuthToken) (table : t) : t :=
  table ++ [token].
End AuthTokenTable.

(** ** The operation map *)

(** An operation token ([sp<IBinder>]): [None] is the null pointer. *)
Definition token_t := option nat.

Record Operation : Type := {
  op_token : nat;
  op_handle : Z;
  op_keyid : Z;
  op_purpose : Z;
  op_device : km_device_t;
  op_appToken : nat;
  op_characteristics : KeyCharacteristics;
  op_pruneable : bool;
  op_authToken : option HardwareAuthToken
}.

(** Modelled from the spec: the [OperationMap] (operation.h) is a registry
    of live operations.  Operations are kept in the order in which their
    [begin] completed; tokens are allocated from a counter, so they are
    unique over the lifetime of the process; [getOldestPruneableOperation]
    is the first pruneable operation in that order. *)
Module OperationMap.
Record t : Type := {
  operations : list Operation;
  next_token : nat
}.

Definition empty : t := {| operations := []; next_token := 1%nat |}.

Definition is_token (tk : token_t) (op : Operation) : bool :=
  match tk with
  | Some n => Nat.eqb (op_token op) n
  | None => false
  end.

Definition addOperation (handle keyid purpose : Z) (dev : km_device_t) (appToken : nat)
    (characteristics : KeyCharacteristics) (pruneable : bool) (m : t) : token_t * t :=
  let op := {| op_token := next_token m; op_handle := handle; op_keyid := keyid;
               op_purpose := purpose; op_device := dev; op_appToken := appToken;
               op_characteristics := characteristics; op_pruneable := pruneable;
               op_authToken := None |} in
  (Some (next_token m),
   {| operations := operations m ++ [op]; next_token := S (next_token m) |}).

Definition getOperation (tk : token_t) (m : t) : option Operation :=
  find (is_token tk) (operations m).

Definition removeOperation (tk : token_t) (m : t) : bool * t :=
  match getOperation tk m with
  | None => (false, m)
  | Some _ =>
      (true, {| operations := List.filter (fun op => negb (is_token tk op)) (operations m);
                next_token := next_token m |})
  end.

Definition hasPruneableOperation (m : t) : bool :=
  existsb op_pruneable (operations m).

Definition getOperationCount (m : t) : nat := length (operations m).

Definition getOldestPruneableOperation (m : t) : token_t :=
  match find op_pruneable (operations m) with
  | Some op => Some (op_token op)
  | None => None
  end.

Definition getOperationAuthToken (tk : token_t) (m : t) : option HardwareAuthToken :=
  match getOperation tk m with
  | Some op => op_authToken op
  | None => None
  end.

Definition set_authToken (a : option HardwareAuthToken) (op : Operation) : Operation :=
  {| op_token := op_token op; op_handle := op_handle op; op_keyid := op_keyid op;
     op_purpose := op_purpose op; op_device := op_device op;
     op_appToken := op_appToken op; op_characteristics := op_characteristics op;
     op_pruneable := op_pruneable op; op_authToken := a |}.

Definition setOperationAuthToken (tk : token_t) (a : option HardwareAuthToken) (m : t) : t :=
  {| operations :=
       map (fun op => if is_token tk op then set_authToken a op else op) (operations m);
     next_token := next_token m |}.

Definition getOperationsForToken (appToken : nat) (m : t) : list token_t :=
  map (fun op => Some (op_token op))
      (List.filter (fun op => Nat.eqb (op_appToken op) appToken) (operations m)).
End OperationMap.

Definition kMaxOperations : nat := 15%nat.

(** ** State monad of the service *)

Definition M (S A : Type) : Type := S -> A * S.

Definition ret {S A : Type} (a : A) : M S A := fun s => (a, s).

Definition bind {S A B : Type} (m : M S A) (k : A -> M S B) : M S B :=
  fun s => let (a, s') := m s in k a s'.

Definition gets {S A : Type} (g : S -> A) : M S A := fun s => (g s, s).

Definition modify {S : Type} (g : S -> S) : M S unit := fun s => (tt, g s).

Notation "'let*' x ':=' m 'in' k" := (bind m (fun x => k))
  (at level 10, x pattern, m at level 100, k at level 200, only parsing).
Notation "'do*' m 'in' k" := (bind m (fun _ => k))
  (at level 10, m at level 100, k at level 200, only parsing).

(** ** External collaborators *)

(** The outcome of a keymaster call that reports through a callback:
    [hidl_status] is the value of [KS_HANDLE_HIDL_ERROR(...)] and
    [hidl_callback] holds the arguments the callback was invoked with, if
    it was invoked. *)
Record HidlReturn (A : Type) : Type := {
  hidl_status : ErrorCode.t;
  hidl_callback : option A
}.
Arguments hidl_status {A} _.
Arguments hidl_callback {A} _.
Arguments Build_HidlReturn {A} _ _.

(** Calls issued to a keymaster device, in the order of the HAL interface. *)
Inductive DeviceCall : Type :=
  | Call_addRngEntropy (entropy : bytes)
  | Call_generateKey (dev : km_device_t) (params : AuthorizationSet)
  | Call_importKey (dev : km_device_t) (params : AuthorizationSet) (format : Z) (keyData : bytes)
  | Call_getKeyCharacteristics (dev : km_device_t) (key clientId appData : bytes)
  | Call_exportKey (dev : km_device_t) (format : Z) (key clientId appData : bytes)
  | Call_upgradeKey (dev : km_device_t) (key : bytes) (params : AuthorizationSet)
  | Call_begin (dev : km_device_t) (purpose : Z) (key : bytes) (params : AuthorizationSet)
  | Call_update (dev : km_device_t) (handle : Z) (params : AuthorizationSet) (data : bytes)
  | Call_finish (dev : km_device_t) (handle : Z) (params : AuthorizationSet)
      (input signature : bytes)
  | Call_abort (dev : km_device_t) (handle : Z).

(** Everything the service calls but does not define.  [X] is the state of
    the keymaster devices and of the enforcement policy; each oracle says
    what the collaborator answers in a state and what state it moves to. *)
Record Env (X : Type) : Type := {
  (* permissions.h *)
  has_permission : uid_t -> perm_t -> pid_t -> bool;
  is_granted_to : uid_t -> uid_t -> bool;
  (* keystore_utils.h, keystore_hidl_support.h *)
  add_legacy_key_authorizations : Z -> AuthorizationSet -> AuthorizationSet;
  authToken2HidlVec : HardwareAuthToken -> bytes;
  (* d2i_PKCS8_PRIV_KEY_INFO, then EVP_PKCS82PKEY and EVP_PKEY_type *)
  d2i_PKCS8_PRIV_KEY_INFO : bytes -> option bytes;
  EVP_PKCS82PKEY_type : bytes -> option Z;
  (* BN_BITS2: the number of bits of BN_ULONG, the machine word *)
  BN_BITS2 : Z;
  (* AuthorizationSet::Serialize (None: the stream went bad), Deserialize,
     Union and Subtract *)
  Serialize : AuthorizationSet -> option bytes;
  Deserialize : bytes -> AuthorizationSet;
  Union : AuthorizationSet -> AuthorizationSet -> AuthorizationSet;
  Subtract : AuthorizationSet -> AuthorizationSet -> AuthorizationSet;
  (* keymaster devices *)
  dev_addRngEntropy : bytes -> X -> ErrorCode.t * X;
  dev_generateKey : km_device_t -> AuthorizationSet -> X ->
    HidlReturn (ErrorCode.t * bytes * KeyCharacteristics) * X;
  dev_importKey : km_device_t -> AuthorizationSet -> Z -> bytes -> X ->
    HidlReturn (ErrorCode.t * bytes * KeyCharacteristics) * X;
  dev_getKeyCharacteristics : km_device_t -> bytes -> bytes -> bytes -> X ->
    HidlReturn (ErrorCode.t * KeyCharacteristics) * X;
  dev_exportKey : km_device_t -> Z -> bytes -> bytes -> bytes -> X ->
    HidlReturn (ErrorCode.t * bytes) * X;
  dev_upgradeKey : km_device_t -> bytes -> AuthorizationSet -> X ->
    HidlReturn (ErrorCode.t * bytes) * X;
  dev_begin : km_device_t -> Z -> bytes -> AuthorizationSet -> X ->
    HidlReturn (ErrorCode.t * AuthorizationSet * Z) * X;
  dev_update : km_device_t -> Z -> AuthorizationSet -> bytes -> X ->
    HidlReturn (ErrorCode.t * Z * AuthorizationSet * bytes) * X;
  dev_finish : km_device_t -> Z -> AuthorizationSet -> bytes -> bytes -> X ->
    HidlReturn (ErrorCode.t * AuthorizationSet * bytes) * X;
  dev_abort : km_device_t -> Z -> X -> ErrorCode.t * X;
  (* enforcement_policy *)
  CreateKeyId : bytes -> option Z;
  AuthorizeOperation : Z -> Z -> AuthorizationSet -> AuthorizationSet -> Z -> bool -> X ->
    ErrorCode.t * X;
  (* mAuthTokenTable *)
  FindAuthorization : AuthTokenTable.t -> AuthorizationSet -> Z -> Z ->
    AuthTokenTable.Error * option HardwareAuthToken;
  MarkCompleted : Z -> AuthTokenTable.t -> AuthTokenTable.t
}.

Arguments has_permission {X} _ _ _ _.
Arguments is_granted_to {X} _ _ _.
Arguments add_legacy_key_authorizations {X} _ _ _.
Arguments authToken2HidlVec {X} _ _.
Arguments d2i_PKCS8_PRIV_KEY_INFO {X} _ _.
Arguments EVP_PKCS82PKEY_type {X} _ _.
Arguments BN_BITS2 {X} _.
Arguments Serialize {X} _ _.
Arguments Deserialize {X} _ _.
Arguments Union {X} _ _ _.
Arguments Subtract {X} _ _ _.
Arguments dev_addRngEntropy {X} _ _ _.
Arguments dev_generateKey {X} _ _ _ _.
Arguments dev_importKey {X} _ _ _ _ _ _.
Arguments dev_getKeyCharacteristics {X} _ _ _ _ _ _.
Arguments dev_exportKey {X} _ _ _ _ _ _ _.
Arguments dev_upgradeKey {X} _ _ _ _ _.
Arguments dev_begin {X} _ _ _ _ _ _.
Arguments dev_update {X} _ _ _ _ _ _.
Arguments dev_finish {X} _ _ _ _ _ _ _.
Arguments dev_abort {X} _ _ _ _.
Arguments CreateKeyId {X} _ _.
Arguments AuthorizeOperation {X} _ _ _ _ _ _ _ _.
Arguments FindAuthorization {X} _ _ _ _ _.
Arguments MarkCompleted {X} _ _ _.

(** The state of the service and of its collaborators.  [calls] is the log
    of the keymaster calls issued so far, oldest first. *)
Record World (X : Type) : Type := {
  mKeyStore : KeyStore.t;
  mOperationMap : OperationMap.t;
  mAuthTokenTable : AuthTokenTable.t;
  external : X;
  calls : list DeviceCall
}.
Arguments mKeyStore {X} _.
Arguments mOperationMap {X} _.
Arguments mAuthTokenTable {X} _.
Arguments external {X} _.
Arguments calls {X} _.
Arguments Build_World {X} _ _ _ _ _.

Definition with_mKeyStore {X} (ks : KeyStore.t) (w : World X) : World X :=
  Build_World ks (mOperationMap w) (mAuthTokenTable w) (external w) (calls w).

Definition with_mOperationMap {X} (m : OperationMap.t) (w : World X) : World X :=
  Build_World (mKeyStore w) m (mAuthTokenTable w) (external w) (calls w).

Definition with_mAuthTokenTable {X} (t : AuthTokenTable.t) (w : World X) : World X :=
  Build_World (mKeyStore w) (mOperationMap w) t (external w) (calls w).

(** A read of the blob store. *)
Definition keystore {X A} (g : KeyStore.t -> A) : M (World X) A :=
  gets (fun w => g (mKeyStore w)).

(** A blob store operation that may change the store. *)
Definition keystore_update {X A} (g : KeyStore.t -> A * KeyStore.t) : M (World X) A :=
  fun w => let (a, ks) := g (mKeyStore w) in (a, with_mKeyStore ks w).

Definition opmap {X A} (g : OperationMap.t -> A) : M (World X) A :=
  gets (fun w => g (mOperationMap w)).

Definition opmap_update {X A} (g : OperationMap.t -> A * OperationMap.t) : M (World X) A :=
  fun w => let (a, m) := g (mOperationMap w) in (a, with_mOperationMap m w).

(** A call to a keymaster device: the call is logged and the oracle moves
    the external state. *)
Definition hidl {X A} (call : DeviceCall) (oracle : X -> A * X) : M (World X) A :=
  fun w =>
    let (a, x) := oracle (external w) in
    (a, Build_World (mKeyStore w) (mOperationMap w) (mAuthTokenTable w) x
          (calls w ++ [call])).

(** A call to the enforcement policy. *)
Definition policy {X A} (oracle : X -> A * X) : M (World X) A :=
  fun w =>
    let (a, x) := oracle (external w) in
    (a, Build_World (mKeyStore w) (mOperationMap w) (mAuthTokenTable w) x (calls w)).

(** ** The service *)

Section KeyStoreService.
Context {X : Type}.
Variable env : Env X.

Abbreviation Svc := (M (World X)).

(** *** Permission helpers *)

Definition getEffectiveUid (c : Caller) (targetUid : Z) : uid_t :=
  if targetUid =? UID_SELF then callingUid c else cast_uid_t targetUid.

Definition checkBinderPermission (c : Caller) (permission : perm_t) (targetUid : Z) : bool :=
  if negb (has_permission env (callingUid c) permission (callingPid c)) then false
  else if negb (is_granted_to env (callingUid c) (getEffectiveUid c targetUid)) then false
  else true.

Definition checkBinderPermissionSelfOrSystem (c : Caller) (permission : perm_t)
    (targetUid : Z) : bool :=
  if negb (has_permission env (callingUid c) permission (callingPid c)) then false
  else (getEffectiveUid c targetUid =? callingUid c) || (callingUid c =? AID_SYSTEM).

Definition isKeystoreUnlocked (state : State) : bool :=
  match state with
  | STATE_NO_ERROR => true
  | STATE_UNINITIALIZED => false
  | STATE_LOCKED => false
  end.

Definition checkBinderPermissionAndKeystoreState (c : Caller) (permission : perm_t)
    (targetUid : Z) (checkUnlocked : bool) : Svc KeyStoreServiceReturnCode.t :=
  if negb (checkBinderPermission c permission targetUid)
  then ret (RC ResponseCode.PERMISSION_DENIED)
  else
    let* state :=
      keystore (fun ks => KeyStore.getState ks (get_user_id (getEffectiveUid c targetUid))) in
    if checkUnlocked && negb (isKeystoreUnlocked state)
    then ret (RC (State_to_ResponseCode state))
    else ret (RC ResponseCode.NO_ERROR).

(** *** Key creation *)

Definition addRngEntropy (entropy : bytes) : Svc Z :=
  let* rc := hidl (Call_addRngEntropy entropy) (dev_addRngEntropy env entropy) in
  ret (KeyStoreServiceReturnCode.to_int32 (EC rc)).

(** The callback [hidl_cb] of [generateKey].  [error] and [out] are the
    captured [error] and [*outCharacteristics]; [cb] is what the device
    passed to the callback, if it called it. *)
Definition generateKey_hidl_cb (name : string) (params : AuthorizationSet) (uid flags : Z)
    (usingFallback : bool) (error : KeyStoreServiceReturnCode.t)
    (out : option KeyCharacteristics)
    (cb : option (ErrorCode.t * bytes * KeyCharacteristics))
  : Svc (KeyStoreServiceReturnCode.t * option KeyCharacteristics) :=
  match cb with
  | None => ret (error, out)
  | Some (r, hidlKeyBlob, keyCharacteristics) =>
      let error := EC r in
      if negb (isOk error) then ret (error, out) else
      let out := Some keyCharacteristics in
      (* Write the key *)
      let filename :=
        KeyStore.getKeyNameForUidWithDir name (cast_uid_t uid) TYPE_KEYMASTER_10 in
      let keyBlob := Blob_new hidlKeyBlob [] TYPE_KEYMASTER_10 in
      let keyBlob := setFallback usingFallback keyBlob in
      let keyBlob :=
        setCriticalToDeviceEncryption
          (has_flag flags KEYSTORE_FLAG_CRITICAL_TO_DEVICE_ENCRYPTION) keyBlob in
      let keyBlob :=
        if isAuthenticationBound params && negb (isCriticalToDeviceEncryption keyBlob)
        then setSuperEncrypted true keyBlob else keyBlob in
      let keyBlob := setEncrypted (has_flag flags KEYSTORE_FLAG_ENCRYPTED) keyBlob in
      let* rc :=
        keystore_update
          (fun ks => KeyStore.put ks filename keyBlob (get_user_id (cast_uid_t uid))) in
      ret (RC rc, out)
  end.

(** "Write the characteristics": the tail shared by the end of
    [generateKey] and [importKey]. *)
Definition write_characteristics (name : string) (params : AuthorizationSet) (uid flags : Z)
    (usingFallback : bool) : Svc Z :=
  let cFilename :=
    KeyStore.getKeyNameForUidWithDir name (cast_uid_t uid) TYPE_KEY_CHARACTERISTICS in
  match Serialize env params with
  | None => ret (ResponseCode.to_int32 ResponseCode.SYSTEM_ERROR)
  | Some kc_buf =>
      let charBlob := Blob_new kc_buf [] TYPE_KEY_CHARACTERISTICS in
      let charBlob := setFallback usingFallback charBlob in
      let charBlob := setEncrypted (has_flag flags KEYSTORE_FLAG_ENCRYPTED) charBlob in
      let* rc :=
        keystore_update
          (fun ks => KeyStore.put ks cFilename charBlob (get_user_id (cast_uid_t uid))) in
      ret (ResponseCode.to_int32 rc)
  end.

(** [generateKey]: the result is [*aidl_return] and [*outCharacteristics]. *)
Definition generateKey (c : Caller) (name : string) (params : AuthorizationSet)
    (entropy : bytes) (uid flags : Z) : Svc (Z * option KeyCharacteristics) :=
  let uid := wrap_int32 (getEffectiveUid c uid) in
  let* rc :=
    checkBinderPermissionAndKeystoreState c P_INSERT uid
      (has_flag flags KEYSTORE_FLAG_ENCRYPTED) in
  if negb (isOk rc) then ret (KeyStoreServiceReturnCode.to_int32 rc, None) else
  if has_flag flags KEYSTORE_FLAG_CRITICAL_TO_DEVICE_ENCRYPTION
     && negb (get_app_id (cast_uid_t uid) =? AID_SYSTEM)
  then ret (ResponseCode.to_int32 ResponseCode.PERMISSION_DENIED, None) else
  if containsTag params Tag.INCLUDE_UNIQUE_ID
     && negb (checkBinderPermission c P_GEN_UNIQUE_ID UID_SELF)
  then ret (ResponseCode.to_int32 ResponseCode.PERMISSION_DENIED, None) else
  let* result := addRngEntropy entropy in
  if negb (isOk result) then ret (result, None) else
  let* reply :=
    hidl (Call_generateKey PrimaryDevice params) (dev_generateKey env PrimaryDevice params) in
  let* (error, out) :=
    generateKey_hidl_cb name params uid flags false (EC ErrorCode.OK) None
      (hidl_callback reply) in
  let rc := EC (hidl_status reply) in
  if negb (isOk rc) then ret (KeyStoreServiceReturnCode.to_int32 rc, out) else
  if negb (isOk error) then
    (* falling back to software keymaster *)
    let* fallback := keystore KeyStore.getFallbackDevice in
    match fallback with
    | None => ret (KeyStoreServiceReturnCode.to_int32 error, out)
    | Some fallback_dev =>
        let* reply :=
          hidl (Call_generateKey fallback_dev params)
               (dev_generateKey env fallback_dev params) in
        let* (error, out) :=
          generateKey_hidl_cb name params uid flags true error out (hidl_callback reply) in
        let rc := EC (hidl_status reply) in
        if negb (isOk rc) then ret (KeyStoreServiceReturnCode.to_int32 rc, out) else
        if negb (isOk error) then ret (KeyStoreServiceReturnCode.to_int32 error, out) else
        let* r := write_characteristics name params uid flags true in
        ret (r, out)
    end
  else
    let* r := write_characteristics name params uid flags false in
    ret (r, out).

(** The callback [hidlCb] of [importKey]. *)
Definition importKey_hidlCb (name : string) (params : AuthorizationSet) (uid flags : Z)
    (usingFallback : bool) (error : KeyStoreServiceReturnCode.t)
    (out : option KeyCharacteristics)
    (cb : option (ErrorCode.t * bytes * KeyCharacteristics))
  : Svc (KeyStoreServiceReturnCode.t * option KeyCharacteristics) :=
  match cb with
  | None => ret (error, out)
  | Some (r, keyBlob, keyCharacteristics) =>
      let error := EC r in
      if negb (isOk error) then ret (error, out) else
      let out := Some keyCharacteristics in
      (* Write the key: *)
      let filename :=
        KeyStore.getKeyNameForUidWithDir name (cast_uid_t uid) TYPE_KEYMASTER_10 in
      let ksBlob := Blob_new keyBlob [] TYPE_KEYMASTER_10 in
      let ksBlob := setFallback usingFallback ksBlob in
      let ksBlob :=
        setCriticalToDeviceEncryption
          (has_flag flags KEYSTORE_FLAG_CRITICAL_TO_DEVICE_ENCRYPTION) ksBlob in
      let ksBlob :=
        if isAuthenticationBound params && negb (isCriticalToDeviceEncryption ksBlob)
        then setSuperEncrypted true ksBlob else ksBlob in
      let ksBlob := setEncrypted (has_flag flags KEYSTORE_FLAG_ENCRYPTED) ksBlob in
      let* rc :=
        keystore_update
          (fun ks => KeyStore.put ks filename ksBlob (get_user_id (cast_uid_t uid))) in
      ret (RC rc, out)
  end.

(** [importKey]: the result is [*aidl_return] and [*outCharacteristics]. *)
Definition importKey (c : Caller) (name : string) (params : AuthorizationSet) (format : Z)
    (keyData : bytes) (uid flags : Z) : Svc (Z * option KeyCharacteristics) :=
  let uid := wrap_int32 (getEffectiveUid c uid) in
  let* rc :=
    checkBinderPermissionAndKeystoreState c P_INSERT uid
      (has_flag flags KEYSTORE_FLAG_ENCRYPTED) in
  if negb (isOk rc) then ret (KeyStoreServiceReturnCode.to_int32 rc, None) else
  if has_flag flags KEYSTORE_FLAG_CRITICAL_TO_DEVICE_ENCRYPTION
     && negb (get_app_id (cast_uid_t uid) =? AID_SYSTEM)
  then ret (ResponseCode.to_int32 ResponseCode.PERMISSION_DENIED, None) else
  let* reply :=
    hidl (Call_importKey PrimaryDevice params format keyData)
         (dev_importKey env PrimaryDevice params format keyData) in
  let* (error, out) :=
    importKey_hidlCb name params uid flags false (EC ErrorCode.OK) None
      (hidl_callback reply) in
  let rc := EC (hidl_status reply) in
  (* possible hidl error *)
  if negb (isOk rc) then ret (KeyStoreServiceReturnCode.to_int32 rc, out) else
  (* now check error from callback *)
  if negb (isOk error) then
    let* fallback := keystore KeyStore.getFallbackDevice in
    match fallback with
    | None => ret (KeyStoreServiceReturnCode.to_int32 error, out)
    | Some fallback_dev =>
        let* reply :=
          hidl (Call_importKey fallback_dev params format keyData)
               (dev_importKey env fallback_dev params format keyData) in
        let* (error, out) :=
          importKey_hidlCb name params uid flags true error out (hidl_callback reply) in
        let rc := EC (hidl_status reply) in
        if negb (isOk rc) then ret (KeyStoreServiceReturnCode.to_int32 rc, out) else
        if negb (isOk error) then ret (KeyStoreServiceReturnCode.to_int32 error, out) else
        let* r := write_characteristics name params uid flags true in
        ret (r, out)
    end
  else
    let* r := write_characteristics name params uid flags false in
    ret (r, out).

(** *** Upgrade of a key blob *)

(** The callback [hidlCb] of [upgradeKeyBlob].  [blob] is the caller's
    blob, as re-read at the start of [upgradeKeyBlob]. *)
Definition upgradeKeyBlob_hidlCb (name : string) (uid : uid_t) (blob : Blob)
    (error : KeyStoreServiceReturnCode.t) (cb : option (ErrorCode.t * bytes))
  : Svc (KeyStoreServiceReturnCode.t * Blob) :=
  match cb with
  | None => ret (error, blob)
  | Some (r, upgradedKeyBlob) =>
      let error := EC r in
      if negb (isOk error) then ret (error, blob) else
      let* filename :=
        keystore (fun ks => KeyStore.getBlobFileNameIfExists ks name uid TYPE_KEYMASTER_10) in
      match filename with
      | None => ret (error, blob)
      | Some filename =>
          let* rc :=
            keystore_update
              (fun ks => KeyStore.del ks filename TYPE_ANY (get_user_id uid)) in
          let error := RC rc in
          if negb (isOk error) then ret (error, blob) else
          let newBlob := Blob_new upgradedKeyBlob [] TYPE_KEYMASTER_10 in
          let newBlob := setFallback (isFallback blob) newBlob in
          let newBlob := setEncrypted (isEncrypted blob) newBlob in
          let newBlob := setSuperEncrypted (isSuperEncrypted blob) newBlob in
          let newBlob :=
            setCriticalToDeviceEncryption (isCriticalToDeviceEncryption blob) newBlob in
          let* rc :=
            keystore_update (fun ks => KeyStore.put ks filename newBlob (get_user_id uid)) in
          let error := RC rc in
          if negb (isOk error) then ret (error, blob) else
          (* Re-read blob for caller. *)
          let* (rc, blob) :=
            keystore (fun ks => KeyStore.getKeyForName ks blob name uid TYPE_KEYMASTER_10) in
          ret (RC rc, blob)
      end
  end.

(** [upgradeKeyBlob(name, uid, params, blob)]: the result is the return
    code and the caller's [*blob]. *)
Definition upgradeKeyBlob (name : string) (uid : uid_t) (params : AuthorizationSet)
    (blob : Blob) : Svc (KeyStoreServiceReturnCode.t * Blob) :=
  (* Read the blob rather than assuming the caller provided the right
     name/uid/blob triplet. *)
  let* (responseCode, blob) :=
    keystore (fun ks => KeyStore.getKeyForName ks blob name uid TYPE_KEYMASTER_10) in
  if negb (KeyStoreServiceReturnCode.eqResponseCode (RC responseCode) ResponseCode.NO_ERROR)
  then ret (RC responseCode, blob) else
  let hidlKey := blob2hidlVec blob in
  let dev := KeyStore.getDevice blob in
  let* reply :=
    hidl (Call_upgradeKey dev hidlKey params) (dev_upgradeKey env dev hidlKey params) in
  let* (error, blob) :=
    upgradeKeyBlob_hidlCb name uid blob (EC ErrorCode.OK) (hidl_callback reply) in
  let rc := EC (hidl_status reply) in
  if negb (isOk rc) then ret (rc, blob) else
  ret (error, blob).

(** *** Reading characteristics and exporting *)

(** The upgrade parameters built from [clientId] and [appId]. *)
Definition upgradeParams_of (clientId appId : bytes) : AuthorizationSet :=
  let upgradeParams := [] in
  let upgradeParams :=
    if negb (Nat.eqb (length clientId) 0)
    then push_back_blob upgradeParams Tag.APPLICATION_ID clientId else upgradeParams in
  let upgradeParams :=
    if negb (Nat.eqb (length appId) 0)
    then push_back_blob upgradeParams Tag.APPLICATION_DATA appId else upgradeParams in
  upgradeParams.

(** The callback [hidlCb] of [getKeyCharacteristics]. *)
Definition getKeyCharacteristics_hidlCb (error : KeyStoreServiceReturnCode.t)
    (out : KeyCharacteristics) (cb : option (ErrorCode.t * KeyCharacteristics))
  : KeyStoreServiceReturnCode.t * KeyCharacteristics :=
  match cb with
  | None => (error, out)
  | Some (r, keyCharacteristics) =>
      let error := EC r in
      if negb (isOk error) then (error, out) else (error, keyCharacteristics)
  end.

(** [getKeyCharacteristics]: [outCharacteristics] is [None] for a null
    pointer; the result is [*aidl_return] and [*outCharacteristics]. *)
Definition getKeyCharacteristics (c : Caller) (name : string) (clientId appId : bytes)
    (uid : Z) (outCharacteristics : option KeyCharacteristics)
  : Svc (Z * option KeyCharacteristics) :=
  match outCharacteristics with
  | None =>
      ret (KeyStoreServiceReturnCode.to_int32 (EC ErrorCode.UNEXPECTED_NULL_POINTER), None)
  | Some out =>
      let targetUid := getEffectiveUid c uid in
      if negb (is_granted_to env (callingUid c) targetUid)
      then ret (ResponseCode.to_int32 ResponseCode.PERMISSION_DENIED, Some out) else
      let* (rc, keyBlob) :=
        keystore (fun ks =>
          KeyStore.getKeyForName ks Blob_empty name targetUid TYPE_KEYMASTER_10) in
      let rc := RC rc in
      if KeyStoreServiceReturnCode.eqResponseCode rc ResponseCode.UNINITIALIZED then
        (* the master key is missing: use the characteristics file *)
        let* (rc, keyBlob) :=
          keystore (fun ks =>
            KeyStore.getKeyForName ks keyBlob name targetUid TYPE_KEY_CHARACTERISTICS) in
        let rc := RC rc in
        if negb (isOk rc) then ret (KeyStoreServiceReturnCode.to_int32 rc, Some out) else
        let keyCharacteristics := Deserialize env (getValue keyBlob) in
        let out :=
          {| softwareEnforced := keyCharacteristics; teeEnforced := teeEnforced out |} in
        ret (KeyStoreServiceReturnCode.to_int32 rc, Some out)
      else if negb (isOk rc) then ret (KeyStoreServiceReturnCode.to_int32 rc, Some out) else
      let hidlKeyBlob := blob2hidlVec keyBlob in
      let dev := KeyStore.getDevice keyBlob in
      let* reply :=
        hidl (Call_getKeyCharacteristics dev hidlKeyBlob clientId appId)
             (dev_getKeyCharacteristics env dev hidlKeyBlob clientId appId) in
      let '(error, out) :=
        getKeyCharacteristics_hidlCb (EC ErrorCode.OK) out (hidl_callback reply) in
      let rc := EC (hidl_status reply) in
      if negb (isOk rc) then ret (KeyStoreServiceReturnCode.to_int32 rc, Some out) else
      if KeyStoreServiceReturnCode.eqErrorCode error ErrorCode.KEY_REQUIRES_UPGRADE then
        let upgradeParams := upgradeParams_of clientId appId in
        let* (rc, keyBlob) := upgradeKeyBlob name targetUid upgradeParams keyBlob in
        if negb (isOk rc) then ret (KeyStoreServiceReturnCode.to_int32 rc, Some out) else
        let upgradedHidlKeyBlob := blob2hidlVec keyBlob in
        let* reply :=
          hidl (Call_getKeyCharacteristics dev upgradedHidlKeyBlob clientId appId)
               (dev_getKeyCharacteristics env dev upgradedHidlKeyBlob clientId appId) in
        let '(error, out) :=
          getKeyCharacteristics_hidlCb error out (hidl_callback reply) in
        let rc := EC (hidl_status reply) in
        if negb (isOk rc) then ret (KeyStoreServiceReturnCode.to_int32 rc, Some out) else
        ret (KeyStoreServiceReturnCode.to_int32 error, Some out)
      else ret (KeyStoreServiceReturnCode.to_int32 error, Some out)
  end.

Record ExportResult : Type := {
  export_resultCode : KeyStoreServiceReturnCode.t;
  exportData : bytes
}.

(** The callback [hidlCb] of [exportKey]. *)
Definition exportKey_hidlCb (result : ExportResult) (cb : option (ErrorCode.t * bytes))
  : ExportResult :=
  match cb with
  | None => result
  | Some (r, keyMaterial) =>
      if negb (isOk (EC r))
      then {| export_resultCode := EC r; exportData := exportData result |}
      else {| export_resultCode := EC r; exportData := keyMaterial |}
  end.

Definition set_export_resultCode (rc : KeyStoreServiceReturnCode.t) (result : ExportResult)
  : ExportResult :=
  {| export_resultCode := rc; exportData := exportData result |}.

(** [exportKey]: [result] is the caller's [ExportResult]. *)
Definition exportKey (c : Caller) (name : string) (format : Z) (clientId appId : bytes)
    (uid : Z) (result : ExportResult) : Svc ExportResult :=
  let targetUid := getEffectiveUid c uid in
  if negb (is_granted_to env (callingUid c) targetUid)
  then ret (set_export_resultCode (RC ResponseCode.PERMISSION_DENIED) result) else
  let* (rc, keyBlob) :=
    keystore (fun ks =>
      KeyStore.getKeyForName ks Blob_empty name targetUid TYPE_KEYMASTER_10) in
  let result := set_export_resultCode (RC rc) result in
  if negb (isOk (export_resultCode result)) then ret result else
  let key := blob2hidlVec keyBlob in
  let dev := KeyStore.getDevice keyBlob in
  let* reply :=
    hidl (Call_exportKey dev format key clientId appId)
         (dev_exportKey env dev format key clientId appId) in
  let result := exportKey_hidlCb result (hidl_callback reply) in
  let rc := EC (hidl_status reply) in
  (* Overwrite result->resultCode only on HIDL error. *)
  let result := if negb (isOk rc) then set_export_resultCode rc result else result in
  if KeyStoreServiceReturnCode.eqErrorCode (export_resultCode result)
       ErrorCode.KEY_REQUIRES_UPGRADE
  then
    let upgradeParams := upgradeParams_of clientId appId in
    let* (rc, keyBlob) := upgradeKeyBlob name targetUid upgradeParams keyBlob in
    let result := set_export_resultCode rc result in
    if negb (isOk (export_resultCode result)) then ret result else
    let upgradedHidlKeyBlob := blob2hidlVec keyBlob in
    let* reply :=
      hidl (Call_exportKey dev format upgradedHidlKeyBlob clientId appId)
           (dev_exportKey env dev format upgradedHidlKeyBlob clientId appId) in
    (* the callback runs first, then the status is stored over its result *)
    let result := exportKey_hidlCb result (hidl_callback reply) in
    let result := set_export_resultCode (EC (hidl_status reply)) result in
    ret result
  else ret result.

(** *** Operations *)

Record OperationResult : Type := {
  resultCode : KeyStoreServiceReturnCode.t;
  token : token_t;
  handle : Z;
  inputConsumed : Z;
  data : bytes;
  outParams : AuthorizationSet
}.

(** The default-constructed [OperationResult] of a binder call. *)
Definition OperationResult_new : OperationResult :=
  {| resultCode := EC ErrorCode.OK; token := None; handle := 0; inputConsumed := 0;
     data := []; outParams := [] |}.

Definition set_resultCode (rc : KeyStoreServiceReturnCode.t) (r : OperationResult)
  : OperationResult :=
  {| resultCode := rc; token := token r; handle := handle r;
     inputConsumed := inputConsumed r; data := data r; outParams := outParams r |}.

Definition set_token (tk : token_t) (r : OperationResult) : OperationResult :=
  {| resultCode := resultCode r; token := tk; handle := handle r;
     inputConsumed := inputConsumed r; data := data r; outParams := outParams r |}.

Definition addAuthTokenToParams (params : AuthorizationSet)
    (authToken : option HardwareAuthToken) : AuthorizationSet :=
  match authToken with
  | Some tok => push_back_blob params Tag.AUTH_TOKEN (authToken2HidlVec env tok)
  | None => params
  end.

Definition abort (tk : token_t) : Svc Z :=
  let* found := opmap (OperationMap.getOperation tk) in
  match found with
  | None =>
      ret (KeyStoreServiceReturnCode.to_int32 (EC ErrorCode.INVALID_OPERATION_HANDLE))
  | Some op =>
      do* opmap_update (OperationMap.removeOperation tk) in
      let* error_code :=
        hidl (Call_abort (op_device op) (op_handle op))
             (dev_abort env (op_device op) (op_handle op)) in
      do* modify (fun w =>
            with_mAuthTokenTable (MarkCompleted env (op_handle op) (mAuthTokenTable w)) w) in
      ret (KeyStoreServiceReturnCode.to_int32 (EC error_code))
  end.

(** Prune the oldest pruneable operation. *)
Definition pruneOperation : Svc bool :=
  let* oldest := opmap OperationMap.getOldestPruneableOperation in
  let* op_count_before_abort := opmap OperationMap.getOperationCount in
  let* abort_error := abort oldest in
  let* op_count := opmap OperationMap.getOperationCount in
  if (op_count_before_abort <=? op_count)%nat then ret false else ret true.

Definition getOperationCharacteristics (key : bytes) (dev : km_device_t)
    (params : AuthorizationSet) (out : KeyCharacteristics)
  : Svc (ErrorCode.t * KeyCharacteristics) :=
  let appId :=
    fold_left
      (fun (appId : bytes) param =>
         if bool_decide (tag param = Tag.APPLICATION_ID) then f_blob param
         else if bool_decide (tag param = Tag.APPLICATION_DATA) then f_blob param
         else appId)
      params [] in
  let* reply :=
    hidl (Call_getKeyCharacteristics dev key appId appId)
         (dev_getKeyCharacteristics env dev key appId appId) in
  let '(error, out) :=
    match hidl_callback reply with
    | None => (ErrorCode.OK, out)
    | Some (r, keyCharacteristics) =>
        if negb (r =? ErrorCode.OK) then (r, out) else (r, keyCharacteristics)
    end in
  let rc := hidl_status reply in
  if negb (rc =? ErrorCode.OK) then ret (rc, out) else ret (error, out).

(** Get the auth token for this operation from the auth token table. *)
Definition getAuthToken (characteristics : KeyCharacteristics) (handle purpose : Z)
    (failOnTokenMissing : bool)
  : Svc (KeyStoreServiceReturnCode.t * option HardwareAuthToken) :=
  let allCharacteristics :=
    softwareEnforced characteristics ++ teeEnforced characteristics in
  let* (err, authToken) :=
    gets (fun w =>
      FindAuthorization env (mAuthTokenTable w) allCharacteristics purpose handle) in
  match err with
  | AuthTokenTable.OK | AuthTokenTable.AUTH_NOT_REQUIRED =>
      ret (RC ResponseCode.NO_ERROR, authToken)
  | AuthTokenTable.AUTH_TOKEN_NOT_FOUND | AuthTokenTable.AUTH_TOKEN_EXPIRED
  | AuthTokenTable.AUTH_TOKEN_WRONG_SID =>
      ret (EC ErrorCode.KEY_USER_NOT_AUTHENTICATED, authToken)
  | AuthTokenTable.OP_HANDLE_REQUIRED =>
      ret (if failOnTokenMissing then EC ErrorCode.KEY_USER_NOT_AUTHENTICATED
           else RC ResponseCode.OP_AUTH_NEEDED, authToken)
  | AuthTokenTable.OTHER_ERROR => ret (EC ErrorCode.INVALID_ARGUMENT, authToken)
  end.

(** Add the auth token for the operation to the param list if the operation
    requires authorization. *)
Definition addOperationAuthTokenIfNeeded (tk : token_t) (params : AuthorizationSet)
  : Svc (KeyStoreServiceReturnCode.t * AuthorizationSet) :=
  let* authToken := opmap (OperationMap.getOperationAuthToken tk) in
  match authToken with
  | Some _ => ret (RC ResponseCode.NO_ERROR, addAuthTokenToParams params authToken)
  | None =>
      let* found := opmap (OperationMap.getOperation tk) in
      match found with
      | None => ret (EC ErrorCode.INVALID_OPERATION_HANDLE, params)
      | Some op =>
          let* (result, authToken) :=
            getAuthToken (op_characteristics op) (op_handle op) (op_purpose op) true in
          if negb (isOk result) then ret (result, params) else
          do* match authToken with
              | Some _ =>
                  opmap_update (fun m =>
                    (tt, OperationMap.setOperationAuthToken tk authToken m))
              | None => ret tt
              end in
          ret (RC ResponseCode.NO_ERROR, addAuthTokenToParams params authToken)
      end
  end.

(** The callback [hidlCb] of [begin]. *)
Definition begin_hidlCb (result : OperationResult)
    (cb : option (ErrorCode.t * AuthorizationSet * Z)) : OperationResult :=
  match cb with
  | None => result
  | Some (r, outParams, operationHandle) =>
      if negb (isOk (EC r)) then set_resultCode (EC r) result
      else {| resultCode := EC r; token := token result; handle := operationHandle;
              inputConsumed := inputConsumed result; data := data result;
              outParams := outParams |}
  end.

(** [while (mOperationMap.getOperationCount() >= kMaxOperations)] of
    [begin]; [fuel] bounds the number of iterations. *)
Fixpoint prune_while_full (fuel : nat) : Svc unit :=
  match fuel with
  | O => ret tt
  | S fuel =>
      let* count := opmap OperationMap.getOperationCount in
      if (kMaxOperations <=? count)%nat then
        let* pruned := pruneOperation in
        if negb pruned then ret tt else prune_while_full fuel
      else ret tt
  end.

(** [while (rc == ErrorCode::TOO_MANY_OPERATIONS && hasPruneableOperation())]
    of [begin]; [fuel] bounds the number of iterations. *)
Fixpoint begin_retry (fuel : nat) (dev : km_device_t) (purpose : Z) (key : bytes)
    (opParams : AuthorizationSet) (rc : ErrorCode.t) (result : OperationResult)
  : Svc (ErrorCode.t * OperationResult) :=
  match fuel with
  | O => ret (rc, result)
  | S fuel =>
      let* pruneable := opmap OperationMap.hasPruneableOperation in
      if (rc =? ErrorCode.TOO_MANY_OPERATIONS) && pruneable then
        let* pruned := pruneOperation in
        if negb pruned then ret (rc, result) else
        let* reply :=
          hidl (Call_begin dev purpose key opParams)
               (dev_begin env dev purpose key opParams) in
        let result := begin_hidlCb result (hidl_callback reply) in
        begin_retry fuel dev purpose key opParams (hidl_status reply) result
      else ret (rc, result)
  end.

(** The part of [begin] that follows the authorization checks: pruning,
    the device call with its retries, and the registration of the
    operation. *)
Definition begin_operation (appToken : nat) (purpose : Z) (pruneable : bool)
    (dev : km_device_t) (key : bytes) (opParams : AuthorizationSet) (keyid : Z)
    (characteristics : KeyCharacteristics)
    (authResult : KeyStoreServiceReturnCode.t) (authToken : option HardwareAuthToken)
    (result : OperationResult) : Svc OperationResult :=
  (* If there are more than kMaxOperations, abort the oldest operation that
     was started as pruneable. *)
  let* count := opmap OperationMap.getOperationCount in
  do* prune_while_full (S count) in
  let* reply :=
    hidl (Call_begin dev purpose key opParams) (dev_begin env dev purpose key opParams) in
  let result := begin_hidlCb result (hidl_callback reply) in
  let rc := hidl_status reply in
  (* If there are too many operations abort the oldest operation that was
     started as pruneable and try again. *)
  let* count := opmap OperationMap.getOperationCount in
  let* (rc, result) := begin_retry (S count) dev purpose key opParams rc result in
  if negb (rc =? ErrorCode.OK) then ret (set_resultCode (EC rc) result) else
  let* operationToken :=
    opmap_update
      (OperationMap.addOperation (handle result) keyid purpose dev appToken
         characteristics pruneable) in
  let result := set_token operationToken result in
  do* match authToken with
      | Some _ =>
          opmap_update (fun m =>
            (tt, OperationMap.setOperationAuthToken operationToken authToken m))
      | None => ret tt
      end in
  (* Return the authentication lookup result. *)
  if KeyStoreServiceReturnCode.eqErrorCode (resultCode result) ErrorCode.OK
  then ret (set_resultCode authResult result)
  else ret result.

(** [begin]: [result] is the caller's [OperationResult]. *)
Definition begin (c : Caller) (appToken : nat) (name : string) (purpose : Z)
    (pruneable : bool) (params : AuthorizationSet) (entropy : bytes) (uid : Z)
    (result : OperationResult) : Svc OperationResult :=
  let targetUid := getEffectiveUid c uid in
  if negb (is_granted_to env (callingUid c) targetUid)
  then ret (set_resultCode (RC ResponseCode.PERMISSION_DENIED) result) else
  if negb pruneable && negb (get_app_id (callingUid c) =? AID_SYSTEM)
  then ret (set_resultCode (RC ResponseCode.PERMISSION_DENIED) result) else
  if negb (checkAllowedOperationParams params)
  then ret (set_resultCode (EC ErrorCode.INVALID_ARGUMENT) result) else
  let* (rc, keyBlob) :=
    keystore (fun ks =>
      KeyStore.getKeyForName ks Blob_empty name targetUid TYPE_KEYMASTER_10) in
  let result := set_resultCode (RC rc) result in
  let result :=
    if KeyStoreServiceReturnCode.eqResponseCode (resultCode result) ResponseCode.LOCKED
       && isSuperEncrypted keyBlob
    then set_resultCode (EC ErrorCode.KEY_USER_NOT_AUTHENTICATED) result else result in
  if negb (isOk (resultCode result)) then ret result else
  let key := blob2hidlVec keyBlob in
  let dev := KeyStore.getDevice keyBlob in
  let opParams := params in
  let* (rc, characteristics) :=
    getOperationCharacteristics key dev opParams no_characteristics in
  let result := set_resultCode (EC rc) result in
  let* (result, key, characteristics, continue) :=
    if KeyStoreServiceReturnCode.eqErrorCode (resultCode result)
         ErrorCode.KEY_REQUIRES_UPGRADE
    then
      let* (rc, keyBlob) := upgradeKeyBlob name targetUid opParams keyBlob in
      let result := set_resultCode rc result in
      if negb (isOk (resultCode result)) then ret (result, key, characteristics, false) else
      let key := blob2hidlVec keyBlob in
      let* (rc, characteristics) :=
        getOperationCharacteristics key dev opParams characteristics in
      ret (set_resultCode (EC rc) result, key, characteristics, true)
    else ret (result, key, characteristics, true) in
  if negb continue then ret result else
  if negb (isOk (resultCode result)) then ret result else
  (* Merge these characteristics with the ones cached when the key was
     generated or imported *)
  let* (rc, charBlob) :=
    keystore (fun ks =>
      KeyStore.getKeyForName ks Blob_empty name targetUid TYPE_KEY_CHARACTERISTICS) in
  let result := set_resultCode (RC rc) result in
  let persistedCharacteristics :=
    if isOk (resultCode result) then Deserialize env (getValue charBlob) else [] in
  (* Replace the sw_enforced set with those persisted to disk, minus hw_enforced *)
  let persistedCharacteristics :=
    Union env persistedCharacteristics (softwareEnforced characteristics) in
  let persistedCharacteristics :=
    Subtract env persistedCharacteristics (teeEnforced characteristics) in
  let characteristics :=
    {| softwareEnforced := persistedCharacteristics;
       teeEnforced := teeEnforced characteristics |} in
  let* (authResult, authToken) := getAuthToken characteristics 0 purpose false in
  if negb (isOk authResult)
     && negb (KeyStoreServiceReturnCode.eqResponseCode authResult ResponseCode.OP_AUTH_NEEDED)
  then ret (set_resultCode authResult result) else
  let opParams := addAuthTokenToParams opParams authToken in
  (* Add entropy to the device first. *)
  let* (result, continue) :=
    if negb (Nat.eqb (length entropy) 0) then
      let* rc := addRngEntropy entropy in
      let result := set_resultCode rc result in
      ret (result, isOk (resultCode result))
    else ret (result, true) in
  if negb continue then ret result else
  (* Create a keyid for this key. *)
  match CreateKeyId env key with
  | None => ret (set_resultCode (EC ErrorCode.UNKNOWN_ERROR) result)
  | Some keyid =>
      (* Check that all key authorization policy requirements are met. *)
      let key_auths := teeEnforced characteristics ++ softwareEnforced characteristics in
      let* rc := policy (AuthorizeOperation env purpose keyid key_auths opParams 0 true) in
      let result := set_resultCode (EC rc) result in
      if negb (isOk (resultCode result)) then ret result else
      begin_operation appToken purpose pruneable dev key opParams keyid characteristics
        authResult authToken result
  end.

(** The callback [hidlCb] of [update].  The device reports the count of
    consumed input as a [uint32_t]; [result->inputConsumed = inputConsumed]
    stores it in the [int] field of the result (OperationResult.h), so a
    count of 2^31 or more becomes negative. *)
Definition update_hidlCb (result : OperationResult)
    (cb : option (ErrorCode.t * Z * AuthorizationSet * bytes)) : OperationResult :=
  match cb with
  | None => result
  | Some (r, inputConsumed, outParams, output) =>
      if negb (isOk (EC r)) then set_resultCode (EC r) result
      else {| resultCode := EC r; token := token result; handle := handle result;
              inputConsumed := wrap_int32 inputConsumed; data := output;
              outParams := outParams |}
  end.

(** [update]: [result] is the caller's [OperationResult]. *)
Definition update (tk : token_t) (params : AuthorizationSet) (input : bytes)
    (result : OperationResult) : Svc OperationResult :=
  if negb (checkAllowedOperationParams params)
  then ret (set_resultCode (EC ErrorCode.INVALID_ARGUMENT) result) else
  let* found := opmap (OperationMap.getOperation tk) in
  match found with
  | None => ret (set_resultCode (EC ErrorCode.INVALID_OPERATION_HANDLE) result)
  | Some op =>
      let opParams := params in
      let* (rc, opParams) := addOperationAuthTokenIfNeeded tk opParams in
      let result := set_resultCode rc result in
      if negb (isOk (resultCode result)) then ret result else
      (* Check that all key authorization policy requirements are met. *)
      let key_auths :=
        teeEnforced (op_characteristics op) ++ softwareEnforced (op_characteristics op) in
      let* rc :=
        policy (AuthorizeOperation env (op_purpose op) (op_keyid op) key_auths opParams
                  (op_handle op) false) in
      let result := set_resultCode (EC rc) result in
      if negb (isOk (resultCode result)) then ret result else
      let* reply :=
        hidl (Call_update (op_device op) (op_handle op) opParams input)
             (dev_update env (op_device op) (op_handle op) opParams input) in
      let result := update_hidlCb result (hidl_callback reply) in
      let rc := EC (hidl_status reply) in
      (* on success result->resultCode was set in the callback *)
      if negb (isOk rc) then ret (set_resultCode rc result) else ret result
  end.

(** The callback [hidlCb] of [finish]. *)
Definition finish_hidlCb (result : OperationResult)
    (cb : option (ErrorCode.t * AuthorizationSet * bytes)) : OperationResult :=
  match cb with
  | None => result
  | Some (r, outParams, output) =>
      {| resultCode := EC r; token := token result; handle := handle result;
         inputConsumed := inputConsumed result; data := output; outParams := outParams |}
  end.

(** [finish]: [result] is the caller's [OperationResult]. *)
Definition finish (tk : token_t) (params : AuthorizationSet) (signature entropy : bytes)
    (result : OperationResult) : Svc OperationResult :=
  if negb (checkAllowedOperationParams params)
  then ret (set_resultCode (EC ErrorCode.INVALID_ARGUMENT) result) else
  let* found := opmap (OperationMap.getOperation tk) in
  match found with
  | None => ret (set_resultCode (EC ErrorCode.INVALID_OPERATION_HANDLE) result)
  | Some op =>
      let opParams := params in
      let* (rc, opParams) := addOperationAuthTokenIfNeeded tk opParams in
      let result := set_resultCode rc result in
      if negb (isOk (resultCode result)) then ret result else
      let* (result, continue) :=
        if negb (Nat.eqb (length entropy) 0) then
          let* rc := addRngEntropy entropy in
          let result := set_resultCode rc result in
          ret (result, isOk (resultCode result))
        else ret (result, true) in
      if negb continue then ret result else
      (* Check that all key authorization policy requirements are met. *)
      let key_auths :=
        teeEnforced (op_characteristics op) ++ softwareEnforced (op_characteristics op) in
      let* rc :=
        policy (AuthorizeOperation env (op_purpose op) (op_keyid op) key_auths opParams
                  (op_handle op) false) in
      let result := set_resultCode (EC rc) result in
      if negb (isOk (resultCode result)) then ret result else
      let* reply :=
        hidl (Call_finish (op_device op) (op_handle op) opParams [] signature)
             (dev_finish env (op_device op) (op_handle op) opParams [] signature) in
      let result := finish_hidlCb result (hidl_callback reply) in
      let rc := EC (hidl_status reply) in
      (* Remove the operation regardless of the result *)
      do* opmap_update (OperationMap.removeOperation tk) in
      do* modify (fun w =>
            with_mAuthTokenTable (MarkCompleted env (op_handle op) (mAuthTokenTable w)) w) in
      if negb (isOk rc) then ret (set_resultCode rc result) else ret result
  end.

(** *** Auth tokens *)

Definition addAuthToken (c : Caller) (authTokenAsVector : bytes) : Svc Z :=
  if negb (checkBinderPermission c P_ADD_AUTH UID_SELF)
  then ret (ResponseCode.to_int32 ResponseCode.PERMISSION_DENIED) else
  if negb (Nat.eqb (length authTokenAsVector) sizeof_hw_auth_token_t)
  then ret (KeyStoreServiceReturnCode.to_int32 (EC ErrorCode.INVALID_ARGUMENT)) else
  let authToken := memcpy_hw_auth_token_t authTokenAsVector in
  if negb (version authToken =? 0)
  then ret (KeyStoreServiceReturnCode.to_int32 (EC ErrorCode.INVALID_ARGUMENT)) else
  let hidlAuthToken :=
    {| hat_challenge := challenge authToken;
       hat_userId := user_id authToken;
       hat_authenticatorId := authenticator_id authToken;
       hat_authenticatorType := authenticator_type authToken;
       hat_timestamp := timestamp authToken;
       hat_hmac := hmac authToken |} in
  do* modify (fun w =>
        with_mAuthTokenTable
          (AuthTokenTable.AddAuthenticationToken hidlAuthToken (mAuthTokenTable w)) w) in
  ret (ResponseCode.to_int32 ResponseCode.NO_ERROR).

(** *** Clearing a uid *)

(** The body of the [for] loop of [clear_uid] over [aliases]. *)
Fixpoint clear_uid_loop (targetUid : uid_t) (aliases : list string) : Svc unit :=
  match aliases with
  | [] => ret tt
  | name8 :: rest =>
      let filename := KeyStore.getKeyNameForUidWithDir name8 targetUid TYPE_ANY in
      let* skip :=
        if get_app_id targetUid =? AID_SYSTEM then
          let* (responseCode, keyBlob) :=
            keystore (fun ks =>
              KeyStore.get ks filename Blob_empty TYPE_ANY (get_user_id targetUid)) in
          match responseCode with
          | ResponseCode.NO_ERROR => ret (isCriticalToDeviceEncryption keyBlob)
          | _ => ret false
          end
        else ret false in
      if skip then
        (* Do not clear keys critical to device encryption under system uid. *)
        clear_uid_loop targetUid rest
      else
        do* keystore_update (fun ks =>
              KeyStore.del ks filename TYPE_ANY (get_user_id targetUid)) in
        (* del() will fail silently if no cached characteristics are present
           for this alias. *)
        let chr_filename :=
          KeyStore.getKeyNameForUidWithDir name8 targetUid TYPE_KEY_CHARACTERISTICS in
        do* keystore_update (fun ks =>
              KeyStore.del ks chr_filename TYPE_KEY_CHARACTERISTICS
                (get_user_id targetUid)) in
        clear_uid_loop targetUid rest
  end.

Definition clear_uid (c : Caller) (targetUid64 : Z) : Svc Z :=
  let targetUid := getEffectiveUid c (wrap_int32 targetUid64) in
  if negb (checkBinderPermissionSelfOrSystem c P_CLEAR_UID (wrap_int32 targetUid))
  then ret (ResponseCode.to_int32 ResponseCode.PERMISSION_DENIED) else
  do* modify (fun w =>
        with_mKeyStore (KeyStore.removeAllGrantsToUid (mKeyStore w) targetUid) w) in
  let* (rc, aliases) :=
    keystore (fun ks => KeyStore.list ks targetUid (get_user_id targetUid)) in
  match rc with
  | ResponseCode.NO_ERROR =>
      do* clear_uid_loop targetUid aliases in
      ret (ResponseCode.to_int32 ResponseCode.NO_ERROR)
  | _ => ret (ResponseCode.to_int32 ResponseCode.SYSTEM_ERROR)
  end.

(** *** The legacy surface *)

(** Modelled from the spec: the key-size constants of defaults.h are missing;
    the spec gives "RSA sizes (512..=4096, default 2048), EC sizes (224..=521,
    default 256), RSA default exponent 65537". *)
Definition EC_DEFAULT_KEY_SIZE : Z := 256.
Definition EC_MIN_KEY_SIZE : Z := 224.
Definition EC_MAX_KEY_SIZE : Z := 521.
Definition RSA_DEFAULT_KEY_SIZE : Z := 2048.
Definition RSA_MIN_KEY_SIZE : Z := 512.
Definition RSA_MAX_KEY_SIZE : Z := 4096.
Definition RSA_DEFAULT_EXPONENT : Z := 65537.

(** OpenSSL key types. *)
Definition EVP_PKEY_RSA : Z := 6.
Definition EVP_PKEY_EC : Z := 408.

(** [BN_get_word]: the value of the number when it fits in one [BN_ULONG]
    word of [BN_BITS2] bits, and the all-ones word otherwise. *)
Definition BN_get_word (n : Z) : Z :=
  if n <? 2 ^ BN_BITS2 env then n else 2 ^ BN_BITS2 env - 1.

(** The [switch (keyType)] of [generate]: [None] stands for the branches
    that set [SYSTEM_ERROR] and return; [args] are the [KeystoreArg]s, a null
    argument being [None]. *)
Definition generate_switch (keyType keySize : Z) (args : list (option bytes))
    (params : AuthorizationSet) : option AuthorizationSet :=
  if keyType =? EVP_PKEY_EC then
    let params := push_back params Tag.ALGORITHM Algorithm.EC in
    if keySize =? -1 then
      Some (push_back params Tag.KEY_SIZE EC_DEFAULT_KEY_SIZE)
    else if (keySize <? EC_MIN_KEY_SIZE) || (keySize >? EC_MAX_KEY_SIZE) then None
    else Some (push_back params Tag.KEY_SIZE keySize)
  else if keyType =? EVP_PKEY_RSA then
    let params := push_back params Tag.ALGORITHM Algorithm.RSA in
    let sized :=
      if keySize =? -1 then Some RSA_DEFAULT_KEY_SIZE
      else if (keySize <? RSA_MIN_KEY_SIZE) || (keySize >? RSA_MAX_KEY_SIZE) then None
      else Some keySize in
    match sized with
    | None => None
    | Some keySize =>
        let params := push_back params Tag.KEY_SIZE keySize in
        let exponent := RSA_DEFAULT_EXPONENT in
        match args with
        | _ :: _ :: _ => None                      (* invalid number of arguments *)
        | [expArg] =>
            match expArg with
            | Some expArg_data =>
                let pubExpBn := BN_bin2bn expArg_data in
                let exponent := BN_get_word pubExpBn in
                if exponent =? 4294967295 (* 0xFFFFFFFFL *) then None
                else Some (push_back params Tag.RSA_PUBLIC_EXPONENT exponent)
            | None => None                          (* public exponent not read *)
            end
        | [] => Some (push_back params Tag.RSA_PUBLIC_EXPONENT exponent)
        end
    end
  else None.                                        (* Unsupported key type *)

Definition generate (c : Caller) (name : string) (targetUid keyType keySize flags : Z)
    (args : list (option bytes)) : Svc Z :=
  let targetUid := wrap_int32 (getEffectiveUid c targetUid) in
  let* result :=
    checkBinderPermissionAndKeystoreState c P_INSERT targetUid
      (has_flag flags KEYSTORE_FLAG_ENCRYPTED) in
  if negb (isOk result) then ret (KeyStoreServiceReturnCode.to_int32 result) else
  let params := add_legacy_key_authorizations env keyType [] in
  match generate_switch keyType keySize args params with
  | None => ret (ResponseCode.to_int32 ResponseCode.SYSTEM_ERROR)
  | Some params =>
      let* (aidl_result, unused_characteristics) :=
        generateKey c name params [] targetUid flags in
      ret aidl_result
  end.

Definition import_key (c : Caller) (name : string) (data : bytes) (targetUid flags : Z)
  : Svc Z :=
  match d2i_PKCS8_PRIV_KEY_INFO env data with
  | None => ret (ResponseCode.to_int32 ResponseCode.SYSTEM_ERROR)
  | Some pkcs8 =>
      match EVP_PKCS82PKEY_type env pkcs8 with
      | None => ret (ResponseCode.to_int32 ResponseCode.SYSTEM_ERROR)
      | Some type =>
          let params := add_legacy_key_authorizations env type [] in
          let switch :=
            if type =? EVP_PKEY_RSA then Some (push_back params Tag.ALGORITHM Algorithm.RSA)
            else if type =? EVP_PKEY_EC then Some (push_back params Tag.ALGORITHM Algorithm.EC)
            else None in
          match switch with
          | None => ret (ResponseCode.to_int32 ResponseCode.SYSTEM_ERROR)
          | Some params =>
              let* (import_result, _) :=
                importKey c name params KeyFormat.PKCS8 data targetUid flags in
              (* import_result is only logged *)
              ret (ResponseCode.to_int32 ResponseCode.NO_ERROR)
          end
      end
  end.

(** Translate a result value to a legacy return value. All keystore errors
    are preserved and keymaster errors become SYSTEM_ERRORs *)
Definition translateResultToLegacyResult (result : Z) : KeyStoreServiceReturnCode.t :=
  if result >? 0 then result
  else RC ResponseCode.SYSTEM_ERROR.

Definition getKeyAlgoritmFromKeyCharacteristics (characteristics : KeyCharacteristics)
  : option Z :=
  match find (fun p => bool_decide (tag p = Tag.ALGORITHM)) (teeEnforced characteristics) with
  | Some p => Some (f_integer p)
  | None =>
      match find (fun p => bool_decide (tag p = Tag.ALGORITHM))
                 (softwareEnforced characteristics) with
      | Some p => Some (f_integer p)
      | None => None
      end
  end.

Definition addLegacyBeginParams (c : Caller) (name : string) (params : AuthorizationSet)
  : Svc AuthorizationSet :=
  (* All legacy keys are DIGEST_NONE/PAD_NONE. *)
  let params := push_back params Tag.DIGEST Digest.NONE in
  let params := push_back params Tag.PADDING PaddingMode.NONE in
  (* Look up the algorithm of the key.  The binder status of
     getKeyCharacteristics is always ok. *)
  let* (result, characteristics) :=
    getKeyCharacteristics c name [] [] UID_SELF (Some no_characteristics) in
  match characteristics with
  | None => ret params
  | Some characteristics =>
      match getKeyAlgoritmFromKeyCharacteristics characteristics with
      | None => ret params
      | Some algorithm => ret (push_back params Tag.ALGORITHM algorithm)
      end
  end.

(** The binder object created by [new BBinder] inside the service. *)
Definition new_BBinder : nat := 0%nat.

(** Conversion to [size_t], the unsigned machine word of [BN_BITS2] bits
    (32 on the 32-bit builds, 64 on the 64-bit ones). *)
Definition cast_size_t (z : Z) : Z := z mod 2 ^ BN_BITS2 env.

(** The [do ... while (consumed < data.size() && lastConsumed > 0)] loop of
    [doLegacySignVerify].  [consumed] and [lastConsumed] are [size_t]: the
    [int] count of the result is converted, and the sum wraps around.  The
    loop has no bound of its own, so [fuel] bounds its rounds: the result is
    [None] when the loop has not ended within [fuel] rounds, [Some (inl rc)]
    when the loop returns from the function, and
    [Some (inr (result, consumed, outBuffer))] when it ends. *)
Fixpoint doLegacySignVerify_loop (fuel : nat) (tk : token_t) (input : bytes) (out : bool)
    (consumed : Z) (outBuffer : bytes) (result : OperationResult)
  : Svc (option (KeyStoreServiceReturnCode.t + OperationResult * Z * bytes)) :=
  match fuel with
  | O => ret None
  | S fuel =>
      let data_view := drop (Z.to_nat consumed) input in
      let* result := update tk [] data_view result in
      if negb (KeyStoreServiceReturnCode.eqResponseCode (resultCode result)
                 ResponseCode.NO_ERROR)
      then
        ret (Some (inl (translateResultToLegacyResult
                          (KeyStoreServiceReturnCode.to_int32 (resultCode result)))))
      else
        let outBuffer := if out then outBuffer ++ data result else outBuffer in
        let lastConsumed := cast_size_t (inputConsumed result) in
        let consumed := cast_size_t (consumed + lastConsumed) in
        if (consumed <? Z.of_nat (length input)) && (lastConsumed >? 0)
        then doLegacySignVerify_loop fuel tk input out consumed outBuffer result
        else ret (Some (inr (result, consumed, outBuffer)))
  end.

(** [doLegacySignVerify]: [fuel] bounds the rounds of the update loop, and
    [out] tells whether the [out] pointer is non-null; the result is the
    return code and the bytes written to [*out], and [None] when the loop
    has not ended within [fuel] rounds. *)
Definition doLegacySignVerify (fuel : nat) (c : Caller) (name : string) (input : bytes)
    (out : bool) (signature : bytes) (purpose : Z)
  : Svc (option (KeyStoreServiceReturnCode.t * bytes)) :=
  let result := OperationResult_new in
  let* inArgs := addLegacyBeginParams c name [] in
  let appToken := new_BBinder in
  let* result := begin c appToken name purpose true inArgs [] UID_SELF result in
  if negb (isOk (resultCode result))
  then
    ret (Some (translateResultToLegacyResult
                 (KeyStoreServiceReturnCode.to_int32 (resultCode result)), []))
  else
    let inArgs : AuthorizationSet := [] in
    let tk := token result in
    let* looped := doLegacySignVerify_loop fuel tk input out 0 [] result in
    match looped with
    | None => ret None
    | Some (inl rc) => ret (Some (rc, []))
    | Some (inr (result, consumed, outBuffer)) =>
        if negb (consumed =? Z.of_nat (length input))
        then ret (Some (RC ResponseCode.SYSTEM_ERROR, []))
        else
          let* result := finish tk inArgs signature [] result in
          if negb (KeyStoreServiceReturnCode.eqResponseCode (resultCode result)
                     ResponseCode.NO_ERROR)
          then
            ret (Some (translateResultToLegacyResult
                         (KeyStoreServiceReturnCode.to_int32 (resultCode result)), []))
          else
            let outBuffer := if out then outBuffer ++ data result else outBuffer in
            ret (Some (RC ResponseCode.NO_ERROR, outBuffer))
    end.

(** [sign]: the result is the binder status and [*out], and [None] when the
    update loop has not ended within [fuel] rounds. *)
Definition sign (fuel : nat) (c : Caller) (name : string) (input : bytes)
  : Svc (option (Status * bytes)) :=
  if negb (checkBinderPermission c P_SIGN UID_SELF)
  then
    ret (Some (Status_fromServiceSpecificError
                 (ResponseCode.to_int32 ResponseCode.PERMISSION_DENIED), []))
  else
    let* answer := doLegacySignVerify fuel c name input true [] KeyPurpose.SIGN in
    match answer with
    | None => ret None
    | Some (res, legacy_out) =>
        ret (Some (Status_fromServiceSpecificError
                     (KeyStoreServiceReturnCode.to_int32 res), legacy_out))
    end.

(** [verify]: the result is the binder status and [*aidl_return], when set,
    and [None] when the update loop has not ended within [fuel] rounds. *)
Definition verify (fuel : nat) (c : Caller) (name : string) (input signature : bytes)
  : Svc (option (Status * option Z)) :=
  if negb (checkBinderPermission c P_VERIFY UID_SELF)
  then
    ret (Some (Status_fromServiceSpecificError
                 (ResponseCode.to_int32 ResponseCode.PERMISSION_DENIED), None))
  else
    let* answer :=
      doLegacySignVerify fuel c name input false signature KeyPurpose.VERIFY in
    match answer with
    | None => ret None
    | Some (res, _) => ret (Some (Status_ok, Some (KeyStoreServiceReturnCode.to_int32 res)))
    end.

(** [get_pubkey]: the result is the binder status and [*pubKey], when set. *)
Definition get_pubkey (c : Caller) (name : string) : Svc (Status * option bytes) :=
  let result := {| export_resultCode := EC ErrorCode.OK; exportData := [] |} in
  let* result := exportKey c name KeyFormat.X509 [] [] UID_SELF result in
  if negb (isOk (export_resultCode result))
  then
    ret (Status_fromServiceSpecificError
           (KeyStoreServiceReturnCode.to_int32 (export_resultCode result)), None)
  else ret (Status_ok, Some (exportData result)).

End KeyStoreService.

Arguments begin {X} env c appToken name purpose pruneable params entropy uid result _.
Arguments update {X} env tk params input result _.
Arguments finish {X} env tk params signature entropy result _.

(** ** A concrete environment

    A small instance of the collaborators, used to run the service on
    concrete inputs.  The external state counts the [begin] calls, so that
    every operation gets a fresh handle.  [perm] and [granted] are the
    answers of the permission oracle (a uid is always granted to itself),
    [bits] is the word size, [dev_error] is what the devices report for
    [generateKey], [importKey], [exportKey] and [update], and [begin_status]
    is the status of a [begin] call. *)
Definition demo_env (perm granted : bool) (bits : Z) (dev_error begin_status : ErrorCode.t)
  : Env nat :=
  {| has_permission := fun _ _ _ => perm;
     is_granted_to := fun callingUid targetUid => granted || (callingUid =? targetUid);
     add_legacy_key_authorizations :=
       fun _ params => push_back params Tag.NO_AUTH_REQUIRED 1;
     authToken2HidlVec := fun _ => [];
     d2i_PKCS8_PRIV_KEY_INFO := fun der => Some der;
     EVP_PKCS82PKEY_type := fun _ => Some EVP_PKEY_RSA;
     BN_BITS2 := bits;
     Serialize := fun _ => Some [];
     Deserialize := fun _ => [];
     Union := fun a b => a ++ b;
     Subtract := fun a _ => a;
     dev_addRngEntropy := fun _ x => (ErrorCode.OK, x);
     dev_generateKey := fun _ _ x =>
       (Build_HidlReturn ErrorCode.OK (Some (dev_error, [x01], no_characteristics)), x);
     dev_importKey := fun _ _ _ _ x =>
       (Build_HidlReturn ErrorCode.OK (Some (dev_error, [x02], no_characteristics)), x);
     dev_getKeyCharacteristics := fun _ _ _ _ x =>
       (Build_HidlReturn ErrorCode.OK (Some (ErrorCode.OK, no_characteristics)), x);
     dev_exportKey := fun _ _ _ _ _ x =>
       (Build_HidlReturn ErrorCode.OK (Some (dev_error, [x03])), x);
     dev_upgradeKey := fun _ _ _ x =>
       (Build_HidlReturn ErrorCode.OK (Some (ErrorCode.OK, [x04])), x);
     dev_begin := fun _ _ _ _ x =>
       (Build_HidlReturn begin_status (Some (ErrorCode.OK, [], Z.of_nat (S x))), S x);
     dev_update := fun _ _ _ input x =>
       (Build_HidlReturn ErrorCode.OK
          (Some (dev_error, Z.of_nat (length input), [], input)), x);
     dev_finish := fun _ _ _ _ _ x =>
       (Build_HidlReturn ErrorCode.OK (Some (ErrorCode.OK, [], [x05])), x);
     dev_abort := fun _ _ x => (ErrorCode.OK, x);
     CreateKeyId := fun _ => Some 7;
     AuthorizeOperation := fun _ _ _ _ _ _ x => (ErrorCode.OK, x);
     FindAuthorization := fun _ _ _ _ => (AuthTokenTable.AUTH_NOT_REQUIRED, None);
     MarkCompleted := fun _ table => table |}.

(** The environment in which every collaborator agrees and succeeds. *)
Definition happy_env : Env nat := demo_env true true 64 ErrorCode.OK ErrorCode.OK.

Definition demo_store (fs : gmap Path Blob) (state : State) : KeyStore.t :=
  {| KeyStore.files := fs; KeyStore.userState := fun _ => state; KeyStore.grants := [];
     KeyStore.hasFallbackDevice := true |}.

Definition demo_world (fs : gmap Path Blob) (state : State) : World nat :=
  Build_World (demo_store fs state) OperationMap.empty [] 0%nat [].

Definition key_path (uid : uid_t) (name : string) : Path :=
  KeyStore.getKeyNameForUidWithDir name uid TYPE_KEYMASTER_10.

Definition chr_path (uid : uid_t) (name : string) : Path :=
  KeyStore.getKeyNameForUidWithDir name uid TYPE_KEY_CHARACTERISTICS.

(** A system caller (user 0) and an application (user 0, app 10123). *)
Definition system_caller : Caller := {| callingUid := AID_SYSTEM; callingPid := 1 |}.
Definition app_caller : Caller := {| callingUid := 10123; callingPid := 2 |}.

(** A plain keymaster blob. *)
Definition plain_key : Blob := Blob_new [x0a] [] TYPE_KEYMASTER_10.

(** A store with one plain key ["k"] for the system uid and one for the app. *)
Definition plain_files : gmap Path Blob :=
  <[key_path AID_SYSTEM "k" := plain_key]> (<[key_path 10123 "k" := plain_key]> ∅).

(** [n] calls of [begin] for the key ["k"], each with its own binder. *)
Fixpoint begin_n (env : Env nat) (c : Caller) (pruneable : bool) (n : nat) (w : World nat)
  : World nat :=
  match n with
  | O => w
  | S n =>
      let w := begin_n env c pruneable n w in
      snd (begin env c (S n) "k" KeyPurpose.SIGN pruneable [] [] UID_SELF
             OperationResult_new w)
  end.

(** A world with one pruneable operation, token 1, begun by the app. *)
Definition one_operation_world (env : Env nat) : World nat :=
  begin_n env app_caller true 1 (demo_world plain_files STATE_NO_ERROR).

(** The devices report INVALID_ARGUMENT from their callbacks. *)
Definition failing_env : Env nat :=
  demo_env true true 64 ErrorCode.INVALID_ARGUMENT ErrorCode.OK.

(** Nobody holds a permission, and a uid is granted to itself only. *)
Definition strict_env : Env nat := demo_env false false 64 ErrorCode.OK ErrorCode.OK.

(** A build whose machine word has 32 bits. *)
Definition env32 : Env nat := demo_env true true 32 ErrorCode.OK ErrorCode.OK.

Definition auth_token_param : KeyParameter :=
  {| tag := Tag.AUTH_TOKEN; f_integer := 0; f_blob := [x01] |}.

(** An auth-bound key of the app in a store whose user is locked. *)
Definition auth_bound_key : Blob := setSuperEncrypted true plain_key.

Definition locked_world : World nat :=
  demo_world (<[key_path 10123 "auth" := auth_bound_key]> ∅) STATE_LOCKED.

(** A key that is critical to device encryption, stored once under the
    system uid and once under the uid of the app, each with its
    characteristics file. *)
Definition critical_key : Blob := setCriticalToDeviceEncryption true plain_key.
Definition chr_blob : Blob := Blob_new [] [] TYPE_KEY_CHARACTERISTICS.

Definition critical_world : World nat :=
  demo_world
    (<[key_path AID_SYSTEM "crit" := critical_key]>
       (<[chr_path AID_SYSTEM "crit" := chr_blob]>
          (<[key_path 10123 "crit" := critical_key]>
             (<[chr_path 10123 "crit" := chr_blob]> ∅))))
    STATE_NO_ERROR.

(** The big-endian byte string of 2^64, one bit more than a 64-bit word. *)
Definition two_pow_64 : bytes := [x01; x00; x00; x00; x00; x00; x00; x00; x00].

Definition operation_count {X} (w : World X) : nat :=
  OperationMap.getOperationCount (mOperationMap w).

(** The number of operations that pruning cannot evict. *)
Definition nonpruneable_count {X} (w : World X) : nat :=
  length (List.filter (fun op => negb (op_pruneable op))
            (OperationMap.operations (mOperationMap w))).

Definition has_operation {X} (tk : token_t) (w : World X) : bool :=
  match OperationMap.getOperation tk (mOperationMap w) with
  | Some _ => true
  | None => false
  end.

(** The tokens of the live operations, oldest first. *)
Definition operation_tokens {X} (w : World X) : list nat :=
  map op_token (OperationMap.operations (mOperationMap w)).

(** ** Vocabulary of the statements *)

(** The HIDL contract of a call that reports through a callback: when the
    transaction went through, the callback has been invoked. *)
Definition callback_invoked {A : Type} (reply : HidlReturn A) : Prop :=
  isOk (EC (hidl_status reply)) = true -> hidl_callback reply <> None.

(** The flags of a KeymasterBound blob as derived from the caller's key
    parameters and flags. *)
Definition flags_derived (params : AuthorizationSet) (flags : Z) (b : Blob) : Prop :=
  getType b = TYPE_KEYMASTER_10
  /\ isCriticalToDeviceEncryption b
     = has_flag flags KEYSTORE_FLAG_CRITICAL_TO_DEVICE_ENCRYPTION
  /\ isSuperEncrypted b
     = isAuthenticationBound params
       && negb (has_flag flags KEYSTORE_FLAG_CRITICAL_TO_DEVICE_ENCRYPTION).

(** The store holds a KeymasterBound blob for [name] under [uid] whose flags
    are the derived ones. *)
Definition key_persisted {X} (uid : uid_t) (name : string) (params : AuthorizationSet)
    (flags : Z) (w : World X) : Prop :=
  exists b, KeyStore.files (mKeyStore w) !! key_path uid name = Some b
            /\ flags_derived params flags b.

(** The blob that takes the place of [old] when its key material is
    upgraded: the four boolean flags of [old], and no info prefix. *)
Definition upgraded_blob (old : Blob) (upgradedKeyBlob : bytes) : Blob :=
  {| getValue := upgradedKeyBlob; getInfo := []; getType := TYPE_KEYMASTER_10;
     isEncrypted := isEncrypted old; isSuperEncrypted := isSuperEncrypted old;
     isFallback := isFallback old;
     isCriticalToDeviceEncryption := isCriticalToDeviceEncryption old |}.

(** The test by which [clear_uid] keeps a key file [b] of [targetUid]: the
    uid belongs to the system application, the blob reads back with
    NO_ERROR, and it is critical to device encryption. *)
Definition retained (ks : KeyStore.t) (targetUid : uid_t) (b : Blob) : bool :=
  (get_app_id targetUid =? AID_SYSTEM)
  && match KeyStore.read_gate (KeyStore.getState ks (get_user_id targetUid)) b with
     | ResponseCode.NO_ERROR => true
     | _ => false
     end
  && isCriticalToDeviceEncryption b.

(** Whether the loop of [clear_uid] skips the alias [name]. *)
Definition skipped (ks : KeyStore.t) (targetUid : uid_t) (name : string) : bool :=
  match KeyStore.files ks !! key_path targetUid name with
  | Some b => retained ks targetUid b
  | None => false
  end.

(** The effect of one iteration of the loop of [clear_uid] on the store. *)
Definition clear_alias (targetUid : uid_t) (ks : KeyStore.t) (name : string) : KeyStore.t :=
  if skipped ks targetUid name then ks
  else
    snd (KeyStore.del
           (snd (KeyStore.del ks (key_path targetUid name) TYPE_ANY (get_user_id targetUid)))
           (chr_path targetUid name) TYPE_KEY_CHARACTERISTICS (get_user_id targetUid)).

(** The stores that the service builds: no blob in them carries an info
    prefix, because every [Blob] that the service constructs is given a null
    info of length 0. *)
Definition no_info_prefix (ks : KeyStore.t) : Prop :=
  forall path b, KeyStore.files ks !! path = Some b -> getInfoLength b = 0%nat.

(** ** Further entry points of the service *)

(** The user-level operations of the [KeyStore] object (keystore.cpp), which
    the service calls but does not define: each one is a function of the
    store. *)
Record UserStore : Type := {
  resetUser : Z -> bool -> KeyStore.t -> KeyStore.t;
  initializeUser : string -> Z -> KeyStore.t -> ResponseCode.t * KeyStore.t;
  writeMasterKey : string -> Z -> KeyStore.t -> ResponseCode.t * KeyStore.t;
  readMasterKey : string -> Z -> KeyStore.t -> ResponseCode.t * KeyStore.t;
  copyMasterKey : Z -> Z -> KeyStore.t -> ResponseCode.t * KeyStore.t;
  lockUser : Z -> KeyStore.t -> KeyStore.t;
  isEmptyUser : KeyStore.t -> Z -> bool
}.

(** The tags of [isDeviceIdAttestationRequested], with their keymaster
    numbers (type BYTES, 710 to 717). *)
Definition ATTESTATION_ID_BRAND : Tag.t := Tag.OTHER 2415919814.
Definition ATTESTATION_ID_DEVICE : Tag.t := Tag.OTHER 2415919815.
Definition ATTESTATION_ID_PRODUCT : Tag.t := Tag.OTHER 2415919816.
Definition ATTESTATION_ID_SERIAL : Tag.t := Tag.OTHER 2415919817.
Definition ATTESTATION_ID_IMEI : Tag.t := Tag.OTHER 2415919818.
Definition ATTESTATION_ID_MEID : Tag.t := Tag.OTHER 2415919819.
Definition ATTESTATION_ID_MANUFACTURER : Tag.t := Tag.OTHER 2415919820.
Definition ATTESTATION_ID_MODEL : Tag.t := Tag.OTHER 2415919821.

Definition device_id_tag (t : Tag.t) : bool :=
  bool_decide (t = ATTESTATION_ID_BRAND) || bool_decide (t = ATTESTATION_ID_DEVICE)
  || bool_decide (t = ATTESTATION_ID_IMEI) || bool_decide (t = ATTESTATION_ID_MANUFACTURER)
  || bool_decide (t = ATTESTATION_ID_MEID) || bool_decide (t = ATTESTATION_ID_MODEL)
  || bool_decide (t = ATTESTATION_ID_PRODUCT) || bool_decide (t = ATTESTATION_ID_SERIAL).

Fixpoint isDeviceIdAttestationRequested (params : AuthorizationSet) : bool :=
  match params with
  | [] => false
  | param :: rest =>
      if device_id_tag (tag param) then true else isDeviceIdAttestationRequested rest
  end.

Definition KEY_ATTESTATION_APPLICATION_ID_MAX_SIZE : nat := 1024%nat.

(** [ErrorCode::ATTESTATION_APPLICATION_ID_MISSING] and
    [ErrorCode::CANNOT_ATTEST_IDS] of the keymaster HAL. *)
Definition ATTESTATION_APPLICATION_ID_MISSING : ErrorCode.t := -65.
Definition CANNOT_ATTEST_IDS : ErrorCode.t := -66.

(** What the system calls of [hadFactoryResetSinceIdRotation] answer:
    [stat] of the "timestamp" file ([Some st_ctime] when it returns 0, and
    [errno] otherwise), [time(NULL)], [creat] and [close]. *)
Record TimestampFile : Type := {
  stat_ctime : option Z;
  stat_errno : Z;
  time_now : Z;
  creat_fd : Z;
  close_result : Z
}.

Definition ENOENT : Z := 2.

(** Thirty days, in seconds *)
Definition kIdRotationPeriod : Z := 30 * 24 * 60 * 60.

(** [hadFactoryResetSinceIdRotation]: the pair that the call returns;
    [difftime] is taken on the integral values of [time_t].  The "timestamp"
    file that a successful [creat] leaves behind belongs to the file system
    and not to the [World] of the service: the statements about the
    attestation entry points speak of the answer and of the state of the
    service, not of that file. *)
Definition hadFactoryResetSinceIdRotation (sys : TimestampFile)
  : KeyStoreServiceReturnCode.t * bool :=
  match stat_ctime sys with
  | Some st_ctime =>
      let diff_secs := time_now sys - st_ctime in
      (RC ResponseCode.NO_ERROR, diff_secs <? kIdRotationPeriod)
  | None =>
      if negb (stat_errno sys =? ENOENT) then (RC ResponseCode.SYSTEM_ERROR, false)
      else if creat_fd sys <? 0 then (RC ResponseCode.SYSTEM_ERROR, false)
      else if negb (close_result sys =? 0) then (RC ResponseCode.SYSTEM_ERROR, false)
      else (RC ResponseCode.NO_ERROR, true)
  end.

(** [updateParamsForAttestation]: [asn1_attestation_id_result] is the answer
    of [security::gather_attestation_application_id(callingUid)], [None] when
    it is not ok. *)
Definition updateParamsForAttestation (sys : TimestampFile)
    (asn1_attestation_id_result : option bytes) (params : AuthorizationSet)
  : KeyStoreServiceReturnCode.t * AuthorizationSet :=
  let '(responseCode, factoryResetSinceIdRotation) := hadFactoryResetSinceIdRotation sys in
  if negb (isOk responseCode) then (responseCode, params) else
  let params :=
    if factoryResetSinceIdRotation then push_back params Tag.RESET_SINCE_ID_ROTATION 1
    else params in
  match asn1_attestation_id_result with
  | None => (EC ATTESTATION_APPLICATION_ID_MISSING, params)
  | Some asn1_attestation_id =>
      (* The attestation application ID cannot be longer than
         KEY_ATTESTATION_APPLICATION_ID_MAX_SIZE, so we truncate if too long. *)
      let asn1_attestation_id :=
        if (KEY_ATTESTATION_APPLICATION_ID_MAX_SIZE <? length asn1_attestation_id)%nat
        then take KEY_ATTESTATION_APPLICATION_ID_MAX_SIZE asn1_attestation_id
        else asn1_attestation_id in
      (RC ResponseCode.NO_ERROR,
       push_back_blob params Tag.ATTESTATION_APPLICATION_ID asn1_attestation_id)
  end.

(** The collaborators of the attestation entry points: the two keymaster
    calls that [Env] does not list, the gathering of the attestation
    application id, and the "permission" service, which answers [None] when
    it cannot be reached. *)
Record AttestEnv (X : Type) : Type := {
  dev_attestKey : km_device_t -> bytes -> AuthorizationSet -> X ->
    HidlReturn (ErrorCode.t * list bytes) * X;
  dev_deleteKey : km_device_t -> bytes -> X -> ErrorCode.t * X;
  gather_attestation_application_id : uid_t -> option bytes;
  checkPermission_READ_PRIVILEGED_PHONE_STATE : pid_t -> uid_t -> option bool
}.
Arguments dev_attestKey {X} _ _ _ _ _.
Arguments dev_deleteKey {X} _ _ _ _.
Arguments gather_attestation_application_id {X} _ _.
Arguments checkPermission_READ_PRIVILEGED_PHONE_STATE {X} _ _ _.

(** Tags and values of the temporary key of [attestDeviceIds]. *)
Definition EC_CURVE : Tag.t := Tag.OTHER 268435466.
Definition SHA_2_256 : Z := 4.
Definition P_256 : Z := 1.

Section FurtherEntryPoints.
Context {X : Type}.
Variable env : Env X.
Variable users : UserStore.
Variable attest : AttestEnv X.

Abbreviation Svc' := (M (World X)).

(** [checkBinderPermissionOrSelfTarget] *)
Definition checkBinderPermissionOrSelfTarget (c : Caller) (permission : perm_t)
    (targetUid : Z) : bool :=
  if getEffectiveUid c targetUid =? callingUid c then true
  else checkBinderPermission env c permission targetUid.

(** The loop of [binderDied] over the tokens of the dead binder. *)
Fixpoint binderDied_loop (operations : list token_t) : Svc' unit :=
  match operations with
  | [] => ret tt
  | tk :: rest =>
      let* unused_result := abort env tk in
      binderDied_loop rest
  end.

Definition binderDied (who : nat) : Svc' unit :=
  let* operations := opmap (OperationMap.getOperationsForToken who) in
  binderDied_loop operations.

Definition getState (c : Caller) (userId : Z) : Svc' Z :=
  if negb (checkBinderPermission env c P_GET_STATE UID_SELF)
  then ret (ResponseCode.to_int32 ResponseCode.PERMISSION_DENIED) else
  let* state := keystore (fun ks => KeyStore.getState ks userId) in
  ret (ResponseCode.to_int32 (State_to_ResponseCode state)).

(** [get]: [item] is the caller's vector; the result is the binder status
    and the vector as the call leaves it. *)
Definition get (c : Caller) (name : string) (uid : Z) (item : bytes)
  : Svc' (Status * bytes) :=
  let targetUid := getEffectiveUid c uid in
  if negb (checkBinderPermission env c P_GET (wrap_int32 targetUid))
  then
    ret (Status_fromServiceSpecificError
           (ResponseCode.to_int32 ResponseCode.PERMISSION_DENIED), item)
  else
    let* (rc, keyBlob) :=
      keystore (fun ks => KeyStore.getKeyForName ks Blob_empty name targetUid TYPE_GENERIC) in
    let rc := RC rc in
    if negb (isOk rc)
    then
      (* Return empty array if key is not found *)
      ret (Status_fromServiceSpecificError (KeyStoreServiceReturnCode.to_int32 rc), [])
    else ret (Status_ok, blob2hidlVec keyBlob).

Definition insert (c : Caller) (name : string) (item : bytes) (targetUid flags : Z)
  : Svc' Z :=
  let targetUid := wrap_int32 (getEffectiveUid c targetUid) in
  let* result :=
    checkBinderPermissionAndKeystoreState env c P_INSERT targetUid
      (has_flag flags KEYSTORE_FLAG_ENCRYPTED) in
  if negb (isOk result) then ret (KeyStoreServiceReturnCode.to_int32 result) else
  let filename :=
    KeyStore.getKeyNameForUidWithDir name (cast_uid_t targetUid) TYPE_GENERIC in
  let keyBlob := Blob_new item [] TYPE_GENERIC in
  let keyBlob := setEncrypted (has_flag flags KEYSTORE_FLAG_ENCRYPTED) keyBlob in
  let* rc :=
    keystore_update
      (fun ks => KeyStore.put ks filename keyBlob (get_user_id (cast_uid_t targetUid))) in
  ret (ResponseCode.to_int32 rc).

Definition del (c : Caller) (name : string) (targetUid : Z) : Svc' Z :=
  let targetUid := wrap_int32 (getEffectiveUid c targetUid) in
  if negb (checkBinderPermission env c P_DELETE targetUid)
  then ret (ResponseCode.to_int32 ResponseCode.PERMISSION_DENIED) else
  let* filename :=
    keystore (fun ks =>
      KeyStore.getBlobFileNameIfExists ks name (cast_uid_t targetUid) TYPE_ANY) in
  match filename with
  | None => ret (ResponseCode.to_int32 ResponseCode.KEY_NOT_FOUND)
  | Some filename =>
      let* result :=
        keystore_update (fun ks =>
          KeyStore.del ks filename TYPE_ANY (get_user_id (cast_uid_t targetUid))) in
      match result with
      | ResponseCode.NO_ERROR =>
          let* filename :=
            keystore (fun ks =>
              KeyStore.getBlobFileNameIfExists ks name (cast_uid_t targetUid)
                TYPE_KEY_CHARACTERISTICS) in
          match filename with
          | Some filename =>
              let* rc :=
                keystore_update (fun ks =>
                  KeyStore.del ks filename TYPE_KEY_CHARACTERISTICS
                    (get_user_id (cast_uid_t targetUid))) in
              ret (ResponseCode.to_int32 rc)
          | None => ret (ResponseCode.to_int32 ResponseCode.NO_ERROR)
          end
      | _ => ret (ResponseCode.to_int32 result)
      end
  end.

Definition exist (c : Caller) (name : string) (targetUid : Z) : Svc' Z :=
  let targetUid := wrap_int32 (getEffectiveUid c targetUid) in
  if negb (checkBinderPermission env c P_EXIST targetUid)
  then ret (ResponseCode.to_int32 ResponseCode.PERMISSION_DENIED) else
  let* filename :=
    keystore (fun ks =>
      KeyStore.getBlobFileNameIfExists ks name (cast_uid_t targetUid) TYPE_ANY) in
  match filename with
  | Some _ => ret (ResponseCode.to_int32 ResponseCode.NO_ERROR)
  | None => ret (ResponseCode.to_int32 ResponseCode.KEY_NOT_FOUND)
  end.

Definition reset (c : Caller) : Svc' Z :=
  if negb (checkBinderPermission env c P_RESET UID_SELF)
  then ret (ResponseCode.to_int32 ResponseCode.PERMISSION_DENIED) else
  do* keystore_update (fun ks =>
        (tt, resetUser users (get_user_id (callingUid c)) false ks)) in
  ret (ResponseCode.to_int32 ResponseCode.NO_ERROR).

Definition onUserPasswordChanged (c : Caller) (userId : Z) (password : string) : Svc' Z :=
  if negb (checkBinderPermission env c P_PASSWORD UID_SELF)
  then ret (ResponseCode.to_int32 ResponseCode.PERMISSION_DENIED) else
  (* Flush the auth token table to prevent stale tokens from sticking around. *)
  do* modify (fun w => with_mAuthTokenTable [] w) in
  if Nat.eqb (String.length password) 0 then
    do* keystore_update (fun ks => (tt, resetUser users userId true ks)) in
    ret (ResponseCode.to_int32 ResponseCode.NO_ERROR)
  else
    let* state := keystore (fun ks => KeyStore.getState ks userId) in
    match state with
    | STATE_UNINITIALIZED =>
        (* generate master key, encrypt with password, write to file *)
        let* rc := keystore_update (initializeUser users password userId) in
        ret (ResponseCode.to_int32 rc)
    | STATE_NO_ERROR =>
        (* rewrite master key with new password. *)
        let* rc := keystore_update (writeMasterKey users password userId) in
        ret (ResponseCode.to_int32 rc)
    | STATE_LOCKED =>
        do* keystore_update (fun ks => (tt, resetUser users userId true ks)) in
        let* rc := keystore_update (initializeUser users password userId) in
        ret (ResponseCode.to_int32 rc)
    end.

Definition onUserAdded (c : Caller) (userId parentId : Z) : Svc' Z :=
  if negb (checkBinderPermission env c P_USER_CHANGED UID_SELF)
  then ret (ResponseCode.to_int32 ResponseCode.PERMISSION_DENIED) else
  (* Unconditionally clear the keystore, just to be safe. *)
  do* keystore_update (fun ks => (tt, resetUser users userId false ks)) in
  if negb (parentId =? -1) then
    let* rc := keystore_update (copyMasterKey users parentId userId) in
    ret (ResponseCode.to_int32 rc)
  else ret (ResponseCode.to_int32 ResponseCode.NO_ERROR).

Definition onUserRemoved (c : Caller) (userId : Z) : Svc' Z :=
  if negb (checkBinderPermission env c P_USER_CHANGED UID_SELF)
  then ret (ResponseCode.to_int32 ResponseCode.PERMISSION_DENIED) else
  do* keystore_update (fun ks => (tt, resetUser users userId false ks)) in
  ret (ResponseCode.to_int32 ResponseCode.NO_ERROR).

Definition lock (c : Caller) (userId : Z) : Svc' Z :=
  if negb (checkBinderPermission env c P_LOCK UID_SELF)
  then ret (ResponseCode.to_int32 ResponseCode.PERMISSION_DENIED) else
  let* state := keystore (fun ks => KeyStore.getState ks userId) in
  match state with
  | STATE_NO_ERROR =>
      do* keystore_update (fun ks => (tt, lockUser users userId ks)) in
      ret (ResponseCode.to_int32 ResponseCode.NO_ERROR)
  | _ => ret (ResponseCode.to_int32 (State_to_ResponseCode state))
  end.

Definition unlock (c : Caller) (userId : Z) (pw : string) : Svc' Z :=
  if negb (checkBinderPermission env c P_UNLOCK UID_SELF)
  then ret (ResponseCode.to_int32 ResponseCode.PERMISSION_DENIED) else
  let* state := keystore (fun ks => KeyStore.getState ks userId) in
  match state with
  | STATE_LOCKED =>
      (* read master key, decrypt with password, initialize mMasterKey*. *)
      let* rc := keystore_update (readMasterKey users pw userId) in
      ret (ResponseCode.to_int32 rc)
  | _ => ret (ResponseCode.to_int32 (State_to_ResponseCode state))
  end.

Definition isEmpty (c : Caller) (userId : Z) : Svc' Z :=
  if negb (checkBinderPermission env c P_IS_EMPTY UID_SELF)
  then ret 0 else
  let* empty := keystore (fun ks => isEmptyUser users ks userId) in
  ret (if empty then 1 else 0).

(** [duplicate]: the destination counts as existing when the store has a
    file under its name. *)
Definition duplicate (c : Caller) (srcKey : string) (srcUid : Z) (destKey : string)
    (destUid : Z) : Svc' Z :=
  if negb (has_permission env (callingUid c) P_DUPLICATE (callingPid c))
  then ret (ResponseCode.to_int32 ResponseCode.PERMISSION_DENIED) else
  let* state := keystore (fun ks => KeyStore.getState ks (get_user_id (callingUid c))) in
  if negb (isKeystoreUnlocked state)
  then ret (ResponseCode.to_int32 (State_to_ResponseCode state)) else
  let self := (srcUid =? -1) || (cast_uid_t srcUid =? callingUid c) in
  if negb self && negb (is_granted_to env (callingUid c) (cast_uid_t srcUid))
  then ret (ResponseCode.to_int32 ResponseCode.PERMISSION_DENIED) else
  let srcUid := if self then wrap_int32 (callingUid c) else srcUid in
  let destUid := if destUid =? -1 then wrap_int32 (callingUid c) else destUid in
  if negb (srcUid =? destUid) && negb (cast_uid_t srcUid =? callingUid c)
  then ret (ResponseCode.to_int32 ResponseCode.PERMISSION_DENIED) else
  if negb (srcUid =? destUid)
     && negb (is_granted_to env (callingUid c) (cast_uid_t destUid))
  then ret (ResponseCode.to_int32 ResponseCode.PERMISSION_DENIED) else
  let sourceFile := KeyStore.getKeyNameForUidWithDir srcKey (cast_uid_t srcUid) TYPE_ANY in
  let targetFile := KeyStore.getKeyNameForUidWithDir destKey (cast_uid_t destUid) TYPE_ANY in
  let* target := keystore (fun ks => KeyStore.files ks !! targetFile) in
  match target with
  | Some _ => ret (ResponseCode.to_int32 ResponseCode.SYSTEM_ERROR)
  | None =>
      let* (responseCode, keyBlob) :=
        keystore (fun ks =>
          KeyStore.get ks sourceFile Blob_empty TYPE_ANY (get_user_id (cast_uid_t srcUid))) in
      match responseCode with
      | ResponseCode.NO_ERROR =>
          let* rc :=
            keystore_update (fun ks =>
              KeyStore.put ks targetFile keyBlob (get_user_id (cast_uid_t destUid))) in
          ret (ResponseCode.to_int32 rc)
      | _ => ret (ResponseCode.to_int32 responseCode)
      end
  end.

Definition isOperationAuthorized (tk : token_t) : Svc' bool :=
  let* found := opmap (OperationMap.getOperation tk) in
  match found with
  | None => ret false
  | Some _ =>
      let* authToken := opmap (OperationMap.getOperationAuthToken tk) in
      let ignored : AuthorizationSet := [] in
      let* (authResult, ignored) := addOperationAuthTokenIfNeeded env tk ignored in
      ret (isOk authResult)
  end.

(** A keymaster call that [DeviceCall] has no entry for: it moves the state
    of the devices and leaves the log as it is. *)
Definition unlogged {A} (oracle : X -> A * X) : Svc' A := policy oracle.

(** The callback of [attestKey], which [attestDeviceIds] uses as well. *)
Definition attest_hidlCb (error : KeyStoreServiceReturnCode.t) (chain : option (list bytes))
    (cb : option (ErrorCode.t * list bytes))
  : KeyStoreServiceReturnCode.t * option (list bytes) :=
  match cb with
  | None => (error, chain)
  | Some (r, certChain) =>
      if negb (isOk (EC r)) then (EC r, chain) else (EC r, Some certChain)
  end.

(** [attestKey]: [sys] is what the system calls on the "timestamp" file
    answer during the call; the result is [*aidl_return] and [*chain], when
    it was set. *)
Definition attestKey (c : Caller) (name : string) (params : AuthorizationSet)
    (sys : TimestampFile) : Svc' (Z * option (list bytes)) :=
  if negb (checkAllowedOperationParams params)
  then ret (KeyStoreServiceReturnCode.to_int32 (EC ErrorCode.INVALID_ARGUMENT), None) else
  if isDeviceIdAttestationRequested params
  then
    (* There is a dedicated attestDeviceIds() method for device ID attestation. *)
    ret (KeyStoreServiceReturnCode.to_int32 (EC ErrorCode.INVALID_ARGUMENT), None)
  else
    let '(rc, mutableParams) :=
      updateParamsForAttestation sys
        (gather_attestation_application_id attest (callingUid c)) params in
    if negb (isOk rc) then ret (KeyStoreServiceReturnCode.to_int32 rc, None) else
    let* (rc, keyBlob) :=
      keystore (fun ks =>
        KeyStore.getKeyForName ks Blob_empty name (callingUid c) TYPE_KEYMASTER_10) in
    let rc := RC rc in
    if negb (isOk rc) then ret (KeyStoreServiceReturnCode.to_int32 rc, None) else
    let hidlKey := blob2hidlVec keyBlob in
    let dev := KeyStore.getDevice keyBlob in
    let* reply := unlogged (dev_attestKey attest dev hidlKey mutableParams) in
    let '(error, chain) := attest_hidlCb (EC ErrorCode.OK) None (hidl_callback reply) in
    let rc := EC (hidl_status reply) in
    if negb (isOk rc) then ret (KeyStoreServiceReturnCode.to_int32 rc, chain) else
    ret (KeyStoreServiceReturnCode.to_int32 error, chain).

(** [attestDeviceIds] *)
Definition attestDeviceIds (c : Caller) (params : AuthorizationSet) (sys : TimestampFile)
  : Svc' (Z * option (list bytes)) :=
  if negb (checkAllowedOperationParams params)
  then ret (KeyStoreServiceReturnCode.to_int32 (EC ErrorCode.INVALID_ARGUMENT), None) else
  if negb (isDeviceIdAttestationRequested params)
  then
    (* There is an attestKey() method for attesting keys without device ID
       attestation. *)
    ret (KeyStoreServiceReturnCode.to_int32 (EC ErrorCode.INVALID_ARGUMENT), None)
  else
    match checkPermission_READ_PRIVILEGED_PHONE_STATE attest (callingPid c) (callingUid c) with
    | None => ret (KeyStoreServiceReturnCode.to_int32 (EC CANNOT_ATTEST_IDS), None)
    | Some false => ret (KeyStoreServiceReturnCode.to_int32 (EC CANNOT_ATTEST_IDS), None)
    | Some true =>
        let '(rc, mutableParams) :=
          updateParamsForAttestation sys
            (gather_attestation_application_id attest (callingUid c)) params in
        if negb (isOk rc) then ret (KeyStoreServiceReturnCode.to_int32 rc, None) else
        (* Generate temporary key. *)
        let dev := PrimaryDevice in
        let keyCharacteristics : AuthorizationSet := [] in
        let keyCharacteristics := push_back keyCharacteristics Tag.PURPOSE KeyPurpose.VERIFY in
        let keyCharacteristics := push_back keyCharacteristics Tag.ALGORITHM Algorithm.EC in
        let keyCharacteristics := push_back keyCharacteristics Tag.DIGEST SHA_2_256 in
        let keyCharacteristics := push_back keyCharacteristics Tag.NO_AUTH_REQUIRED 1 in
        let keyCharacteristics := push_back keyCharacteristics EC_CURVE P_256 in
        let* reply :=
          hidl (Call_generateKey dev keyCharacteristics)
               (dev_generateKey env dev keyCharacteristics) in
        let '(error, hidlKey) :=
          match hidl_callback reply with
          | None => (EC ErrorCode.OK, [])
          | Some (r, hidlKeyBlob, _) =>
              if negb (isOk (EC r)) then (EC r, []) else (EC r, hidlKeyBlob)
          end in
        let rc := EC (hidl_status reply) in
        if negb (isOk rc) then ret (KeyStoreServiceReturnCode.to_int32 rc, None) else
        if negb (isOk error) then ret (KeyStoreServiceReturnCode.to_int32 error, None) else
        (* Attest key and device IDs. *)
        let* reply := unlogged (dev_attestKey attest dev hidlKey mutableParams) in
        let '(error, chain) := attest_hidlCb error None (hidl_callback reply) in
        let attestationRc := EC (hidl_status reply) in
        (* Delete temporary key. *)
        let* deletionRc := unlogged (dev_deleteKey attest dev hidlKey) in
        let deletionRc := EC deletionRc in
        if negb (isOk attestationRc)
        then ret (KeyStoreServiceReturnCode.to_int32 attestationRc, chain) else
        if negb (isOk error) then ret (KeyStoreServiceReturnCode.to_int32 error, chain) else
        ret (KeyStoreServiceReturnCode.to_int32 deletionRc, chain)
    end.

End FurtherEntryPoints.

(** ** Vocabulary and instances for the further entry points *)

(** Pruning keeps the token counter and creates no operation. *)
Definition pruned_from {X} (w w' : World X) : Prop :=
  OperationMap.next_token (mOperationMap w') = OperationMap.next_token (mOperationMap w)
  /\ forall o, In o (OperationMap.operations (mOperationMap w'))
               -> In o (OperationMap.operations (mOperationMap w)).

(** What [begin] leaves behind: either nothing new, or one operation at
    the end of the map, under the next token and with the handle that the
    result reports. *)
Definition registered {X} (appToken : nat) (purpose : Z) (pruneable : bool)
    (token0 : token_t) (w : World X) (r : OperationResult) (w' : World X) : Prop :=
  (token r = token0 /\ pruned_from w w')
  \/ (token r = Some (OperationMap.next_token (mOperationMap w))
      /\ OperationMap.next_token (mOperationMap w')
         = S (OperationMap.next_token (mOperationMap w))
      /\ exists op,
           last (OperationMap.operations (mOperationMap w')) = Some op
           /\ op_token op = OperationMap.next_token (mOperationMap w)
           /\ op_appToken op = appToken /\ op_purpose op = purpose
           /\ op_pruneable op = pruneable /\ op_handle op = handle r).

(** A store in which the state of one user is replaced. *)
Definition set_user_state (userId : Z) (s : State) (ks : KeyStore.t) : KeyStore.t :=
  {| KeyStore.files := KeyStore.files ks;
     KeyStore.userState := fun u => if u =? userId then s else KeyStore.userState ks u;
     KeyStore.grants := KeyStore.grants ks;
     KeyStore.hasFallbackDevice := KeyStore.hasFallbackDevice ks |}.

(** A small instance of the user-level operations: the password of every
    user is ["secret"]. *)
Definition demo_users : UserStore :=
  {| resetUser := fun userId _ ks => set_user_state userId STATE_UNINITIALIZED ks;
     initializeUser := fun _ userId ks =>
       (ResponseCode.NO_ERROR, set_user_state userId STATE_NO_ERROR ks);
     writeMasterKey := fun _ _ ks => (ResponseCode.NO_ERROR, ks);
     readMasterKey := fun pw userId ks =>
       if String.eqb pw "secret"
       then (ResponseCode.NO_ERROR, set_user_state userId STATE_NO_ERROR ks)
       else (ResponseCode.WRONG_PASSWORD_0, ks);
     copyMasterKey := fun src dst ks =>
       (ResponseCode.NO_ERROR, set_user_state dst (KeyStore.getState ks src) ks);
     lockUser := fun userId ks => set_user_state userId STATE_LOCKED ks;
     isEmptyUser := fun ks _ => bool_decide (KeyStore.files ks = ∅) |}.

(** A small instance of the attestation collaborators: the device answers
    with a chain of one certificate, [phone_state] is the answer of the
    "permission" service, and [application_id] is the attestation
    application id of every uid. *)
Definition demo_attest (phone_state : option bool) (application_id : option bytes)
  : AttestEnv nat :=
  {| dev_attestKey := fun _ _ _ x =>
       (Build_HidlReturn ErrorCode.OK (Some (ErrorCode.OK, [[x30]])), x);
     dev_deleteKey := fun _ _ x => (ErrorCode.OK, x);
     gather_attestation_application_id := fun _ => application_id;
     checkPermission_READ_PRIVILEGED_PHONE_STATE := fun _ _ => phone_state |}.

(** The first attestation after a factory reset: there is no "timestamp"
    file yet, and it can be created. *)
Definition fresh_install : TimestampFile :=
  {| stat_ctime := None; stat_errno := ENOENT; time_now := 1000; creat_fd := 3;
     close_result := 0 |}.

(** Three pruneable operations of the app, with the binders 1, 2 and 3. *)
Definition three_operations_world : World nat :=
  begin_n happy_env app_caller true 3 (demo_world plain_files STATE_NO_ERROR).

(** A device-id tag among the parameters of an attestation. *)
Definition device_id_param : KeyParameter :=
  {| tag := ATTESTATION_ID_SERIAL; f_integer := 0; f_blob := [x01] |}.

(** The environment [happy_env] with an auth token table that answers with
    its oldest token, and with AUTH_TOKEN_NOT_FOUND when it is empty. *)
Definition auth_env : Env nat :=
  {| has_permission := has_permission happy_env;
     is_granted_to := is_granted_to happy_env;
     add_legacy_key_authorizations := add_legacy_key_authorizations happy_env;
     authToken2HidlVec := authToken2HidlVec happy_env;
     d2i_PKCS8_PRIV_KEY_INFO := d2i_PKCS8_PRIV_KEY_INFO happy_env;
     EVP_PKCS82PKEY_type := EVP_PKCS82PKEY_type happy_env;
     BN_BITS2 := BN_BITS2 happy_env;
     Serialize := Serialize happy_env;
     Deserialize := Deserialize happy_env;
     Union := Union happy_env;
     Subtract := Subtract happy_env;
     dev_addRngEntropy := dev_addRngEntropy happy_env;
     dev_generateKey := dev_generateKey happy_env;
     dev_importKey := dev_importKey happy_env;
     dev_getKeyCharacteristics := dev_getKeyCharacteristics happy_env;
     dev_exportKey := dev_exportKey happy_env;
     dev_upgradeKey := dev_upgradeKey happy_env;
     dev_begin := dev_begin happy_env;
     dev_update := dev_update happy_env;
     dev_finish := dev_finish happy_env;
     dev_abort := dev_abort happy_env;
     CreateKeyId := CreateKeyId happy_env;
     AuthorizeOperation := AuthorizeOperation happy_env;
     FindAuthorization := fun table _ _ _ =>
       match table with
       | [] => (AuthTokenTable.AUTH_TOKEN_NOT_FOUND, None)
       | authToken :: _ => (AuthTokenTable.OK, Some authToken)
       end;
     MarkCompleted := MarkCompleted happy_env |}.

(** A world whose auth token table holds one token, handed in by the
    system caller. *)
Definition authenticated_world : World nat :=
  snd (addAuthToken auth_env system_caller (repeat x00 69)
         (demo_world plain_files STATE_NO_ERROR)).

(** One operation of the app, begun while the table held the token. *)
Definition authorized_operation_world : World nat :=
  begin_n auth_env app_caller true 1 authenticated_world.

(** The contract of the HAL for [update]: a device reports a count of
    consumed input between 0 and the length of the input it was given. *)
Definition consumed_within_input {X} (env : Env X) : Prop :=
  forall dev handle params input x,
    match hidl_callback (fst (dev_update env dev handle params input x)) with
    | Some (_, inputConsumed, _, _) => 0 <= inputConsumed <= Z.of_nat (length input)
    | None => True
    end.

(** The environment [happy_env] with a device that reports, for the first
    four calls of [update] after one [begin], the counts 1 and 0xFFFFFFFF in
    turn, and after that the length of the input. *)
Definition wrapping_env : Env nat :=
  {| has_permission := has_permission happy_env;
     is_granted_to := is_granted_to happy_env;
     add_legacy_key_authorizations := add_legacy_key_authorizations happy_env;
     authToken2HidlVec := authToken2HidlVec happy_env;
     d2i_PKCS8_PRIV_KEY_INFO := d2i_PKCS8_PRIV_KEY_INFO happy_env;
     EVP_PKCS82PKEY_type := EVP_PKCS82PKEY_type happy_env;
     BN_BITS2 := BN_BITS2 happy_env;
     Serialize := Serialize happy_env;
     Deserialize := Deserialize happy_env;
     Union := Union happy_env;
     Subtract := Subtract happy_env;
     dev_addRngEntropy := dev_addRngEntropy happy_env;
     dev_generateKey := dev_generateKey happy_env;
     dev_importKey := dev_importKey happy_env;
     dev_getKeyCharacteristics := dev_getKeyCharacteristics happy_env;
     dev_exportKey := dev_exportKey happy_env;
     dev_upgradeKey := dev_upgradeKey happy_env;
     dev_begin := dev_begin happy_env;
     dev_update := fun _ _ _ input x =>
       if (x <? 5)%nat
       then (Build_HidlReturn ErrorCode.OK
               (Some (ErrorCode.OK, if Nat.odd x then 1 else 4294967295, [], [])), S x)
       else (Build_HidlReturn ErrorCode.OK
               (Some (ErrorCode.OK, Z.of_nat (length input), [], input)), x);
     dev_finish := dev_finish happy_env;
     dev_abort := dev_abort happy_env;
     CreateKeyId := CreateKeyId happy_env;
     AuthorizeOperation := AuthorizeOperation happy_env;
     FindAuthorization := FindAuthorization happy_env;
     MarkCompleted := MarkCompleted happy_env |}.

(** The environment [happy_env] with a device that has room for one
    operation: the state is the number of operations that the device holds,
    [begin] is answered, through its callback, with TOO_MANY_OPERATIONS when
    the device is full, and [abort] frees a place. *)
Definition small_device_env : Env nat :=
  {| has_permission := has_permission happy_env;
     is_granted_to := is_granted_to happy_env;
     add_legacy_key_authorizations := add_legacy_key_authorizations happy_env;
     authToken2HidlVec := authToken2HidlVec happy_env;
     d2i_PKCS8_PRIV_KEY_INFO := d2i_PKCS8_PRIV_KEY_INFO happy_env;
     EVP_PKCS82PKEY_type := EVP_PKCS82PKEY_type happy_env;
     BN_BITS2 := BN_BITS2 happy_env;
     Serialize := Serialize happy_env;
     Deserialize := Deserialize happy_env;
     Union := Union happy_env;
     Subtract := Subtract happy_env;
     dev_addRngEntropy := dev_addRngEntropy happy_env;
     dev_generateKey := dev_generateKey happy_env;
     dev_importKey := dev_importKey happy_env;
     dev_getKeyCharacteristics := dev_getKeyCharacteristics happy_env;
     dev_exportKey := dev_exportKey happy_env;
     dev_upgradeKey := dev_upgradeKey happy_env;
     dev_begin := fun _ _ _ _ x =>
       if (x <? 1)%nat
       then (Build_HidlReturn ErrorCode.OK (Some (ErrorCode.OK, [], 7)), S x)
       else (Build_HidlReturn ErrorCode.OK
               (Some (ErrorCode.TOO_MANY_OPERATIONS, [], 0)), x);
     dev_update := dev_update happy_env;
     dev_finish := dev_finish happy_env;
     dev_abort := fun _ _ x => (ErrorCode.OK, Nat.pred x);
     CreateKeyId := CreateKeyId happy_env;
     AuthorizeOperation := AuthorizeOperation happy_env;
     FindAuthorization := FindAuthorization happy_env;
     MarkCompleted := MarkCompleted happy_env |}.

(** * Properties *)

(** ** Proof tools *)

(** One step of symbolic execution of a run [m w = (a, w')] in a hypothesis. *)
Ltac step_in H :=
  cbv beta in H;
  lazymatch type of H with
  | bind ?m ?k ?w = _ =>
      let a := fresh "a" in
      let w1 := fresh "w" in
      let E := fresh "E" in
      unfold bind at 1 in H; destruct (m w) as [a w1] eqn:E
  | ret _ _ = _ => unfold ret in H
  | (if ?b then _ else _) _ = _ => let E := fresh "E" in destruct b eqn:E
  | (match ?x with _ => _ end) _ = _ => let E := fresh "E" in destruct x eqn:E
  end.

Lemma to_int32_NO_ERROR (a : KeyStoreServiceReturnCode.t) :
  KeyStoreServiceReturnCode.to_int32 a = ResponseCode.to_int32 ResponseCode.NO_ERROR ->
  isOk a = true.
Proof.
  unfold KeyStoreServiceReturnCode.to_int32, KeyStoreServiceReturnCode.isOk. cbn.
  destruct (Z.eqb_spec a 0) as [->|Hne]; [reflexivity|].
  intros ->. reflexivity.
Qed.

Section Runs.
Context {X : Type}.

Lemma hidl_run {A} (call : DeviceCall) (oracle : X -> A * X) (w : World X) :
  hidl call oracle w
  = (fst (oracle (external w)),
     Build_World (mKeyStore w) (mOperationMap w) (mAuthTokenTable w)
       (snd (oracle (external w))) (calls w ++ [call])).
Proof. unfold hidl. destruct (oracle (external w)); reflexivity. Qed.

Lemma bind_run {A B} (m : M (World X) A) (k : A -> M (World X) B) (w : World X) :
  bind m k w = k (fst (m w)) (snd (m w)).
Proof. unfold bind. destruct (m w); reflexivity. Qed.

Lemma hidl_reply {A} (call : DeviceCall) (oracle : X -> A * X) (w w' : World X) (a : A) :
  hidl call oracle w = (a, w') -> a = fst (oracle (external w)).
Proof. rewrite hidl_run. intros H. injection H as <- _. reflexivity. Qed.

Lemma policy_run {A} (oracle : X -> A * X) (w : World X) :
  policy oracle w
  = (fst (oracle (external w)),
     Build_World (mKeyStore w) (mOperationMap w) (mAuthTokenTable w)
       (snd (oracle (external w))) (calls w)).
Proof. unfold policy. destruct (oracle (external w)); reflexivity. Qed.

Lemma opmap_update_run {A} (g : OperationMap.t -> A * OperationMap.t) (w : World X) :
  opmap_update g w
  = (fst (g (mOperationMap w)), with_mOperationMap (snd (g (mOperationMap w))) w).
Proof. unfold opmap_update. destruct (g (mOperationMap w)); reflexivity. Qed.

Lemma keystore_update_run {A} (g : KeyStore.t -> A * KeyStore.t) (w : World X) :
  keystore_update g w
  = (fst (g (mKeyStore w)), with_mKeyStore (snd (g (mKeyStore w))) w).
Proof. unfold keystore_update. destruct (g (mKeyStore w)); reflexivity. Qed.

End Runs.

(** Symbolic execution of a run [m w = (a, w')] recorded in [H]: binds are
    split into their parts, conditionals are decided case by case, and
    primitive computations are replaced by their results. *)
Ltac exec H :=
  cbv beta in H;
  lazymatch type of H with
  | bind ?m ?k ?w = _ =>
      let a := fresh "a" in
      let w1 := fresh "w" in
      let E := fresh "E" in
      unfold bind at 1 in H; destruct (m w) as [a w1] eqn:E; exec E; exec H
  | (if ?b then _ else _) _ = _ => let E := fresh "E" in destruct b eqn:E; exec H
  | (match ?x with _ => _ end) _ = _ => let E := fresh "E" in destruct x eqn:E; exec H
  | opmap _ _ = _ => unfold opmap, gets in H; inversion H; subst; clear H
  | keystore _ _ = _ => unfold keystore, gets in H; inversion H; subst; clear H
  | gets _ _ = _ => unfold gets in H; inversion H; subst; clear H
  | modify _ _ = _ => unfold modify in H; inversion H; subst; clear H
  | ret _ _ = _ => unfold ret in H; inversion H; subst; clear H
  | hidl _ _ _ = _ => rewrite hidl_run in H; inversion H; subst; clear H
  | policy _ _ = _ => rewrite policy_run in H; inversion H; subst; clear H
  | opmap_update _ _ = _ => rewrite opmap_update_run in H; inversion H; subst; clear H
  | keystore_update _ _ = _ =>
      rewrite keystore_update_run in H; inversion H; subst; clear H
  | _ => idtac
  end.

(** ** Restricted tags in operation parameters *)

Lemma existsb_tag_cons (param : KeyParameter) (rest : AuthorizationSet) (t : Tag.t) :
  containsTag (param :: rest) t = bool_decide (tag param = t) || containsTag rest t.
Proof. reflexivity. Qed.

(** [checkAllowedOperationParams] fails exactly on the parameter lists that
    carry one of the three keystore-owned tags. *)
Lemma checkAllowedOperationParams_false (params : AuthorizationSet) :
  checkAllowedOperationParams params = false <->
  containsTag params Tag.AUTH_TOKEN
  || containsTag params Tag.ATTESTATION_APPLICATION_ID
  || containsTag params Tag.RESET_SINCE_ID_ROTATION = true.
Proof.
  induction params as [|param rest IH].
  - simpl. split; discriminate.
  - rewrite !existsb_tag_cons. simpl checkAllowedOperationParams.
    destruct (tag param) eqn:Htag; simpl restricted_tag; cbv iota;
      try (rewrite IH; rewrite !bool_decide_eq_false_2 by discriminate;
           simpl; reflexivity).
    + rewrite (bool_decide_eq_true_2 (Tag.AUTH_TOKEN = Tag.AUTH_TOKEN)) by reflexivity.
      simpl. split; reflexivity.
    + rewrite (bool_decide_eq_true_2
                 (Tag.ATTESTATION_APPLICATION_ID = Tag.ATTESTATION_APPLICATION_ID))
        by reflexivity.
      rewrite orb_true_r. simpl. split; reflexivity.
    + rewrite (bool_decide_eq_true_2
                 (Tag.RESET_SINCE_ID_ROTATION = Tag.RESET_SINCE_ID_ROTATION))
        by reflexivity.
      rewrite !orb_true_r. split; reflexivity.
Qed.

Section EntryPoints.
Context {X : Type} (env : Env X).

(** C4, as amended.  A parameter list that contains AUTH_TOKEN,
    ATTESTATION_APPLICATION_ID or RESET_SINCE_ID_ROTATION makes [update] and
    [finish] return INVALID_ARGUMENT and leave the world as it was: no
    operation is created, removed or modified and no keymaster call is
    logged.  [begin] does the same once the caller has passed the grant check
    and the non-pruneable privilege check; a caller who fails one of them
    gets PERMISSION_DENIED, again with the world untouched. *)
Theorem restricted_params_rejected (params : AuthorizationSet) :
  containsTag params Tag.AUTH_TOKEN
  || containsTag params Tag.ATTESTATION_APPLICATION_ID
  || containsTag params Tag.RESET_SINCE_ID_ROTATION = true ->
  (forall tk input result w,
      update env tk params input result w
      = (set_resultCode (EC ErrorCode.INVALID_ARGUMENT) result, w))
  /\ (forall tk signature entropy result w,
      finish env tk params signature entropy result w
      = (set_resultCode (EC ErrorCode.INVALID_ARGUMENT) result, w))
  /\ (forall c appToken name purpose pruneable entropy uid result w,
      is_granted_to env (callingUid c) (getEffectiveUid c uid) = true ->
      pruneable = true \/ get_app_id (callingUid c) = AID_SYSTEM ->
      begin env c appToken name purpose pruneable params entropy uid result w
      = (set_resultCode (EC ErrorCode.INVALID_ARGUMENT) result, w))
  /\ (forall c appToken name purpose pruneable entropy uid result w,
      is_granted_to env (callingUid c) (getEffectiveUid c uid) = false
      \/ (pruneable = false /\ get_app_id (callingUid c) <> AID_SYSTEM) ->
      begin env c appToken name purpose pruneable params entropy uid result w
      = (set_resultCode (RC ResponseCode.PERMISSION_DENIED) result, w)).
Proof.
  intros Htags. apply checkAllowedOperationParams_false in Htags.
  repeat split.
  - intros. unfold update. rewrite Htags. reflexivity.
  - intros. unfold finish. rewrite Htags. reflexivity.
  - intros c appToken name purpose pruneable entropy uid result w Hgrant Hprune.
    unfold begin. rewrite Hgrant, Htags. simpl.
    destruct Hprune as [-> | ->]; [reflexivity |].
    rewrite Z.eqb_refl, andb_false_r. reflexivity.
  - intros c appToken name purpose pruneable entropy uid result w Hdenied.
    unfold begin.
    destruct Hdenied as [-> | [-> Hsys]]; [reflexivity |].
    apply Z.eqb_neq in Hsys. rewrite Hsys. simpl.
    destruct (is_granted_to env _ _); reflexivity.
Qed.

(** ** Locked user and SuperEncrypted blob *)

(** C3.  When [begin] gets as far as loading the KeymasterBound blob (the
    grant check, the non-pruneable check and the parameter check have
    passed), the load reports LOCKED and the blob that came back is
    SuperEncrypted, the caller receives KEY_USER_NOT_AUTHENTICATED and
    nothing else happens. *)
Theorem begin_locked_superencrypted (c : Caller) (appToken : nat) (name : string)
    (purpose : Z) (pruneable : bool) (params : AuthorizationSet) (entropy : bytes)
    (uid : Z) (result : OperationResult) (w : World X) (keyBlob : Blob) :
  is_granted_to env (callingUid c) (getEffectiveUid c uid) = true ->
  pruneable = true \/ get_app_id (callingUid c) = AID_SYSTEM ->
  checkAllowedOperationParams params = true ->
  KeyStore.getKeyForName (mKeyStore w) Blob_empty name (getEffectiveUid c uid)
    TYPE_KEYMASTER_10 = (ResponseCode.LOCKED, keyBlob) ->
  isSuperEncrypted keyBlob = true ->
  begin env c appToken name purpose pruneable params entropy uid result w
  = (set_resultCode (EC ErrorCode.KEY_USER_NOT_AUTHENTICATED) result, w).
Proof.
  intros Hgrant Hprune Hparams Hload Hsuper.
  unfold begin. cbv zeta. rewrite Hgrant, Hparams. simpl negb. cbv iota.
  assert (Hgate : negb pruneable && negb (get_app_id (callingUid c) =? AID_SYSTEM) = false).
  { destruct Hprune as [-> | ->]; [reflexivity |].
    rewrite Z.eqb_refl, andb_false_r. reflexivity. }
  rewrite Hgate. cbn [negb].
  unfold bind, keystore, gets. cbv beta. rewrite Hload, Hsuper. reflexivity.
Qed.

(** ** Adding an auth token *)

(** C10, as amended.  A caller without the P_ADD_AUTH permission gets
    PERMISSION_DENIED whatever the vector is.  For a caller who holds it,
    [addAuthToken] appends the decoded token to the table and returns
    NO_ERROR exactly when the vector has the size of [hw_auth_token_t] and
    the version byte is 0; in every other case it returns INVALID_ARGUMENT.
    Whenever the result is not NO_ERROR the world, and so the table, is
    unchanged. *)
Theorem addAuthToken_spec (c : Caller) (authTokenAsVector : bytes) (w : World X) :
  let '(r, w') := addAuthToken env c authTokenAsVector w in
  let tok := memcpy_hw_auth_token_t authTokenAsVector in
  let well_formed :=
    Nat.eqb (length authTokenAsVector) sizeof_hw_auth_token_t && (version tok =? 0) in
  (checkBinderPermission env c P_ADD_AUTH UID_SELF = false ->
     r = ResponseCode.to_int32 ResponseCode.PERMISSION_DENIED /\ w' = w)
  /\ (checkBinderPermission env c P_ADD_AUTH UID_SELF = true -> well_formed = true ->
     r = ResponseCode.to_int32 ResponseCode.NO_ERROR
     /\ w' = with_mAuthTokenTable
               (mAuthTokenTable w ++
                  [{| hat_challenge := challenge tok; hat_userId := user_id tok;
                      hat_authenticatorId := authenticator_id tok;
                      hat_authenticatorType := authenticator_type tok;
                      hat_timestamp := timestamp tok; hat_hmac := hmac tok |}]) w)
  /\ (checkBinderPermission env c P_ADD_AUTH UID_SELF = true -> well_formed = false ->
     r = KeyStoreServiceReturnCode.to_int32 (EC ErrorCode.INVALID_ARGUMENT) /\ w' = w).
Proof.
  unfold addAuthToken.
  destruct (checkBinderPermission env c P_ADD_AUTH UID_SELF); cbn [negb].
  - destruct (Nat.eqb (length authTokenAsVector) sizeof_hw_auth_token_t); cbn [negb andb].
    + destruct (version (memcpy_hw_auth_token_t authTokenAsVector) =? 0); cbn [negb].
      * unfold bind, modify, ret, AuthTokenTable.AddAuthenticationToken.
        repeat split; intros; try discriminate; reflexivity.
      * unfold ret. repeat split; intros; try discriminate; reflexivity.
    + unfold ret. repeat split; intros; try discriminate; reflexivity.
  - unfold ret. repeat split; intros; try discriminate; reflexivity.
Qed.

End EntryPoints.

(** ** Key creation *)

Section KeyCreation.
Context {X : Type} (env : Env X).

Lemma key_path_ne_chr_path (uid : uid_t) (name : string) :
  chr_path uid name <> key_path uid name.
Proof. unfold chr_path, key_path, KeyStore.getKeyNameForUidWithDir. intros H. inversion H. Qed.

Lemma generateKey_hidl_cb_persists name params uid flags usingFallback error out cb
    (w : World X) error' out' w' :
  generateKey_hidl_cb name params uid flags usingFallback error out cb w
  = ((error', out'), w') ->
  cb <> None -> isOk error' = true ->
  key_persisted (cast_uid_t uid) name params flags w'.
Proof.
  unfold generateKey_hidl_cb. intros Hrun Hcb Hok.
  destruct cb as [[[r hidlKeyBlob] keyCharacteristics]|]; [|congruence].
  destruct (isOk (EC r)) eqn:Hr; cbn [negb] in Hrun.
  - unfold bind, keystore_update, ret, KeyStore.put in Hrun. cbn in Hrun.
    injection Hrun as _ _ <-.
    eexists. split.
    + cbn. apply lookup_insert_eq.
    + unfold flags_derived. cbn.
      destruct (isAuthenticationBound params), (has_flag flags _); cbn; auto.
  - unfold ret in Hrun. injection Hrun as <- _ _. congruence.
Qed.

Lemma importKey_hidlCb_persists name params uid flags usingFallback error out cb
    (w : World X) error' out' w' :
  importKey_hidlCb name params uid flags usingFallback error out cb w
  = ((error', out'), w') ->
  cb <> None -> isOk error' = true ->
  key_persisted (cast_uid_t uid) name params flags w'.
Proof.
  unfold importKey_hidlCb. intros Hrun Hcb Hok.
  destruct cb as [[[r hidlKeyBlob] keyCharacteristics]|]; [|congruence].
  destruct (isOk (EC r)) eqn:Hr; cbn [negb] in Hrun.
  - unfold bind, keystore_update, ret, KeyStore.put in Hrun. cbn in Hrun.
    injection Hrun as _ _ <-.
    eexists. split.
    + cbn. apply lookup_insert_eq.
    + unfold flags_derived. cbn.
      destruct (isAuthenticationBound params), (has_flag flags _); cbn; auto.
  - unfold ret in Hrun. injection Hrun as <- _ _. congruence.
Qed.

Lemma write_characteristics_keeps_key name params uid flags usingFallback (w : World X) :
  key_persisted (cast_uid_t uid) name params flags w ->
  key_persisted (cast_uid_t uid) name params flags
    (snd (write_characteristics env name params uid flags usingFallback w)).
Proof.
  intros [b [Hb Hflags]]. unfold write_characteristics.
  destruct (Serialize env params) as [kc_buf|]; [|exists b; auto].
  unfold bind, keystore_update, ret, KeyStore.put. cbn.
  exists b. split; [|exact Hflags]. unfold with_mKeyStore, KeyStore.with_files; cbn.
  rewrite lookup_insert_ne; [exact Hb | apply key_path_ne_chr_path].
Qed.

Lemma generateKey_persists c name params entropy uid flags (w : World X) r out w' :
  (forall dev x, callback_invoked (fst (dev_generateKey env dev params x))) ->
  generateKey env c name params entropy uid flags w = ((r, out), w') ->
  r = ResponseCode.to_int32 ResponseCode.NO_ERROR ->
  key_persisted (cast_uid_t (wrap_int32 (getEffectiveUid c uid))) name params flags w'.
Proof.
  intros Hcontract Hrun Hr. unfold generateKey in Hrun. cbv zeta in Hrun.
  repeat step_in Hrun; injection Hrun as Hr' Hout Hw; subst r w';
    try discriminate Hr;
    try (apply to_int32_NO_ERROR in Hr; rewrite Hr in *; discriminate);
    try (subst; discriminate).
  all: match goal with
       | Hw : write_characteristics ?e ?n ?p ?u ?f ?fb ?w1 = (_, ?w2)
         |- key_persisted _ _ _ _ ?w2 =>
           replace w2 with (snd (write_characteristics e n p u f fb w1))
             by (rewrite Hw; reflexivity);
           apply write_characteristics_keeps_key
       end.
  all: match goal with
       | Hcb : generateKey_hidl_cb _ _ _ _ _ _ _ (hidl_callback ?a) ?w1 = (_, _, ?w2),
         Hh : hidl _ _ _ = (?a, ?w1) |- key_persisted _ _ _ _ ?w2 =>
           eapply generateKey_hidl_cb_persists;
             [ exact Hcb
             | apply hidl_reply in Hh; subst a; apply Hcontract;
               apply negb_false_iff; assumption
             | apply negb_false_iff; assumption ]
       end.
Qed.

Lemma importKey_persists c name params format keyData uid flags (w : World X) r out w' :
  (forall dev x, callback_invoked (fst (dev_importKey env dev params format keyData x))) ->
  importKey env c name params format keyData uid flags w = ((r, out), w') ->
  r = ResponseCode.to_int32 ResponseCode.NO_ERROR ->
  key_persisted (cast_uid_t (wrap_int32 (getEffectiveUid c uid))) name params flags w'.
Proof.
  intros Hcontract Hrun Hr. unfold importKey in Hrun. cbv zeta in Hrun.
  repeat step_in Hrun; injection Hrun as Hr' Hout Hw; subst r w';
    try discriminate Hr;
    try (apply to_int32_NO_ERROR in Hr; rewrite Hr in *; discriminate);
    try (subst; discriminate).
  all: match goal with
       | Hw : write_characteristics ?e ?n ?p ?u ?f ?fb ?w1 = (_, ?w2)
         |- key_persisted _ _ _ _ ?w2 =>
           replace w2 with (snd (write_characteristics e n p u f fb w1))
             by (rewrite Hw; reflexivity);
           apply write_characteristics_keeps_key
       end.
  all: match goal with
       | Hcb : importKey_hidlCb _ _ _ _ _ _ _ (hidl_callback ?a) ?w1 = (_, _, ?w2),
         Hh : hidl _ _ _ = (?a, ?w1) |- key_persisted _ _ _ _ ?w2 =>
           eapply importKey_hidlCb_persists;
             [ exact Hcb
             | apply hidl_reply in Hh; subst a; apply Hcontract;
               apply negb_false_iff; assumption
             | apply negb_false_iff; assumption ]
       end.
Qed.

(** C2.  Whenever [generateKey] or [importKey] reports NO_ERROR, the store
    holds the KeymasterBound blob of the key, its CriticalToDeviceEncryption
    flag is the caller's KEYSTORE_FLAG_CRITICAL_TO_DEVICE_ENCRYPTION, and its
    SuperEncrypted flag is AuthenticationBound (the caller's parameters lack
    NO_AUTH_REQUIRED) and not CriticalToDeviceEncryption.  The devices are
    assumed to honour the HIDL contract: a call that went through has
    invoked its callback. *)
Theorem key_blob_flag_derivation (c : Caller) (name : string) (params : AuthorizationSet)
    (entropy : bytes) (format : Z) (keyData : bytes) (uid flags : Z) (w : World X) :
  (forall dev x, callback_invoked (fst (dev_generateKey env dev params x))) ->
  (forall dev x, callback_invoked (fst (dev_importKey env dev params format keyData x))) ->
  let owner := cast_uid_t (wrap_int32 (getEffectiveUid c uid)) in
  (fst (fst (generateKey env c name params entropy uid flags w))
   = ResponseCode.to_int32 ResponseCode.NO_ERROR ->
   key_persisted owner name params flags
     (snd (generateKey env c name params entropy uid flags w)))
  /\ (fst (fst (importKey env c name params format keyData uid flags w))
      = ResponseCode.to_int32 ResponseCode.NO_ERROR ->
      key_persisted owner name params flags
        (snd (importKey env c name params format keyData uid flags w))).
Proof.
  intros Hgen Himp owner. split; intros Hok.
  - destruct (generateKey env c name params entropy uid flags w) as [[r out] w'] eqn:Hrun.
    eapply generateKey_persists; eauto.
  - destruct (importKey env c name params format keyData uid flags w) as [[r out] w'] eqn:Hrun.
    eapply importKey_persists; eauto.
Qed.

End KeyCreation.

(** ** Upgrade of a key blob *)

Section Upgrade.
Context {X : Type} (env : Env X).

Lemma get_NO_ERROR (ks : KeyStore.t) (path : Path) (keyBlob : Blob) (type : BlobType)
    (userId : Z) (b : Blob) :
  KeyStore.get ks path keyBlob type userId = (ResponseCode.NO_ERROR, b) ->
  KeyStore.files ks !! path = Some b
  /\ KeyStore.read_gate (KeyStore.getState ks userId) b = ResponseCode.NO_ERROR
  /\ KeyStore.type_matches type b = true.
Proof.
  unfold KeyStore.get.
  destruct (KeyStore.files ks !! path) as [b'|]; [|discriminate].
  destruct (KeyStore.read_gate (KeyStore.getState ks userId) b') eqn:Hgate;
    try discriminate.
  destruct (KeyStore.type_matches type b') eqn:Htype; [|discriminate].
  intros H. injection H as <-. auto.
Qed.

Lemma read_gate_upgraded (s : State) (old : Blob) (upgradedKeyBlob : bytes) :
  KeyStore.read_gate s (upgraded_blob old upgradedKeyBlob) = KeyStore.read_gate s old.
Proof. reflexivity. Qed.

Lemma getKeyForName_present (ks : KeyStore.t) (keyBlob b : Blob) (name : string)
    (uid : uid_t) :
  KeyStore.files ks !! key_path uid name = Some b ->
  KeyStore.read_gate (KeyStore.getState ks (get_user_id uid)) b = ResponseCode.NO_ERROR ->
  getType b = TYPE_KEYMASTER_10 ->
  KeyStore.getKeyForName ks keyBlob name uid TYPE_KEYMASTER_10 = (ResponseCode.NO_ERROR, b).
Proof.
  intros Hfile Hgate Htype. unfold KeyStore.getKeyForName, KeyStore.get.
  change (KeyStore.getKeyNameForUidWithDir name uid TYPE_KEYMASTER_10)
    with (key_path uid name).
  rewrite Hfile, Hgate. unfold KeyStore.type_matches. rewrite Htype. reflexivity.
Qed.

Lemma upgradeKeyBlob_hidlCb_run (name : string) (uid : uid_t) (old b0 : Blob)
    (error : KeyStoreServiceReturnCode.t) (r : ErrorCode.t) (upgradedKeyBlob : bytes)
    (w : World X) :
  isOk (EC r) = true ->
  KeyStore.files (mKeyStore w) !! key_path uid name = Some b0 ->
  KeyStore.read_gate (KeyStore.getState (mKeyStore w) (get_user_id uid)) old
  = ResponseCode.NO_ERROR ->
  upgradeKeyBlob_hidlCb name uid old error (Some (r, upgradedKeyBlob)) w
  = ((RC ResponseCode.NO_ERROR, upgraded_blob old upgradedKeyBlob),
     with_mKeyStore
       (KeyStore.with_files
          (<[key_path uid name := upgraded_blob old upgradedKeyBlob]>
             (delete (key_path uid name) (KeyStore.files (mKeyStore w))))
          (mKeyStore w)) w).
Proof.
  intros Hr Hfile Hgate.
  unfold upgradeKeyBlob_hidlCb, bind, keystore, keystore_update, gets, ret,
    KeyStore.getBlobFileNameIfExists, KeyStore.del, KeyStore.put.
  cbv beta zeta.
  change (KeyStore.getKeyNameForUidWithDir name uid TYPE_KEYMASTER_10)
    with (key_path uid name).
  rewrite Hr. cbn [negb]. cbv beta. rewrite Hfile. cbv beta iota. rewrite Hfile.
  change (KeyStore.type_matches TYPE_ANY b0) with true. cbv beta iota.
  change (isOk (RC ResponseCode.NO_ERROR)) with true. cbn [negb]. cbv beta iota.
  change (setCriticalToDeviceEncryption (isCriticalToDeviceEncryption old)
            (setSuperEncrypted (isSuperEncrypted old)
               (setEncrypted (isEncrypted old)
                  (setFallback (isFallback old)
                     (Blob_new upgradedKeyBlob [] TYPE_KEYMASTER_10)))))
    with (upgraded_blob old upgradedKeyBlob).
  unfold with_mKeyStore, KeyStore.with_files.
  cbn [mKeyStore mOperationMap mAuthTokenTable external calls KeyStore.files
       KeyStore.userState KeyStore.grants KeyStore.hasFallbackDevice].
  rewrite (getKeyForName_present _ old (upgraded_blob old upgradedKeyBlob));
    [reflexivity | apply lookup_insert_eq | exact Hgate | reflexivity].
Qed.

(** A successful upgrade, step by step.  When [upgradeKeyBlob] re-reads the
    blob successfully and the device's [upgradeKey] succeeds, the old file is
    deleted, a new blob with the upgraded key material is written under the
    same name, and the blob handed back to the caller is that new blob as
    re-read from the store, with result NO_ERROR.  The new blob has the
    Encrypted, SuperEncrypted, Fallback and CriticalToDeviceEncryption flags
    of the old one, and it is constructed without an info prefix. *)
Lemma upgradeKeyBlob_spec (name : string) (uid : uid_t) (params : AuthorizationSet)
    (blob old : Blob) (w : World X) (status r : ErrorCode.t) (upgradedKeyBlob : bytes)
    (x' : X) :
  KeyStore.getKeyForName (mKeyStore w) blob name uid TYPE_KEYMASTER_10
  = (ResponseCode.NO_ERROR, old) ->
  dev_upgradeKey env (KeyStore.getDevice old) (blob2hidlVec old) params (external w)
  = (Build_HidlReturn status (Some (r, upgradedKeyBlob)), x') ->
  isOk (EC status) = true ->
  isOk (EC r) = true ->
  let new := upgraded_blob old upgradedKeyBlob in
  let w' :=
    Build_World
      (KeyStore.with_files
         (<[key_path uid name := new]>
            (delete (key_path uid name) (KeyStore.files (mKeyStore w))))
         (mKeyStore w))
      (mOperationMap w) (mAuthTokenTable w) x'
      (calls w ++ [Call_upgradeKey (KeyStore.getDevice old) (blob2hidlVec old) params]) in
  upgradeKeyBlob env name uid params blob w = ((RC ResponseCode.NO_ERROR, new), w')
  /\ KeyStore.getKeyForName (mKeyStore w') old name uid TYPE_KEYMASTER_10
     = (ResponseCode.NO_ERROR, new)
  /\ isEncrypted new = isEncrypted old
  /\ isSuperEncrypted new = isSuperEncrypted old
  /\ isFallback new = isFallback old
  /\ isCriticalToDeviceEncryption new = isCriticalToDeviceEncryption old
  /\ getInfoLength new = 0%nat.
Proof.
  intros Hload Hdev Hstatus Hr new w'.
  pose proof Hload as Hfile. unfold KeyStore.getKeyForName in Hfile.
  apply get_NO_ERROR in Hfile. destruct Hfile as [Hfile [Hgate Htype]].
  assert (Hreread :
    KeyStore.getKeyForName (mKeyStore w') old name uid TYPE_KEYMASTER_10
    = (ResponseCode.NO_ERROR, new)).
  { unfold KeyStore.getKeyForName, KeyStore.get, w', KeyStore.with_files. cbn.
    change (KeyStore.getKeyNameForUidWithDir name uid TYPE_KEYMASTER_10)
      with (key_path uid name).
    rewrite lookup_insert_eq.
    unfold KeyStore.read_gate in *. cbn.
    unfold KeyStore.getState in *. cbn.
    destruct (isEncrypted old || isSuperEncrypted old).
    - rewrite Hgate. reflexivity.
    - reflexivity. }
  split; [|repeat split; exact Hreread].
  unfold upgradeKeyBlob. rewrite bind_run. unfold keystore at 1 2, gets at 1 2.
  cbn [fst snd]. rewrite Hload.
  change (negb (KeyStoreServiceReturnCode.eqResponseCode (RC ResponseCode.NO_ERROR)
                  ResponseCode.NO_ERROR)) with false.
  cbv iota. rewrite bind_run, hidl_run, Hdev. cbn [fst snd hidl_callback hidl_status].
  rewrite bind_run.
  rewrite (upgradeKeyBlob_hidlCb_run name uid old old (EC ErrorCode.OK) r upgradedKeyBlob);
    [| exact Hr | exact Hfile | exact Hgate].
  cbn [fst snd]. rewrite Hstatus. reflexivity.
Qed.

End Upgrade.

(** ** Clearing a uid *)

Section ClearUid.
Context {X : Type} (env : Env X).

Lemma with_mKeyStore_id (w : World X) : with_mKeyStore (mKeyStore w) w = w.
Proof. destruct w; reflexivity. Qed.

Lemma with_mKeyStore_twice (ks1 ks2 : KeyStore.t) (w : World X) :
  with_mKeyStore ks2 (with_mKeyStore ks1 w) = with_mKeyStore ks2 w.
Proof. reflexivity. Qed.

Lemma clear_uid_loop_fold (targetUid : uid_t) (aliases : list string) (w : World X) :
  clear_uid_loop targetUid aliases w
  = (tt, with_mKeyStore (fold_left (clear_alias targetUid) aliases (mKeyStore w)) w).
Proof.
  revert w. induction aliases as [|name8 rest IH]; intros w.
  - cbn. unfold ret. rewrite with_mKeyStore_id. reflexivity.
  - cbn [clear_uid_loop fold_left].
    change (KeyStore.getKeyNameForUidWithDir name8 targetUid TYPE_ANY)
      with (key_path targetUid name8).
    change (KeyStore.getKeyNameForUidWithDir name8 targetUid TYPE_KEY_CHARACTERISTICS)
      with (chr_path targetUid name8).
    rewrite bind_run.
    match goal with
    | |- context [(?m w).1] =>
        assert (Hskip : m w = (skipped (mKeyStore w) targetUid name8, w))
    end.
    { unfold skipped, retained, bind, keystore, gets, ret, KeyStore.get.
      destruct (get_app_id targetUid =? AID_SYSTEM);
        destruct (KeyStore.files (mKeyStore w) !! key_path targetUid name8) as [b|];
        try reflexivity.
      cbn [andb].
      destruct (KeyStore.read_gate _ b); reflexivity. }
    rewrite Hskip. cbn [fst snd]. unfold clear_alias.
    destruct (skipped (mKeyStore w) targetUid name8).
    + apply IH.
    + rewrite !bind_run, IH. unfold keystore_update.
      destruct (KeyStore.del (mKeyStore w) (key_path targetUid name8) TYPE_ANY
                  (get_user_id targetUid)) as [rc1 ks1].
      cbn [fst snd mKeyStore with_mKeyStore].
      destruct (KeyStore.del ks1 (chr_path targetUid name8) TYPE_KEY_CHARACTERISTICS
                  (get_user_id targetUid)) as [rc2 ks2].
      reflexivity.
Qed.

Lemma del_lookup (ks : KeyStore.t) (path : Path) (type : BlobType) (userId : Z) (p : Path) :
  KeyStore.files (snd (KeyStore.del ks path type userId)) !! p
  = if decide (p = path)
    then match KeyStore.files ks !! p with
         | Some b => if KeyStore.type_matches type b then None else Some b
         | None => None
         end
    else KeyStore.files ks !! p.
Proof.
  unfold KeyStore.del. destruct (decide (p = path)) as [->|Hne].
  - destruct (KeyStore.files ks !! path) as [b|] eqn:Hb; cbn [snd].
    + destruct (KeyStore.type_matches type b); cbn [snd].
      * unfold KeyStore.with_files. cbn. apply lookup_delete_eq.
      * exact Hb.
    + exact Hb.
  - destruct (KeyStore.files ks !! path) as [b|]; cbn [snd]; [|reflexivity].
    destruct (KeyStore.type_matches type b); cbn [snd]; [|reflexivity].
    unfold KeyStore.with_files. cbn. apply lookup_delete_ne. congruence.
Qed.

Lemma del_userState (ks : KeyStore.t) (path : Path) (type : BlobType) (userId : Z) :
  KeyStore.userState (snd (KeyStore.del ks path type userId)) = KeyStore.userState ks.
Proof.
  unfold KeyStore.del. destruct (KeyStore.files ks !! path) as [b|]; [|reflexivity].
  destruct (KeyStore.type_matches type b); reflexivity.
Qed.

(** What one iteration leaves in the store. *)
Lemma clear_alias_lookup (targetUid : uid_t) (ks : KeyStore.t) (name : string) (p : Path) :
  KeyStore.files (clear_alias targetUid ks name) !! p
  = if skipped ks targetUid name then KeyStore.files ks !! p
    else if decide (p = key_path targetUid name) then None
    else if decide (p = chr_path targetUid name)
         then match KeyStore.files ks !! p with
              | Some b => if bool_decide (getType b = TYPE_KEY_CHARACTERISTICS)
                          then None else Some b
              | None => None
              end
         else KeyStore.files ks !! p.
Proof.
  unfold clear_alias. destruct (skipped ks targetUid name); [reflexivity|].
  rewrite !del_lookup.
  destruct (decide (p = key_path targetUid name)) as [->|Hkey].
  - destruct (decide (key_path targetUid name = chr_path targetUid name)) as [Heq|_].
    { symmetry in Heq. apply key_path_ne_chr_path in Heq. contradiction. }
    destruct (KeyStore.files ks !! key_path targetUid name); reflexivity.
  - destruct (decide (p = chr_path targetUid name)) as [->|Hchr]; [|reflexivity].
    destruct (KeyStore.files ks !! chr_path targetUid name) as [b|]; reflexivity.
Qed.

Lemma clear_alias_userState (targetUid : uid_t) (ks : KeyStore.t) (name : string) :
  KeyStore.userState (clear_alias targetUid ks name) = KeyStore.userState ks.
Proof.
  unfold clear_alias. destruct (skipped ks targetUid name); [reflexivity|].
  rewrite !del_userState. reflexivity.
Qed.

Lemma chr_path_ne_key_path (uid uid' : uid_t) (a a' : string) :
  chr_path uid a <> key_path uid' a'.
Proof. intros H. apply (f_equal path_chr) in H. cbn in H. discriminate H. Qed.

Lemma key_path_inj (uid : uid_t) (a a' : string) :
  key_path uid a = key_path uid a' -> a = a'.
Proof. intros H. injection H as H. exact H. Qed.

(** An iteration does not change which aliases are skipped. *)
Lemma clear_alias_skipped (targetUid : uid_t) (ks : KeyStore.t) (name name' : string) :
  skipped (clear_alias targetUid ks name) targetUid name' = skipped ks targetUid name'.
Proof.
  unfold skipped at 1 2. rewrite clear_alias_lookup.
  unfold retained, KeyStore.getState. rewrite clear_alias_userState.
  destruct (skipped ks targetUid name) eqn:Hskip; [reflexivity|].
  destruct (decide (key_path targetUid name' = key_path targetUid name)) as [Heq|Hne].
  - apply key_path_inj in Heq. subst name'.
    unfold skipped, retained, KeyStore.getState in Hskip.
    destruct (KeyStore.files ks !! key_path targetUid name); [symmetry; exact Hskip|reflexivity].
  - destruct (decide (key_path targetUid name' = chr_path targetUid name)) as [Heq|_];
      [|reflexivity].
    symmetry in Heq. apply chr_path_ne_key_path in Heq. contradiction.
Qed.

Lemma fold_clear_skipped (targetUid : uid_t) (aliases : list string) (ks : KeyStore.t)
    (name : string) :
  skipped (fold_left (clear_alias targetUid) aliases ks) targetUid name
  = skipped ks targetUid name.
Proof.
  revert ks. induction aliases as [|a rest IH]; intros ks; [reflexivity|].
  cbn [fold_left]. rewrite IH. apply clear_alias_skipped.
Qed.

(** Nothing is created: a file found after the loop was there before. *)
Lemma fold_clear_lookup_Some (targetUid : uid_t) (aliases : list string) (ks : KeyStore.t)
    (p : Path) (b : Blob) :
  KeyStore.files (fold_left (clear_alias targetUid) aliases ks) !! p = Some b ->
  KeyStore.files ks !! p = Some b.
Proof.
  revert ks. induction aliases as [|a rest IH]; intros ks; [trivial|].
  cbn [fold_left]. intros H. apply IH in H. rewrite clear_alias_lookup in H.
  destruct (skipped ks targetUid a); [exact H|].
  destruct (decide (p = key_path targetUid a)); [discriminate|].
  destruct (decide (p = chr_path targetUid a)); [|exact H].
  destruct (KeyStore.files ks !! p) as [b'|]; [|discriminate].
  destruct (bool_decide (getType b' = TYPE_KEY_CHARACTERISTICS)); [discriminate|exact H].
Qed.

Lemma fold_clear_lookup_None (targetUid : uid_t) (aliases : list string) (ks : KeyStore.t)
    (p : Path) :
  KeyStore.files ks !! p = None ->
  KeyStore.files (fold_left (clear_alias targetUid) aliases ks) !! p = None.
Proof.
  intros Hnone.
  destruct (KeyStore.files (fold_left (clear_alias targetUid) aliases ks) !! p) as [b|] eqn:Hb;
    [|reflexivity].
  apply fold_clear_lookup_Some in Hb. congruence.
Qed.

(** Files of other uids and files of skipped aliases are left alone. *)
Lemma fold_clear_frame (targetUid : uid_t) (aliases : list string) (ks : KeyStore.t)
    (p : Path) :
  path_uid p <> targetUid \/ skipped ks targetUid (path_alias p) = true ->
  KeyStore.files (fold_left (clear_alias targetUid) aliases ks) !! p
  = KeyStore.files ks !! p.
Proof.
  revert ks. induction aliases as [|a rest IH]; intros ks Hp; [reflexivity|].
  cbn [fold_left]. rewrite IH.
  - rewrite clear_alias_lookup.
    destruct (skipped ks targetUid a) eqn:Hskip; [reflexivity|].
    assert (Hne : path_uid p <> targetUid \/ path_alias p <> a).
    { destruct Hp as [Hp|Hp]; [left; exact Hp|right].
      intros Heq. rewrite Heq in Hp. congruence. }
    destruct (decide (p = key_path targetUid a)) as [->|_].
    { cbn in Hne. destruct Hne; congruence. }
    destruct (decide (p = chr_path targetUid a)) as [->|_]; [|reflexivity].
    cbn in Hne. destruct Hne; congruence.
  - destruct Hp as [Hp|Hp]; [left; exact Hp|right].
    rewrite clear_alias_skipped. exact Hp.
Qed.

(** The key file of a listed alias that is not skipped is gone. *)
Lemma fold_clear_key (targetUid : uid_t) (aliases : list string) (ks : KeyStore.t)
    (name : string) :
  name ∈ aliases -> skipped ks targetUid name = false ->
  KeyStore.files (fold_left (clear_alias targetUid) aliases ks) !! key_path targetUid name
  = None.
Proof.
  revert ks. induction aliases as [|a rest IH]; intros ks Hin Hskip.
  - apply elem_of_nil in Hin. contradiction.
  - cbn [fold_left]. apply elem_of_cons in Hin. destruct Hin as [<-|Hin].
    + apply fold_clear_lookup_None. rewrite clear_alias_lookup, Hskip.
      destruct (decide (key_path targetUid name = key_path targetUid name)); congruence.
    + apply IH; [exact Hin|]. rewrite clear_alias_skipped. exact Hskip.
Qed.

(** So is its characteristics file, provided it is a characteristics blob. *)
Lemma fold_clear_chr (targetUid : uid_t) (aliases : list string) (ks : KeyStore.t)
    (name : string) :
  name ∈ aliases -> skipped ks targetUid name = false ->
  (forall bc, KeyStore.files ks !! chr_path targetUid name = Some bc ->
              getType bc = TYPE_KEY_CHARACTERISTICS) ->
  KeyStore.files (fold_left (clear_alias targetUid) aliases ks) !! chr_path targetUid name
  = None.
Proof.
  revert ks. induction aliases as [|a rest IH]; intros ks Hin Hskip Htype.
  - apply elem_of_nil in Hin. contradiction.
  - cbn [fold_left]. apply elem_of_cons in Hin. destruct Hin as [<-|Hin].
    + apply fold_clear_lookup_None. rewrite clear_alias_lookup, Hskip.
      destruct (decide (chr_path targetUid name = key_path targetUid name)); [reflexivity|].
      destruct (decide (chr_path targetUid name = chr_path targetUid name)); [|congruence].
      destruct (KeyStore.files ks !! chr_path targetUid name) as [bc|] eqn:Hbc; [|reflexivity].
      rewrite bool_decide_eq_true_2; [reflexivity|]. apply Htype. reflexivity.
    + apply IH; [exact Hin| |].
      * rewrite clear_alias_skipped. exact Hskip.
      * intros bc Hbc. apply Htype.
        apply (fold_clear_lookup_Some targetUid [a] ks). exact Hbc.
Qed.

(** Every key file of the uid is listed. *)
Lemma list_lists_key_files (ks : KeyStore.t) (uid : uid_t) (userId : Z) (name : string)
    (b : Blob) :
  KeyStore.files ks !! key_path uid name = Some b ->
  name ∈ snd (KeyStore.list ks uid userId).
Proof.
  intros Hb. unfold KeyStore.list. cbn [snd].
  apply list_elem_of_omap. exists (key_path uid name, b). split.
  - apply elem_of_map_to_list. exact Hb.
  - cbn. rewrite bool_decide_eq_true_2 by reflexivity. reflexivity.
Qed.

(** C8, as amended.  After a [clear_uid] call that passes the permission
    check the result is NO_ERROR and, for every alias that has a key file
    under the target uid: if the target uid's app_id is SYSTEM and the key
    blob reads back with NO_ERROR and is CriticalToDeviceEncryption, the key
    file and its characteristics sibling are both left as they were;
    otherwise the key file is deleted, and so is the characteristics file
    when it is a KeyCharacteristics blob.  Files of other uids are untouched.
    The test looks at the target uid, not at the caller. *)
Theorem clear_uid_spec (c : Caller) (targetUid64 : Z) (w : World X) :
  let targetUid := getEffectiveUid c (wrap_int32 targetUid64) in
  checkBinderPermissionSelfOrSystem env c P_CLEAR_UID (wrap_int32 targetUid) = true ->
  let '(r, w') := clear_uid env c targetUid64 w in
  let before := KeyStore.files (mKeyStore w) in
  let after := KeyStore.files (mKeyStore w') in
  r = ResponseCode.to_int32 ResponseCode.NO_ERROR
  /\ (forall name b,
        before !! key_path targetUid name = Some b ->
        if retained (mKeyStore w) targetUid b
        then after !! key_path targetUid name = Some b
             /\ after !! chr_path targetUid name = before !! chr_path targetUid name
        else after !! key_path targetUid name = None
             /\ ((forall bc, before !! chr_path targetUid name = Some bc ->
                             getType bc = TYPE_KEY_CHARACTERISTICS) ->
                 after !! chr_path targetUid name = None))
  /\ (forall p, path_uid p <> targetUid -> after !! p = before !! p).
Proof.
  intros targetUid Hperm. unfold clear_uid. fold targetUid. rewrite Hperm. cbn [negb].
  unfold bind at 1, modify at 1.
  set (w0 := with_mKeyStore (KeyStore.removeAllGrantsToUid (mKeyStore w) targetUid) w).
  rewrite bind_run. unfold keystore at 1 2, gets at 1 2. cbn [fst snd KeyStore.list].
  rewrite bind_run, clear_uid_loop_fold. cbn [fst snd ret].
  set (aliases := omap _ _).
  set (ks0 := mKeyStore w0).
  assert (Hlisted : forall name b,
            KeyStore.files (mKeyStore w) !! key_path targetUid name = Some b ->
            name ∈ aliases).
  { intros name b Hb.
    apply (list_lists_key_files ks0 targetUid (get_user_id targetUid) name b). exact Hb. }
  assert (Hskip : forall name b,
            KeyStore.files (mKeyStore w) !! key_path targetUid name = Some b ->
            skipped ks0 targetUid name = retained (mKeyStore w) targetUid b).
  { intros name b Hb. unfold skipped. change (KeyStore.files ks0) with
      (KeyStore.files (mKeyStore w)). rewrite Hb. reflexivity. }
  unfold ret. cbn [mKeyStore with_mKeyStore].
  split; [reflexivity|]. split.
  - intros name b Hb. specialize (Hlisted name b Hb). specialize (Hskip name b Hb).
    destruct (retained (mKeyStore w) targetUid b).
    + split.
      * rewrite fold_clear_frame by (right; exact Hskip). exact Hb.
      * rewrite fold_clear_frame by (right; exact Hskip). reflexivity.
    + split.
      * apply fold_clear_key; assumption.
      * intros Htype. apply fold_clear_chr; assumption.
  - intros p Hp. rewrite fold_clear_frame by (left; exact Hp). reflexivity.
Qed.

End ClearUid.

(** ** The info prefix of stored blobs *)

Section InfoPrefix.
Context {X : Type} (env : Env X).

Lemma put_no_info_prefix (ks : KeyStore.t) (path : Path) (b : Blob) :
  no_info_prefix ks -> getInfoLength b = 0%nat ->
  no_info_prefix (KeyStore.with_files (<[path := b]> (KeyStore.files ks)) ks).
Proof.
  intros Hks Hb p b0. unfold KeyStore.with_files. cbn.
  destruct (decide (p = path)) as [->|Hne].
  - rewrite lookup_insert_eq. intros [= <-]. exact Hb.
  - rewrite lookup_insert_ne by congruence. apply Hks.
Qed.

Lemma del_no_info_prefix (ks : KeyStore.t) (path : Path) (type : BlobType) (userId : Z) :
  no_info_prefix ks -> no_info_prefix (snd (KeyStore.del ks path type userId)).
Proof.
  intros Hks p b0. unfold KeyStore.del.
  destruct (KeyStore.files ks !! path) as [b|]; [|apply Hks].
  destruct (KeyStore.type_matches type b); [|apply Hks].
  unfold KeyStore.with_files. cbn.
  destruct (decide (p = path)) as [->|Hne].
  - rewrite lookup_delete_eq. discriminate.
  - rewrite lookup_delete_ne by congruence. apply Hks.
Qed.

Lemma get_no_info_prefix (ks : KeyStore.t) (path : Path) (keyBlob : Blob) (type : BlobType)
    (userId : Z) :
  no_info_prefix ks -> fst (KeyStore.get ks path keyBlob type userId) = ResponseCode.NO_ERROR ->
  getInfoLength (snd (KeyStore.get ks path keyBlob type userId)) = 0%nat.
Proof.
  intros Hks. unfold KeyStore.get.
  destruct (KeyStore.files ks !! path) as [b|] eqn:Hfile; [|discriminate].
  intros _. specialize (Hks path b Hfile).
  destruct (KeyStore.read_gate _ b); try exact Hks.
  destruct (KeyStore.type_matches type b); exact Hks.
Qed.

Lemma generateKey_hidl_cb_no_info_prefix name params uid flags usingFallback error out cb
    (w : World X) a w' :
  generateKey_hidl_cb name params uid flags usingFallback error out cb w = (a, w') ->
  no_info_prefix (mKeyStore w) -> no_info_prefix (mKeyStore w').
Proof.
  intros Hrun Hks. unfold generateKey_hidl_cb in Hrun. cbv zeta in Hrun.
  exec Hrun; unfold with_mKeyStore; cbn [mKeyStore]; try exact Hks.
  all: apply put_no_info_prefix; [exact Hks|].
  all: destruct (isAuthenticationBound params && _); reflexivity.
Qed.

Lemma importKey_hidlCb_no_info_prefix name params uid flags usingFallback error out cb
    (w : World X) a w' :
  importKey_hidlCb name params uid flags usingFallback error out cb w = (a, w') ->
  no_info_prefix (mKeyStore w) -> no_info_prefix (mKeyStore w').
Proof.
  intros Hrun Hks. unfold importKey_hidlCb in Hrun. cbv zeta in Hrun.
  exec Hrun; unfold with_mKeyStore; cbn [mKeyStore]; try exact Hks.
  all: apply put_no_info_prefix; [exact Hks|].
  all: destruct (isAuthenticationBound params && _); reflexivity.
Qed.

Lemma write_characteristics_no_info_prefix name params uid flags usingFallback
    (w : World X) a w' :
  write_characteristics env name params uid flags usingFallback w = (a, w') ->
  no_info_prefix (mKeyStore w) -> no_info_prefix (mKeyStore w').
Proof.
  intros Hrun Hks. unfold write_characteristics in Hrun. cbv zeta in Hrun.
  exec Hrun; unfold with_mKeyStore; cbn [mKeyStore]; try exact Hks.
  apply put_no_info_prefix; [exact Hks | reflexivity].
Qed.

Lemma checkBinderPermissionAndKeystoreState_same c permission targetUid checkUnlocked
    (w : World X) a w' :
  checkBinderPermissionAndKeystoreState env c permission targetUid checkUnlocked w = (a, w') ->
  w' = w.
Proof.
  intros Hrun. unfold checkBinderPermissionAndKeystoreState in Hrun. exec Hrun; reflexivity.
Qed.

Lemma addRngEntropy_keystore (entropy : bytes) (w : World X) r w' :
  addRngEntropy env entropy w = (r, w') -> mKeyStore w' = mKeyStore w.
Proof. intros Hrun. unfold addRngEntropy in Hrun. exec Hrun. reflexivity. Qed.

Ltac store_kept :=
  cbn [mKeyStore];
  repeat match goal with
         | H : mKeyStore ?a = mKeyStore _ |- context [mKeyStore ?a] => rewrite H
         end;
  assumption.

Ltac stores :=
  repeat match goal with
         | H : checkBinderPermissionAndKeystoreState _ _ _ _ _ _ = _ |- _ =>
             apply checkBinderPermissionAndKeystoreState_same in H; subst
         | H : addRngEntropy _ _ _ = _ |- _ => apply addRngEntropy_keystore in H
         | H : generateKey_hidl_cb _ _ _ _ _ _ _ _ _ = _ |- _ =>
             apply generateKey_hidl_cb_no_info_prefix in H; [| store_kept ]
         | H : importKey_hidlCb _ _ _ _ _ _ _ _ _ = _ |- _ =>
             apply importKey_hidlCb_no_info_prefix in H; [| store_kept ]
         | H : write_characteristics _ _ _ _ _ _ _ = _ |- _ =>
             apply write_characteristics_no_info_prefix in H; [| store_kept ]
         end.

Lemma generateKey_no_info_prefix c name params entropy uid flags (w : World X) :
  no_info_prefix (mKeyStore w) ->
  no_info_prefix (mKeyStore (snd (generateKey env c name params entropy uid flags w))).
Proof.
  intros Hks.
  destruct (generateKey env c name params entropy uid flags w) as [a w'] eqn:Hrun.
  cbn [snd]. unfold generateKey in Hrun. cbv zeta in Hrun.
  exec Hrun.
  all: stores.
  all: store_kept.
Qed.

Lemma importKey_no_info_prefix c name params format keyData uid flags (w : World X) :
  no_info_prefix (mKeyStore w) ->
  no_info_prefix
    (mKeyStore (snd (importKey env c name params format keyData uid flags w))).
Proof.
  intros Hks.
  destruct (importKey env c name params format keyData uid flags w) as [a w'] eqn:Hrun.
  cbn [snd]. unfold importKey in Hrun. cbv zeta in Hrun.
  exec Hrun.
  all: stores.
  all: store_kept.
Qed.

Lemma insert_no_info_prefix c name item uid flags (w : World X) :
  no_info_prefix (mKeyStore w) ->
  no_info_prefix (mKeyStore (snd (insert env c name item uid flags w))).
Proof.
  intros Hks.
  destruct (insert env c name item uid flags w) as [a w'] eqn:Hrun.
  cbn [snd]. unfold insert in Hrun. cbv zeta in Hrun.
  exec Hrun.
  all: stores.
  all: try store_kept.
  all: unfold with_mKeyStore; cbn [mKeyStore].
  all: apply put_no_info_prefix; [assumption | reflexivity].
Qed.

Lemma duplicate_no_info_prefix c srcKey srcUid destKey destUid (w : World X) :
  no_info_prefix (mKeyStore w) ->
  no_info_prefix (mKeyStore (snd (duplicate env c srcKey srcUid destKey destUid w))).
Proof.
  intros Hks.
  destruct (duplicate env c srcKey srcUid destKey destUid w) as [a w'] eqn:Hrun.
  cbn [snd]. unfold duplicate in Hrun. cbv zeta in Hrun.
  exec Hrun.
  all: try store_kept.
  all: unfold with_mKeyStore; cbn [mKeyStore].
  all: apply put_no_info_prefix; [assumption |].
  all: match goal with
       | H : KeyStore.get ?ks ?p ?b ?t ?u = (ResponseCode.NO_ERROR, ?b') |- _ =>
           pose proof (get_no_info_prefix ks p b t u Hks) as Hinfo;
           rewrite H in Hinfo; exact (Hinfo eq_refl)
       end.
Qed.

Lemma del_files_no_info_prefix (ks : KeyStore.t) (path : Path) :
  no_info_prefix ks ->
  no_info_prefix (KeyStore.with_files (delete path (KeyStore.files ks)) ks).
Proof.
  intros Hks p b0. unfold KeyStore.with_files. cbn.
  destruct (decide (p = path)) as [->|Hne].
  - rewrite lookup_delete_eq. discriminate.
  - rewrite lookup_delete_ne by congruence. apply Hks.
Qed.

Lemma upgradeKeyBlob_hidlCb_no_info_prefix name uid blob error cb (w : World X) a w' :
  upgradeKeyBlob_hidlCb name uid blob error cb w = (a, w') ->
  no_info_prefix (mKeyStore w) -> no_info_prefix (mKeyStore w').
Proof.
  intros Hrun Hks. unfold upgradeKeyBlob_hidlCb in Hrun. cbv zeta in Hrun.
  exec Hrun; unfold with_mKeyStore; cbn [mKeyStore]; try exact Hks.
  all: try (apply del_no_info_prefix; exact Hks).
  all: try (apply put_no_info_prefix; [apply del_no_info_prefix; exact Hks | reflexivity]).
Qed.

Lemma upgradeKeyBlob_no_info_prefix name uid params blob (w : World X) :
  no_info_prefix (mKeyStore w) ->
  no_info_prefix (mKeyStore (snd (upgradeKeyBlob env name uid params blob w))).
Proof.
  intros Hks.
  destruct (upgradeKeyBlob env name uid params blob w) as [a w'] eqn:Hrun.
  cbn [snd]. unfold upgradeKeyBlob in Hrun. cbv zeta in Hrun.
  exec Hrun.
  all: try store_kept.
  all: match goal with
       | H : upgradeKeyBlob_hidlCb _ _ _ _ _ _ = _ |- _ =>
           apply upgradeKeyBlob_hidlCb_no_info_prefix in H; [| store_kept ]
       end.
  all: store_kept.
Qed.

Lemma del_entry_no_info_prefix c name uid (w : World X) :
  no_info_prefix (mKeyStore w) ->
  no_info_prefix (mKeyStore (snd (del env c name uid w))).
Proof.
  intros Hks.
  destruct (del env c name uid w) as [a w'] eqn:Hrun.
  cbn [snd]. unfold del in Hrun. cbv zeta in Hrun.
  exec Hrun; unfold with_mKeyStore; cbn [mKeyStore]; try exact Hks.
  all: repeat apply del_no_info_prefix; exact Hks.
Qed.

Lemma clear_alias_no_info_prefix (targetUid : uid_t) (ks : KeyStore.t) (name : string) :
  no_info_prefix ks -> no_info_prefix (clear_alias targetUid ks name).
Proof.
  intros Hks. unfold clear_alias. destruct (skipped ks targetUid name); [exact Hks|].
  repeat apply del_no_info_prefix. exact Hks.
Qed.

Lemma fold_clear_no_info_prefix (targetUid : uid_t) (aliases : list string)
    (ks : KeyStore.t) :
  no_info_prefix ks -> no_info_prefix (fold_left (clear_alias targetUid) aliases ks).
Proof.
  revert ks. induction aliases as [|name rest IH]; intros ks Hks; [exact Hks|].
  cbn [fold_left]. apply IH. apply clear_alias_no_info_prefix. exact Hks.
Qed.

Lemma clear_uid_no_info_prefix c targetUid64 (w : World X) :
  no_info_prefix (mKeyStore w) ->
  no_info_prefix (mKeyStore (snd (clear_uid env c targetUid64 w))).
Proof.
  intros Hks.
  destruct (clear_uid env c targetUid64 w) as [a w'] eqn:Hrun.
  cbn [snd]. unfold clear_uid in Hrun. cbv zeta in Hrun.
  exec Hrun; unfold with_mKeyStore in *; cbn [mKeyStore] in *; try exact Hks.
  match goal with
  | H : clear_uid_loop _ _ _ = _ |- _ => rewrite clear_uid_loop_fold in H;
      injection H as _ <-
  end.
  unfold with_mKeyStore; cbn [mKeyStore].
  apply fold_clear_no_info_prefix. exact Hks.
Qed.

(** Every blob that the service writes has an empty info prefix: the entry
    points that create, copy, replace or delete files keep a store in which
    no blob has one.  The other entry points reach the files through these,
    or through the user-level operations of the [KeyStore] itself. *)
Lemma stored_blobs_have_no_info_prefix (c : Caller) (w : World X) :
  no_info_prefix (mKeyStore w) ->
  (forall name item uid flags,
      no_info_prefix (mKeyStore (snd (insert env c name item uid flags w))))
  /\ (forall name params entropy uid flags,
      no_info_prefix (mKeyStore (snd (generateKey env c name params entropy uid flags w))))
  /\ (forall name params format keyData uid flags,
      no_info_prefix
        (mKeyStore (snd (importKey env c name params format keyData uid flags w))))
  /\ (forall srcKey srcUid destKey destUid,
      no_info_prefix (mKeyStore (snd (duplicate env c srcKey srcUid destKey destUid w))))
  /\ (forall name uid params blob,
      no_info_prefix (mKeyStore (snd (upgradeKeyBlob env name uid params blob w))))
  /\ (forall name uid, no_info_prefix (mKeyStore (snd (del env c name uid w))))
  /\ (forall targetUid, no_info_prefix (mKeyStore (snd (clear_uid env c targetUid w)))).
Proof.
  intros Hks. repeat match goal with |- _ /\ _ => split end; intros.
  - apply insert_no_info_prefix; exact Hks.
  - apply generateKey_no_info_prefix; exact Hks.
  - apply importKey_no_info_prefix; exact Hks.
  - apply duplicate_no_info_prefix; exact Hks.
  - apply upgradeKeyBlob_no_info_prefix; exact Hks.
  - apply del_entry_no_info_prefix; exact Hks.
  - apply clear_uid_no_info_prefix; exact Hks.
Qed.

(** C7.  Every blob of a store that the service has written is without an
    info prefix ([stored_blobs_have_no_info_prefix]).  On such a store, when
    [upgradeKeyBlob] reads the old KeymasterBound blob and the device's
    [upgradeKey] succeeds, the old file is deleted and a new blob that holds
    the upgraded key material is persisted under the same name; the new
    blob has the Encrypted, SuperEncrypted, Fallback and
    CriticalToDeviceEncryption flags and the info prefix length of the old
    one; and it is the new blob, as re-read from the store, that is handed
    back to the caller, with NO_ERROR. *)
Theorem upgradeKeyBlob_preserves_flags (name : string) (uid : uid_t)
    (params : AuthorizationSet) (blob old : Blob) (w : World X) (status r : ErrorCode.t)
    (upgradedKeyBlob : bytes) (x' : X) :
  no_info_prefix (mKeyStore w) ->
  KeyStore.getKeyForName (mKeyStore w) blob name uid TYPE_KEYMASTER_10
  = (ResponseCode.NO_ERROR, old) ->
  dev_upgradeKey env (KeyStore.getDevice old) (blob2hidlVec old) params (external w)
  = (Build_HidlReturn status (Some (r, upgradedKeyBlob)), x') ->
  isOk (EC status) = true ->
  isOk (EC r) = true ->
  let '((rc, returned), w') := upgradeKeyBlob env name uid params blob w in
  rc = RC ResponseCode.NO_ERROR
  /\ KeyStore.files (mKeyStore w) !! key_path uid name = Some old
  /\ KeyStore.files (mKeyStore w')
     = <[key_path uid name := returned]>
         (delete (key_path uid name) (KeyStore.files (mKeyStore w)))
  /\ getValue returned = upgradedKeyBlob
  /\ getType returned = TYPE_KEYMASTER_10
  /\ isEncrypted returned = isEncrypted old
  /\ isSuperEncrypted returned = isSuperEncrypted old
  /\ isFallback returned = isFallback old
  /\ isCriticalToDeviceEncryption returned = isCriticalToDeviceEncryption old
  /\ getInfoLength returned = getInfoLength old
  /\ KeyStore.getKeyForName (mKeyStore w') old name uid TYPE_KEYMASTER_10
     = (ResponseCode.NO_ERROR, returned)
  /\ no_info_prefix (mKeyStore w').
Proof.
  intros Hks Hload Hdev Hstatus Hr.
  pose proof (upgradeKeyBlob_spec env name uid params blob old w status r upgradedKeyBlob
                x' Hload Hdev Hstatus Hr) as Hspec.
  cbv zeta in Hspec.
  destruct Hspec as (Hrun & Hreread & Henc & Hsuper & Hfallback & Hcritical & Hinfo).
  pose proof (upgradeKeyBlob_no_info_prefix name uid params blob w Hks) as Hkept.
  rewrite Hrun in *. cbn [fst snd] in Hkept.
  assert (Hfile : KeyStore.files (mKeyStore w) !! key_path uid name = Some old).
  { unfold KeyStore.getKeyForName in Hload. apply get_NO_ERROR in Hload.
    exact (proj1 Hload). }
  repeat match goal with |- _ /\ _ => split end;
    try reflexivity; try assumption.
  rewrite Hinfo. symmetry. exact (Hks _ _ Hfile).
Qed.

End InfoPrefix.

(** ** Update and finish *)

Section UpdateFinish.
Context {X : Type} (env : Env X).

Lemma getOperation_tokens (tk : token_t) (m : OperationMap.t) :
  match OperationMap.getOperation tk m with Some _ => true | None => false end
  = existsb (fun n => match tk with Some k => Nat.eqb n k | None => false end)
      (map op_token (OperationMap.operations m)).
Proof.
  unfold OperationMap.getOperation. induction (OperationMap.operations m) as [|op ops IH].
  - reflexivity.
  - cbn [find map existsb]. unfold OperationMap.is_token at 1.
    destruct tk as [k|]; [|exact IH].
    destruct (Nat.eqb (op_token op) k); [reflexivity|exact IH].
Qed.

Lemma has_operation_tokens (tk : token_t) (w w' : World X) :
  operation_tokens w' = operation_tokens w -> has_operation tk w' = has_operation tk w.
Proof.
  unfold has_operation, operation_tokens. intros H. rewrite !getOperation_tokens, H.
  reflexivity.
Qed.

Lemma setOperationAuthToken_tokens (tk : token_t) (a : option HardwareAuthToken)
    (m : OperationMap.t) :
  map op_token (OperationMap.operations (OperationMap.setOperationAuthToken tk a m))
  = map op_token (OperationMap.operations m).
Proof.
  unfold OperationMap.setOperationAuthToken. cbn. rewrite map_map.
  apply map_ext. intros op. destruct (OperationMap.is_token tk op); reflexivity.
Qed.

Lemma removeOperation_gone (tk : token_t) (m : OperationMap.t) :
  OperationMap.getOperation tk (snd (OperationMap.removeOperation tk m)) = None.
Proof.
  unfold OperationMap.removeOperation.
  destruct (OperationMap.getOperation tk m) eqn:Hget; cbn [snd]; [|exact Hget].
  unfold OperationMap.getOperation. cbn.
  induction (OperationMap.operations m) as [|op ops IH]; [reflexivity|].
  cbn [List.filter]. destruct (OperationMap.is_token tk op) eqn:His; cbn [negb].
  - exact IH.
  - cbn [find]. rewrite His. exact IH.
Qed.

Lemma getAuthToken_world characteristics handle purpose failOnTokenMissing
    (w : World X) r w' :
  getAuthToken env characteristics handle purpose failOnTokenMissing w = (r, w') -> w' = w.
Proof.
  unfold getAuthToken, bind, gets.
  destruct (FindAuthorization env _ _ _ _) as [err tok].
  destruct err; unfold ret; intros H; inversion H; reflexivity.
Qed.

Lemma addOperationAuthTokenIfNeeded_effect (tk : token_t) (params : AuthorizationSet)
    (w : World X) r w' :
  addOperationAuthTokenIfNeeded env tk params w = (r, w') ->
  calls w' = calls w /\ operation_tokens w' = operation_tokens w.
Proof.
  intros Hrun. unfold addOperationAuthTokenIfNeeded in Hrun.
  exec Hrun;
    repeat match goal with
           | H : getAuthToken _ _ _ _ _ _ = _ |- _ => apply getAuthToken_world in H; subst
           end;
    try (split; reflexivity).
  split; [reflexivity|]. unfold operation_tokens. cbn.
  apply setOperationAuthToken_tokens.
Qed.

Lemma addRngEntropy_effect (entropy : bytes) (w : World X) r w' :
  addRngEntropy env entropy w = (r, w') ->
  mOperationMap w' = mOperationMap w /\ calls w' = calls w ++ [Call_addRngEntropy entropy].
Proof.
  intros Hrun. unfold addRngEntropy in Hrun. exec Hrun.
  split; reflexivity.
Qed.

(** [update] never removes an operation, whatever its outcome. *)
Lemma update_keeps_operations (tk : token_t) (params : AuthorizationSet) (input : bytes)
    (result : OperationResult) (w : World X) r w' :
  update env tk params input result w = (r, w') ->
  operation_tokens w' = operation_tokens w.
Proof.
  intros Hrun. unfold update in Hrun.
  exec Hrun;
    repeat match goal with
           | H : addOperationAuthTokenIfNeeded _ _ _ _ = _ |- _ =>
               apply addOperationAuthTokenIfNeeded_effect in H; destruct H as [? ?]
           end;
    try reflexivity; try assumption.
Qed.

Lemma finish_cases (tk : token_t) (params : AuthorizationSet) (signature entropy : bytes)
    (result : OperationResult) (w : World X) r w' :
  finish env tk params signature entropy result w = (r, w') ->
  (has_operation tk w' = false
   /\ exists l dev h p, calls w' = calls w ++ l ++ [Call_finish dev h p [] signature])
  \/ (isOk (resultCode r) = false
      /\ operation_tokens w' = operation_tokens w
      /\ (calls w' = calls w \/ calls w' = calls w ++ [Call_addRngEntropy entropy])).
Proof.
  intros Hrun. unfold finish in Hrun.
  exec Hrun;
    repeat match goal with
           | H : addOperationAuthTokenIfNeeded _ _ _ _ = _ |- _ =>
               apply addOperationAuthTokenIfNeeded_effect in H; destruct H as [? ?]
           | H : addRngEntropy _ _ _ = _ |- _ =>
               apply addRngEntropy_effect in H; destruct H as [? ?]
           end.
  all: try match goal with H : negb true = true |- _ => discriminate H end.
  all: unfold operation_tokens, has_operation, with_mAuthTokenTable, with_mOperationMap in *;
    cbn [mKeyStore mOperationMap mAuthTokenTable external calls] in *.
  all: try (right; split; [first [apply negb_true_iff; assumption | reflexivity]|];
            split; [congruence|]; first [left; congruence | right; congruence]).
  all: left; split; [rewrite removeOperation_gone; reflexivity|].
  all: first
         [ exists [], (op_device o), (op_handle o), a0; cbn [app]; congruence
         | exists [Call_addRngEntropy entropy], (op_device o), (op_handle o), a0;
           match goal with
           | Hc : calls ?w1 = calls ?w ++ _, Hw : calls ?w = calls _ |- _ =>
               rewrite Hc, Hw, <- app_assoc; reflexivity
           end ].
Qed.

(** C5, as amended.  [update] never removes an operation, whether it
    succeeds or fails: the tokens in the operation map are the same before
    and after.  [finish] removes the operation exactly when it gets as far
    as the device's [finish] call, and then regardless of the device's
    result; a [finish] that fails before that (restricted parameters, unknown
    token, auth token resolution, entropy, authorization) reports a failure
    and leaves the operations as they were. *)
Theorem update_finish_removal (tk : token_t) :
  (forall params input result (w : World X),
      let w' := snd (update env tk params input result w) in
      operation_tokens w' = operation_tokens w
      /\ has_operation tk w' = has_operation tk w)
  /\ (forall params signature entropy result (w : World X),
      let '(r, w') := finish env tk params signature entropy result w in
      (has_operation tk w' = false
       /\ exists l dev h p, calls w' = calls w ++ l ++ [Call_finish dev h p [] signature])
      \/ (isOk (resultCode r) = false
          /\ operation_tokens w' = operation_tokens w
          /\ (calls w' = calls w \/ calls w' = calls w ++ [Call_addRngEntropy entropy]))).
Proof.
  split.
  - intros params input result w.
    destruct (update env tk params input result w) as [r w'] eqn:Hrun. cbn [snd].
    apply update_keeps_operations in Hrun. split; [exact Hrun|].
    apply has_operation_tokens. exact Hrun.
  - intros params signature entropy result w.
    destruct (finish env tk params signature entropy result w) as [r w'] eqn:Hrun.
    apply finish_cases in Hrun. exact Hrun.
Qed.

End UpdateFinish.

(** ** The bound on live operations *)

Section Pruning.
Context {X : Type} (env : Env X).

Abbreviation ops w := (OperationMap.operations (mOperationMap w)).

Lemma find_Some_holds {A} (p : A -> bool) (l : list A) (x : A) :
  find p l = Some x -> p x = true /\ In x l.
Proof.
  induction l as [|y l IH]; [discriminate|]. cbn [find].
  destruct (p y) eqn:Hy.
  - intros H. injection H as <-. split; [exact Hy|left; reflexivity].
  - intros H. apply IH in H. destruct H as [Hp Hin]. split; [exact Hp|right; exact Hin].
Qed.

Lemma find_None_existsb {A} (p : A -> bool) (l : list A) :
  find p l = None -> existsb p l = false.
Proof.
  induction l as [|y l IH]; [reflexivity|]. cbn [find existsb].
  destruct (p y); [discriminate|]. exact IH.
Qed.

Lemma filter_length_le {A} (p : A -> bool) (l : list A) :
  (length (List.filter p l) <= length l)%nat.
Proof.
  induction l as [|y l IH]; [reflexivity|]. cbn [List.filter].
  destruct (p y); cbn [length]; lia.
Qed.

Lemma filter_length_lt {A} (p : A -> bool) (l : list A) (x : A) :
  In x l -> p x = false -> (length (List.filter p l) < length l)%nat.
Proof.
  induction l as [|y l IH]; [contradiction|]. intros [->|Hin] Hx; cbn [List.filter].
  - rewrite Hx. pose proof (filter_length_le p l). cbn [length]. lia.
  - specialize (IH Hin Hx). destruct (p y); cbn [length]; lia.
Qed.

Lemma filter_filter_length_le {A} (p q : A -> bool) (l : list A) :
  (length (List.filter q (List.filter p l)) <= length (List.filter q l))%nat.
Proof.
  induction l as [|y l IH]; [reflexivity|]. cbn [List.filter].
  destruct (p y), (q y) eqn:Hq; cbn [List.filter length]; rewrite ?Hq; cbn [length]; lia.
Qed.

Lemma existsb_false_filter {A} (p : A -> bool) (l : list A) :
  existsb p l = false -> List.filter (fun x => negb (p x)) l = l.
Proof.
  induction l as [|y l IH]; [reflexivity|]. cbn [existsb List.filter].
  destruct (p y); [discriminate|]. cbn [orb negb]. intros H. rewrite IH by exact H.
  reflexivity.
Qed.

(** What [abort] does to the operation map. *)
Lemma abort_operations (tk : token_t) (w : World X) r w' :
  abort env tk w = (r, w') ->
  ops w' = List.filter (fun op => negb (OperationMap.is_token tk op)) (ops w)
  /\ OperationMap.next_token (mOperationMap w') = OperationMap.next_token (mOperationMap w).
Proof.
  intros Hrun. unfold abort in Hrun. exec Hrun.
  - unfold OperationMap.removeOperation. rewrite E. cbn. split; reflexivity.
  - split; [|reflexivity].
    unfold OperationMap.getOperation in E.
    symmetry. rewrite <- (existsb_false_filter (OperationMap.is_token tk) (ops w')) at 2.
    + reflexivity.
    + apply find_None_existsb. exact E.
Qed.

(** [pruneOperation] removes the oldest pruneable operation: it answers
    whether there was one, and the operations left are those whose token is
    not the token of the first pruneable operation. *)
Lemma pruneOperation_spec (w : World X) b w' :
  pruneOperation env w = (b, w') ->
  b = OperationMap.hasPruneableOperation (mOperationMap w)
  /\ ops w'
     = List.filter
         (fun op =>
            negb (OperationMap.is_token
                    (OperationMap.getOldestPruneableOperation (mOperationMap w)) op))
         (ops w).
Proof.
  intros Hrun. unfold pruneOperation in Hrun. exec Hrun.
  all: match goal with
       | H : abort _ _ _ = _ |- _ => apply abort_operations in H; destruct H as [Hops Hnext]
       end.
  all: split; [|exact Hops].
  all: unfold OperationMap.getOperationCount, OperationMap.hasPruneableOperation,
         OperationMap.getOldestPruneableOperation in *.
  all: match goal with Hc : (_ <=? _)%nat = _ |- _ => rename Hc into Hcount end.
  all: destruct (find op_pruneable (ops w)) as [oldest|] eqn:Hfind.
  - (* the count did not go down although there is a pruneable operation *)
    apply find_Some_holds in Hfind. destruct Hfind as [Hpr Hin].
    exfalso. apply Nat.leb_le in Hcount. rewrite Hops in Hcount.
    assert (Hx : negb (OperationMap.is_token (Some (op_token oldest)) oldest) = false)
      by (cbn; rewrite Nat.eqb_refl; reflexivity).
    pose proof (filter_length_lt
                  (fun op => negb (OperationMap.is_token (Some (op_token oldest)) op))
                  (ops w) oldest Hin Hx) as Hlt.
    lia.
  - symmetry. apply find_None_existsb. exact Hfind.
  - apply find_Some_holds in Hfind. destruct Hfind as [Hpr Hin].
    symmetry. apply existsb_exists. exists oldest. split; [|exact Hpr].
    exact Hin.
  - exfalso. apply Nat.leb_gt in Hcount. rewrite Hops in Hcount.
    rewrite existsb_false_filter in Hcount; [lia|].
    clear. induction (ops w) as [|y l IH]; [reflexivity|]. exact IH.
Qed.

Lemma pruneOperation_counts (w : World X) b w' :
  pruneOperation env w = (b, w') ->
  (operation_count w' <= operation_count w)%nat
  /\ (nonpruneable_count w' <= nonpruneable_count w)%nat
  /\ (b = true -> (operation_count w' < operation_count w)%nat)
  /\ (b = false -> OperationMap.hasPruneableOperation (mOperationMap w') = false).
Proof.
  intros Hrun. pose proof Hrun as Hspec. apply pruneOperation_spec in Hspec.
  destruct Hspec as [Hb Hops].
  unfold operation_count, nonpruneable_count, OperationMap.getOperationCount.
  rewrite Hops. repeat split.
  - apply filter_length_le.
  - apply filter_filter_length_le.
  - intros ->. symmetry in Hb. unfold OperationMap.hasPruneableOperation in Hb.
    apply existsb_exists in Hb. destruct Hb as [op [Hin Hpr]].
    unfold OperationMap.getOldestPruneableOperation.
    destruct (find op_pruneable (ops w)) as [oldest|] eqn:Hfind.
    + apply find_Some_holds in Hfind. destruct Hfind as [_ Hin'].
      apply (filter_length_lt _ _ oldest Hin'). cbn. rewrite Nat.eqb_refl. reflexivity.
    + apply find_None_existsb in Hfind.
      assert (Hex : existsb op_pruneable (ops w) = true).
      { apply existsb_exists. exists op. auto. }
      congruence.
  - intros ->. symmetry in Hb.
    unfold OperationMap.hasPruneableOperation in *. rewrite Hops.
    rewrite existsb_false_filter.
    + exact Hb.
    + unfold OperationMap.getOldestPruneableOperation.
      destruct (find op_pruneable (ops w)) as [oldest|] eqn:Hfind.
      * apply find_Some_holds in Hfind. destruct Hfind as [Hpr Hin].
        assert (Hex : existsb op_pruneable (ops w) = true).
        { apply existsb_exists. exists oldest. auto. }
        congruence.
      * clear. induction (ops w) as [|y l IH]; [reflexivity|]. exact IH.
Qed.

(** The first loop of [begin]: with fuel beyond the number of operations it
    stops only when fewer than [kMaxOperations] operations are left or
    nothing more can be pruned. *)
Lemma prune_while_full_counts (fuel : nat) (w : World X) u w' :
  prune_while_full env fuel w = (u, w') ->
  (operation_count w' <= operation_count w)%nat
  /\ (nonpruneable_count w' <= nonpruneable_count w)%nat
  /\ ((operation_count w < fuel)%nat ->
      (operation_count w' < kMaxOperations)%nat
      \/ OperationMap.hasPruneableOperation (mOperationMap w') = false).
Proof.
  revert w. induction fuel as [|fuel IH]; intros w Hrun.
  - cbn in Hrun. exec Hrun. repeat split; try lia.
  - cbn [prune_while_full] in Hrun. exec Hrun.
    all: repeat match goal with
                | H : pruneOperation _ _ = _ |- _ => apply pruneOperation_counts in H
                | H : prune_while_full _ _ _ = _ |- _ => apply IH in H
                end.
    + destruct a; [discriminate|]. destruct E0 as (Hc & Hn & _ & Hno).
      repeat split; [exact Hc|exact Hn|]. intros _. right. apply Hno. reflexivity.
    + destruct a; [|discriminate]. destruct E0 as (Hc & Hn & Hlt & _).
      specialize (Hlt eq_refl). destruct Hrun as (Hc' & Hn' & Hpost).
      repeat split; [lia|lia|]. intros Hfuel. apply Hpost. lia.
    + apply Nat.leb_gt in E. repeat split; [lia|lia|]. intros _. left. exact E.
Qed.

(** The second loop of [begin]: it never adds an operation, and with fuel
    beyond the number of operations it stops only when the status is not
    TOO_MANY_OPERATIONS or nothing more can be pruned. *)
Lemma begin_retry_counts (fuel : nat) dev purpose key opParams rc result (w : World X)
    rc' result' w' :
  begin_retry env fuel dev purpose key opParams rc result w = ((rc', result'), w') ->
  (operation_count w' <= operation_count w)%nat
  /\ (nonpruneable_count w' <= nonpruneable_count w)%nat
  /\ ((operation_count w < fuel)%nat ->
      rc' <> ErrorCode.TOO_MANY_OPERATIONS
      \/ OperationMap.hasPruneableOperation (mOperationMap w') = false).
Proof.
  revert rc result w. induction fuel as [|fuel IH]; intros rc result w Hrun.
  - cbn in Hrun. exec Hrun. repeat split; try lia.
  - cbn [begin_retry] in Hrun. exec Hrun.
    all: repeat match goal with
                | H : pruneOperation _ _ = _ |- _ => apply pruneOperation_counts in H
                | H : begin_retry _ _ _ _ _ _ _ _ _ = _ |- _ => apply IH in H
                end.
    all: unfold operation_count, nonpruneable_count in *; cbn [mOperationMap] in *.
    + destruct a; [discriminate|]. destruct E0 as (Hc & Hn & _ & Hno).
      repeat split; [exact Hc|exact Hn|]. intros _. right. apply Hno. reflexivity.
    + destruct a; [|discriminate]. destruct E0 as (Hc & Hn & Hlt & _).
      specialize (Hlt eq_refl). destruct Hrun as (Hc' & Hn' & Hpost).
      repeat split; [lia|lia|]. intros Hfuel. apply Hpost. lia.
    + repeat split; [lia|lia|]. intros _.
      apply andb_false_iff in E. destruct E as [E|E]; [left|right; exact E].
      apply Z.eqb_neq. exact E.
Qed.

Lemma no_pruneable_count (w : World X) :
  OperationMap.hasPruneableOperation (mOperationMap w) = false ->
  operation_count w = nonpruneable_count w.
Proof.
  unfold OperationMap.hasPruneableOperation, operation_count, nonpruneable_count,
    OperationMap.getOperationCount.
  intros H. rewrite existsb_false_filter by exact H. reflexivity.
Qed.

Lemma setOperationAuthToken_count tk a (m : OperationMap.t) :
  OperationMap.getOperationCount (OperationMap.setOperationAuthToken tk a m)
  = OperationMap.getOperationCount m.
Proof.
  unfold OperationMap.getOperationCount, OperationMap.setOperationAuthToken. cbn.
  apply length_map.
Qed.

(** From pruning to registration, [begin] leaves at most [kMaxOperations]
    operations unless the operations that cannot be pruned already fill the
    map. *)
Lemma begin_operation_count appToken purpose pruneable dev key opParams keyid
    characteristics authResult authToken result (w : World X) r w' :
  begin_operation env appToken purpose pruneable dev key opParams keyid characteristics
    authResult authToken result w = (r, w') ->
  (operation_count w' <= Nat.max kMaxOperations (S (nonpruneable_count w)))%nat.
Proof.
  intros Hrun. unfold begin_operation in Hrun. exec Hrun.
  all: repeat match goal with
              | H : prune_while_full _ _ _ = _ |- _ => apply prune_while_full_counts in H
              | H : begin_retry _ _ _ _ _ _ _ _ _ = _ |- _ => apply begin_retry_counts in H
              end.
  all: match goal with
       | Hloop : (operation_count ?w1 <= operation_count ?w0)%nat /\ _ /\ (_ -> _ \/ _),
         Hretry : (operation_count ?w2 <= operation_count _)%nat /\ _ |- _ =>
           destruct Hloop as (Hc & Hn & Hpost);
           destruct Hretry as (Hc' & _);
           assert (Hmid : (operation_count w1 <= Nat.max 14 (nonpruneable_count w0))%nat)
             by (destruct Hpost as [Hlt|Hno];
                 [ unfold operation_count; lia
                 | unfold kMaxOperations in Hlt; lia
                 | apply no_pruneable_count in Hno; lia ]);
           change (operation_count (Build_World _ (mOperationMap w1) _ _ _))
             with (operation_count w1) in Hc'
       end.
  all: unfold kMaxOperations.
  all: try lia.
  all: unfold operation_count at 1; unfold with_mOperationMap; cbn [mOperationMap fst snd];
    unfold OperationMap.addOperation; cbn [fst snd];
    rewrite ?setOperationAuthToken_count; unfold OperationMap.getOperationCount;
    cbn [OperationMap.operations]; rewrite ?length_app; cbn [length];
    unfold operation_count, OperationMap.getOperationCount in *; lia.
Qed.

(** Nothing before the pruning touches the operation map. *)
Lemma getOperationCharacteristics_opmap key dev params out (w : World X) r w' :
  getOperationCharacteristics env key dev params out w = (r, w') ->
  mOperationMap w' = mOperationMap w.
Proof.
  intros Hrun. unfold getOperationCharacteristics in Hrun. cbv zeta in Hrun.
  exec Hrun; reflexivity.
Qed.

Lemma upgradeKeyBlob_hidlCb_opmap name uid blob error cb (w : World X) r w' :
  upgradeKeyBlob_hidlCb name uid blob error cb w = (r, w') ->
  mOperationMap w' = mOperationMap w.
Proof.
  intros Hrun. unfold upgradeKeyBlob_hidlCb in Hrun. cbv zeta in Hrun.
  exec Hrun; reflexivity.
Qed.

Lemma upgradeKeyBlob_opmap name uid params blob (w : World X) r w' :
  upgradeKeyBlob env name uid params blob w = (r, w') ->
  mOperationMap w' = mOperationMap w.
Proof.
  intros Hrun. unfold upgradeKeyBlob in Hrun. cbv zeta in Hrun.
  exec Hrun;
    repeat match goal with
           | H : upgradeKeyBlob_hidlCb _ _ _ _ _ _ = _ |- _ =>
               apply upgradeKeyBlob_hidlCb_opmap in H
           end;
    try reflexivity; try assumption.
Qed.

Lemma begin_reaches_operation c appToken name purpose pruneable params entropy uid result
    (w : World X) r w' :
  begin env c appToken name purpose pruneable params entropy uid result w = (r, w') ->
  mOperationMap w' = mOperationMap w
  \/ exists dev key opParams keyid characteristics authResult authToken result1 w1,
       mOperationMap w1 = mOperationMap w
       /\ begin_operation env appToken purpose pruneable dev key opParams keyid
            characteristics authResult authToken result1 w1 = (r, w').
Proof.
  intros Hrun. unfold begin in Hrun. cbv zeta in Hrun.
  exec Hrun;
    repeat match goal with
           | H : upgradeKeyBlob _ _ _ _ _ _ = _ |- _ => apply upgradeKeyBlob_opmap in H
           | H : getOperationCharacteristics _ _ _ _ _ _ = _ |- _ =>
               apply getOperationCharacteristics_opmap in H
           | H : getAuthToken _ _ _ _ _ _ = _ |- _ => apply getAuthToken_world in H; subst
           | H : addRngEntropy _ _ _ = _ |- _ =>
               apply addRngEntropy_effect in H; destruct H as [? ?]
           end.
  all: try match goal with
           | H : negb false = false |- _ => discriminate H
           | H : negb true = true |- _ => discriminate H
           end.
  all: try (left; cbn [mOperationMap] in *; congruence).
  all: right; do 9 eexists; split; [|exact Hrun]; cbn [mOperationMap] in *; congruence.
Qed.

(** The bound of [kMaxOperations] live operations holds as long as fewer
    than [kMaxOperations] of them are non-pruneable: a [begin] that starts
    with at most 15 operations, fewer than 15 of them non-pruneable, ends
    with at most 15.  In general a [begin] either leaves the operation map
    as it was or ends with at most
    max (15, 1 + the number of non-pruneable operations it started with)
    operations, because pruning stops when nothing is pruneable.
    [pruneOperation] removes the oldest pruneable operation and reports
    whether there was one; the loop before the first device call prunes
    while the count is at least 15, until the count is below 15 or no
    pruneable operation is left; and the loop after it ends with a status
    other than TOO_MANY_OPERATIONS or with no pruneable operation left. *)
Lemma begin_operation_bound (c : Caller) (appToken : nat) (name : string) (purpose : Z)
    (pruneable : bool) (params : AuthorizationSet) (entropy : bytes) (uid : Z)
    (result : OperationResult) (w : World X) :
  let w' := snd (begin env c appToken name purpose pruneable params entropy uid result w) in
  ((operation_count w' <= Nat.max kMaxOperations (S (nonpruneable_count w)))%nat
   \/ mOperationMap w' = mOperationMap w)
  /\ ((operation_count w <= kMaxOperations)%nat ->
      (nonpruneable_count w < kMaxOperations)%nat ->
      (operation_count w' <= kMaxOperations)%nat)
  /\ (let '(pruned, w1) := pruneOperation env w in
      pruned = OperationMap.hasPruneableOperation (mOperationMap w)
      /\ OperationMap.operations (mOperationMap w1)
         = List.filter
             (fun op =>
                negb (OperationMap.is_token
                        (OperationMap.getOldestPruneableOperation (mOperationMap w)) op))
             (OperationMap.operations (mOperationMap w)))
  /\ (let w1 := snd (prune_while_full env (S (operation_count w)) w) in
      (operation_count w1 < kMaxOperations)%nat
      \/ OperationMap.hasPruneableOperation (mOperationMap w1) = false)
  /\ (forall dev key opParams rc result0,
      let '((rc', _), w1) :=
        begin_retry env (S (operation_count w)) dev purpose key opParams rc result0 w in
      rc' <> ErrorCode.TOO_MANY_OPERATIONS
      \/ OperationMap.hasPruneableOperation (mOperationMap w1) = false).
Proof.
  intros w'.
  assert (Hbound :
    (operation_count w' <= Nat.max kMaxOperations (S (nonpruneable_count w)))%nat
    \/ mOperationMap w' = mOperationMap w).
  { subst w'.
    destruct (begin env c appToken name purpose pruneable params entropy uid result w)
      as [r w1] eqn:Hrun. cbn [snd].
    apply begin_reaches_operation in Hrun.
    destruct Hrun as [Hsame|Hop]; [right; exact Hsame|left].
    destruct Hop as (dev & key & opParams & keyid & chars & authResult & authToken
                     & result1 & w0 & Hmap & Hop).
    apply begin_operation_count in Hop.
    unfold nonpruneable_count in *. rewrite <- Hmap. exact Hop. }
  split; [exact Hbound|]. split; [|split; [|split]].
  - intros Hcount Hnon. destruct Hbound as [Hle|Hsame].
    + unfold kMaxOperations in *. lia.
    + unfold operation_count in *. rewrite Hsame. exact Hcount.
  - destruct (pruneOperation env w) as [pruned w1] eqn:Hrun.
    apply pruneOperation_spec in Hrun. exact Hrun.
  - destruct (prune_while_full env (S (operation_count w)) w) as [u w1] eqn:Hrun.
    cbn [snd]. apply prune_while_full_counts in Hrun.
    destruct Hrun as (_ & _ & Hpost). apply Hpost. lia.
  - intros dev key opParams rc result0.
    destruct (begin_retry env (S (operation_count w)) dev purpose key opParams rc result0 w)
      as [[rc' result'] w1] eqn:Hrun.
    apply begin_retry_counts in Hrun.
    destruct Hrun as (_ & _ & Hpost). apply Hpost. lia.
Qed.

End Pruning.

(** ** Too many operations *)

Section NoRetry.
Context {X : Type} (env : Env X).

Lemma prune_while_full_below (fuel : nat) (w : World X) :
  (operation_count w < kMaxOperations)%nat -> prune_while_full env fuel w = (tt, w).
Proof.
  intros Hcount. destruct fuel as [|fuel]; [reflexivity|].
  cbn [prune_while_full]. rewrite bind_run. unfold opmap, gets. cbn [fst snd].
  unfold operation_count in Hcount.
  destruct (Nat.leb_spec kMaxOperations (OperationMap.getOperationCount (mOperationMap w)));
    [lia | reflexivity].
Qed.

Lemma begin_retry_not_entered (fuel : nat) dev purpose key opParams rc result
    (w : World X) :
  rc <> ErrorCode.TOO_MANY_OPERATIONS ->
  begin_retry env fuel dev purpose key opParams rc result w = ((rc, result), w).
Proof.
  intros Hrc. destruct fuel as [|fuel]; [reflexivity|].
  cbn [begin_retry]. rewrite bind_run. unfold opmap, gets. cbn [fst snd].
  destruct (Z.eqb_spec rc ErrorCode.TOO_MANY_OPERATIONS); [contradiction | reflexivity].
Qed.

Lemma begin_operation_registers_last appToken purpose pruneable dev key opParams keyid
    characteristics authResult authToken result (w : World X) :
  hidl_status (fst (dev_begin env dev purpose key opParams (external w))) = ErrorCode.OK ->
  (operation_count w < kMaxOperations)%nat ->
  let '(r, w') :=
    begin_operation env appToken purpose pruneable dev key opParams keyid characteristics
      authResult authToken result w in
  calls w' = calls w ++ [Call_begin dev purpose key opParams]
  /\ token r = Some (OperationMap.next_token (mOperationMap w))
  /\ handle r = handle (begin_hidlCb result
                          (hidl_callback
                             (fst (dev_begin env dev purpose key opParams (external w)))))
  /\ operation_tokens w'
     = operation_tokens w ++ [OperationMap.next_token (mOperationMap w)].
Proof.
  intros Hstatus Hcount.
  destruct (begin_operation env appToken purpose pruneable dev key opParams keyid
              characteristics authResult authToken result w) as [r w'] eqn:Hrun.
  unfold begin_operation in Hrun. cbv zeta in Hrun.
  rewrite bind_run in Hrun. unfold opmap, gets in Hrun. cbn [fst snd] in Hrun.
  rewrite bind_run, (prune_while_full_below _ w Hcount) in Hrun. cbn [fst snd] in Hrun.
  rewrite bind_run, hidl_run in Hrun. cbn [fst snd] in Hrun.
  rewrite bind_run in Hrun. cbn [fst snd mOperationMap] in Hrun.
  rewrite bind_run, begin_retry_not_entered in Hrun
    by (rewrite Hstatus; discriminate).
  cbn [fst snd] in Hrun. rewrite Hstatus in Hrun.
  change (negb (ErrorCode.OK =? ErrorCode.OK)) with false in Hrun. cbv iota in Hrun.
  exec Hrun.
  all: cbn [calls token handle set_token set_resultCode mOperationMap].
  all: repeat split; try reflexivity.
  all: unfold operation_tokens, with_mOperationMap; cbn [mOperationMap].
  all: rewrite ?setOperationAuthToken_tokens.
  all: unfold OperationMap.addOperation; cbn [snd OperationMap.operations].
  all: rewrite map_app; reflexivity.
Qed.

(** Below the limit of [kMaxOperations] and with transactions that go
    through, [begin] prunes nothing, and when it reaches the device it
    registers an operation whatever the device answers through the
    callback: the loop that prunes and retries tests the status of the
    transaction, which is OK, and not the code of the callback. *)
Lemma begin_registers_whatever_device_answers (c : Caller) (appToken : nat)
    (name : string) (purpose : Z) (pruneable : bool) (params : AuthorizationSet)
    (entropy : bytes) (uid : Z) (result : OperationResult) (w : World X) :
  (forall dev purpose key params x,
      hidl_status (fst (dev_begin env dev purpose key params x)) = ErrorCode.OK) ->
  (operation_count w < kMaxOperations)%nat ->
  let '(r, w') :=
    begin env c appToken name purpose pruneable params entropy uid result w in
  mOperationMap w' = mOperationMap w
  \/ (token r = Some (OperationMap.next_token (mOperationMap w))
      /\ operation_tokens w'
         = operation_tokens w ++ [OperationMap.next_token (mOperationMap w)]
      /\ exists dev key opParams,
           last (calls w') = Some (Call_begin dev purpose key opParams)).
Proof.
  intros Hstatus Hcount.
  destruct (begin env c appToken name purpose pruneable params entropy uid result w)
    as [r w'] eqn:Hrun.
  apply begin_reaches_operation in Hrun.
  destruct Hrun as [Hsame|Hop]; [left; exact Hsame | right].
  destruct Hop as (dev & key & opParams & keyid & chars & authResult & authToken
                   & result1 & w1 & Hmap & Hop).
  pose proof (begin_operation_registers_last appToken purpose pruneable dev key opParams
                keyid chars authResult authToken result1 w1 (Hstatus _ _ _ _ _)) as Hreg.
  rewrite Hop in Hreg.
  destruct Hreg as (Hcalls & Htoken & _ & Htokens).
  { unfold operation_count in *. rewrite Hmap. exact Hcount. }
  unfold operation_tokens in *. rewrite Hmap in Htoken, Htokens.
  split; [exact Htoken|]. split; [exact Htokens|].
  exists dev, key, opParams. rewrite Hcalls. apply last_snoc.
Qed.

End NoRetry.

(** C1.  The claim on a device that has room for one operation.  One
    pruneable operation is live and the device is full: it answers the next
    [begin], through its callback, with TOO_MANY_OPERATIONS, while the
    transaction itself goes through.  Pruning the live operation and calling
    the device again would succeed.  [begin] does neither, because the loop
    that prunes and retries tests the status of the transaction and not the
    answer of the device: no operation is aborted, the device is called
    once, the caller gets TOO_MANY_OPERATIONS together with a token, and
    the map holds a second operation, which the device does not know.  The
    last part is about the bound: sixteen non-pruneable calls of [begin] by
    a system caller leave sixteen live operations. *)
Theorem begin_too_many_operations_not_retried :
  let w := one_operation_world small_device_env in
  let key := blob2hidlVec plain_key in
  let run :=
    begin small_device_env app_caller 2 "k" KeyPurpose.SIGN true [] [] UID_SELF
      OperationResult_new w in
  let pruned := snd (pruneOperation small_device_env w) in
  operation_tokens w = [1%nat]
  /\ OperationMap.hasPruneableOperation (mOperationMap w) = true
  /\ dev_begin small_device_env PrimaryDevice KeyPurpose.SIGN key [] (external w)
     = (Build_HidlReturn ErrorCode.OK (Some (ErrorCode.TOO_MANY_OPERATIONS, [], 0)),
        external w)
  /\ operation_tokens pruned = []
  /\ fst (dev_begin small_device_env PrimaryDevice KeyPurpose.SIGN key [] (external pruned))
     = Build_HidlReturn ErrorCode.OK (Some (ErrorCode.OK, [], 7))
  /\ calls (snd run)
     = calls w ++ [Call_getKeyCharacteristics PrimaryDevice key [] [];
                   Call_begin PrimaryDevice KeyPurpose.SIGN key []]
  /\ resultCode (fst run) = EC ErrorCode.TOO_MANY_OPERATIONS
  /\ token (fst run) = Some 2%nat
  /\ operation_tokens (snd run) = [1%nat; 2%nat]
  /\ operation_count
       (begin_n happy_env system_caller false 16 (demo_world plain_files STATE_NO_ERROR))
     = 16%nat.
Proof. vm_compute. repeat split. Qed.

(** ** The legacy surface *)

Lemma translateResultToLegacyResult_spec (result : Z) :
  translateResultToLegacyResult result
  = if 0 <? result then result else RC ResponseCode.SYSTEM_ERROR.
Proof.
  unfold translateResultToLegacyResult.
  destruct (0 <? result) eqn:Hpos; try reflexivity.
  all: try (rewrite Z.gtb_ltb, Hpos; reflexivity).
Qed.

(** C6.  The legacy entry points on concrete inputs.  When the device
    rejects the data of a [sign] with the keymaster error INVALID_ARGUMENT,
    the caller gets SYSTEM_ERROR, as the claim says.  [generate] and
    [get_pubkey] hand the same keymaster error on as it is, and [import_key]
    answers NO_ERROR although [importKey] was refused with PERMISSION_DENIED
    and no key was stored. *)
Theorem legacy_results_untranslated :
  let w := demo_world plain_files STATE_NO_ERROR in
  let legacy_params := push_back (push_back [] Tag.NO_AUTH_REQUIRED 1) Tag.ALGORITHM Algorithm.RSA in
  fst (sign failing_env 2 app_caller "k" [x01] w)
  = Some (Status_fromServiceSpecificError
            (ResponseCode.to_int32 ResponseCode.SYSTEM_ERROR), [])
  /\ fst (generate failing_env app_caller "new" UID_SELF EVP_PKEY_EC (-1) 0 [] w)
     = KeyStoreServiceReturnCode.to_int32 (EC ErrorCode.INVALID_ARGUMENT)
  /\ fst (generate failing_env app_caller "new" UID_SELF EVP_PKEY_EC (-1) 0 [] w)
     <> ResponseCode.to_int32 ResponseCode.SYSTEM_ERROR
  /\ fst (get_pubkey failing_env app_caller "k" w)
     = (Status_fromServiceSpecificError
          (KeyStoreServiceReturnCode.to_int32 (EC ErrorCode.INVALID_ARGUMENT)), None)
  /\ fst (fst (importKey strict_env app_caller "new" legacy_params KeyFormat.PKCS8 [x30]
                 UID_SELF 0 w))
     = ResponseCode.to_int32 ResponseCode.PERMISSION_DENIED
  /\ fst (import_key strict_env app_caller "new" [x30] UID_SELF 0 w)
     = ResponseCode.to_int32 ResponseCode.NO_ERROR
  /\ snd (import_key strict_env app_caller "new" [x30] UID_SELF 0 w) = w.
Proof. vm_compute. repeat split. discriminate. Qed.

(** The size checks of the legacy [generate], for every environment. *)
Lemma generate_switch_key_sizes {X} (env : Env X) (keySize : Z) (args : list (option bytes))
    (params : AuthorizationSet) :
  generate_switch env EVP_PKEY_EC (-1) args params
  = Some (push_back (push_back params Tag.ALGORITHM Algorithm.EC) Tag.KEY_SIZE 256)
  /\ (keySize <> -1 -> keySize < 224 \/ 521 < keySize ->
      generate_switch env EVP_PKEY_EC keySize args params = None)
  /\ generate_switch env EVP_PKEY_RSA (-1) [] params
     = Some (push_back
               (push_back (push_back params Tag.ALGORITHM Algorithm.RSA) Tag.KEY_SIZE 2048)
               Tag.RSA_PUBLIC_EXPONENT RSA_DEFAULT_EXPONENT)
  /\ (keySize <> -1 -> keySize < 512 \/ 4096 < keySize ->
      generate_switch env EVP_PKEY_RSA keySize args params = None)
  /\ (forall keyType, keyType <> EVP_PKEY_EC -> keyType <> EVP_PKEY_RSA ->
      generate_switch env keyType keySize args params = None).
Proof.
  repeat split.
  - intros Hdef Hrange. unfold generate_switch.
    change (EVP_PKEY_EC =? EVP_PKEY_EC) with true. cbv iota zeta.
    destruct (keySize =? -1) eqn:Heq; [apply Z.eqb_eq in Heq; contradiction |].
    unfold EC_MIN_KEY_SIZE, EC_MAX_KEY_SIZE.
    destruct (keySize <? 224) eqn:Hlo; [reflexivity |].
    destruct (keySize >? 521) eqn:Hhi; [reflexivity |].
    apply Z.ltb_ge in Hlo. rewrite Z.gtb_ltb in Hhi. apply Z.ltb_ge in Hhi. lia.
  - intros Hdef Hrange. unfold generate_switch.
    change (EVP_PKEY_RSA =? EVP_PKEY_EC) with false.
    change (EVP_PKEY_RSA =? EVP_PKEY_RSA) with true. cbv iota zeta.
    destruct (keySize =? -1) eqn:Heq; [apply Z.eqb_eq in Heq; contradiction |].
    unfold RSA_MIN_KEY_SIZE, RSA_MAX_KEY_SIZE.
    destruct (keySize <? 512) eqn:Hlo; [reflexivity |].
    destruct (keySize >? 4096) eqn:Hhi; [reflexivity |].
    apply Z.ltb_ge in Hlo. rewrite Z.gtb_ltb in Hhi. apply Z.ltb_ge in Hhi. lia.
  - intros keyType Hec Hrsa. unfold generate_switch.
    destruct (keyType =? EVP_PKEY_EC) eqn:H1; [apply Z.eqb_eq in H1; contradiction |].
    destruct (keyType =? EVP_PKEY_RSA) eqn:H2; [apply Z.eqb_eq in H2; contradiction |].
    reflexivity.
Qed.

(** On a build with 32-bit words an exponent that does not fit is rejected. *)
Lemma generate_switch_exponent_32 {X} (env : Env X) (keySize : Z) (expArg : bytes)
    (params : AuthorizationSet) :
  BN_BITS2 env = 32 ->
  2 ^ 32 <= BN_bin2bn expArg ->
  generate_switch env EVP_PKEY_RSA keySize [Some expArg] params = None.
Proof.
  intros Hbits Hbig. unfold generate_switch.
  change (EVP_PKEY_RSA =? EVP_PKEY_EC) with false.
  change (EVP_PKEY_RSA =? EVP_PKEY_RSA) with true. cbv iota zeta.
  assert (Hword : BN_get_word env (BN_bin2bn expArg) = 4294967295).
  { unfold BN_get_word. rewrite Hbits.
    destruct (BN_bin2bn expArg <? 2 ^ 32) eqn:Hlt; [apply Z.ltb_lt in Hlt; lia | reflexivity]. }
  rewrite Hword. change (4294967295 =? 4294967295) with true.
  destruct (keySize =? -1); [reflexivity |].
  destruct ((keySize <? RSA_MIN_KEY_SIZE) || (keySize >? RSA_MAX_KEY_SIZE)); reflexivity.
Qed.

(** C9.  On a build with 64-bit words the legacy [generate] is called for an
    RSA key of 2048 bits with the public exponent 2^64, nine bytes that do
    not fit in a machine word.  [BN_get_word] answers with the all-ones word
    2^64 - 1, the comparison with 0xFFFFFFFF misses it, and the key is
    generated with the exponent 2^64 - 1 and NO_ERROR.  The same input is
    rejected where words have 32 bits. *)
Theorem generate_rsa_exponent_overflow_accepted :
  let w := demo_world ∅ STATE_NO_ERROR in
  let accepted :=
    [ {| tag := Tag.ALGORITHM; f_integer := Algorithm.RSA; f_blob := [] |};
      {| tag := Tag.KEY_SIZE; f_integer := 2048; f_blob := [] |};
      {| tag := Tag.RSA_PUBLIC_EXPONENT; f_integer := 2 ^ 64 - 1; f_blob := [] |} ] in
  BN_BITS2 happy_env = 64
  /\ BN_bin2bn two_pow_64 = 2 ^ 64
  /\ generate_switch happy_env EVP_PKEY_RSA 2048 [Some two_pow_64] [] = Some accepted
  /\ fst (generate happy_env app_caller "rsa" UID_SELF EVP_PKEY_RSA 2048 0
            [Some two_pow_64] w)
     = ResponseCode.to_int32 ResponseCode.NO_ERROR
  /\ (exists blob,
        KeyStore.files
          (mKeyStore (snd (generate happy_env app_caller "rsa" UID_SELF EVP_PKEY_RSA 2048 0
                             [Some two_pow_64] w)))
          !! key_path 10123 "rsa" = Some blob)
  /\ generate_switch env32 EVP_PKEY_RSA 2048 [Some two_pow_64] [] = None.
Proof.
  cbv zeta. repeat split; try (vm_compute; reflexivity).
  eexists. vm_compute. reflexivity.
Qed.

(** ** Worked instances *)

(** Sixteen non-pruneable [begin] calls by a system caller, starting from
    an empty operation map: every one succeeds, nothing can be pruned, and
    16 operations are live, one more than [kMaxOperations]. *)
Lemma begin_exceeds_limit_nonpruneable :
  let w := begin_n happy_env system_caller false 16 (demo_world plain_files STATE_NO_ERROR) in
  operation_count (demo_world plain_files STATE_NO_ERROR) = 0%nat
  /\ operation_count w = 16%nat
  /\ ~ (operation_count w <= kMaxOperations)%nat.
Proof.
  assert (Hcount :
    operation_count
      (begin_n happy_env system_caller false 16 (demo_world plain_files STATE_NO_ERROR))
    = 16%nat) by (vm_compute; reflexivity).
  cbv zeta. rewrite Hcount. unfold kMaxOperations.
  split; [reflexivity | split; [reflexivity | lia]].
Qed.

(** With pruneable operations the sixteenth [begin] evicts the oldest one
    and the map stays at the limit. *)
Lemma begin_operation_bound_witness :
  (operation_count
     (snd (begin happy_env app_caller 16 "k" KeyPurpose.SIGN true [] [] UID_SELF
             OperationResult_new
             (begin_n happy_env app_caller true 15 (demo_world plain_files STATE_NO_ERROR))))
   <= kMaxOperations)%nat.
Proof.
  pose proof (begin_operation_bound happy_env app_caller 16 "k" KeyPurpose.SIGN true [] []
           UID_SELF OperationResult_new
           (begin_n happy_env app_caller true 15 (demo_world plain_files STATE_NO_ERROR)))
    as Hspec.
  cbv zeta in Hspec.
  destruct Hspec as (_ & Hbound & _).
  apply Hbound.
  - vm_compute. lia.
  - vm_compute. lia.
Defined.

(** The flag derivation on the concrete devices: an auth-bound key that is
    not critical is stored SuperEncrypted. *)
Lemma key_blob_flag_derivation_witness :
  key_persisted 10123 "fresh" [] KEYSTORE_FLAG_NONE
       (snd (generateKey happy_env app_caller "fresh" [] [] UID_SELF KEYSTORE_FLAG_NONE
               (demo_world ∅ STATE_NO_ERROR))).
Proof.
  pose proof (key_blob_flag_derivation happy_env app_caller "fresh" [] [] KeyFormat.PKCS8 []
           UID_SELF KEYSTORE_FLAG_NONE (demo_world ∅ STATE_NO_ERROR)) as Hspec.
  assert (Hgen : forall dev x, callback_invoked (fst (dev_generateKey happy_env dev [] x))).
  { intros dev x. vm_compute. discriminate. }
  assert (Himp : forall dev x,
             callback_invoked (fst (dev_importKey happy_env dev [] KeyFormat.PKCS8 [] x))).
  { intros dev x. vm_compute. discriminate. }
  specialize (Hspec Hgen Himp). cbv zeta in Hspec.
  destruct Hspec as [Hgenerated _].
  apply Hgenerated. vm_compute. reflexivity.
Defined.

(** A [begin] on the auth-bound key of a locked user. *)
Lemma begin_locked_superencrypted_witness :
  begin happy_env app_caller 1 "auth" KeyPurpose.SIGN true [] [] UID_SELF
    OperationResult_new locked_world
  = (set_resultCode (EC ErrorCode.KEY_USER_NOT_AUTHENTICATED) OperationResult_new,
     locked_world).
Proof.
  apply (begin_locked_superencrypted happy_env app_caller 1 "auth" KeyPurpose.SIGN true []
           [] UID_SELF OperationResult_new locked_world auth_bound_key).
  - vm_compute. reflexivity.
  - left. reflexivity.
  - vm_compute. reflexivity.
  - vm_compute. reflexivity.
  - vm_compute. reflexivity.
Defined.

(** C4, counterexample.  The app calls [begin] on a key of the system uid
    without holding a grant for it and passes AUTH_TOKEN among its
    parameters: the grant check comes first and the result is
    PERMISSION_DENIED, not INVALID_ARGUMENT. *)
Lemma begin_restricted_permission_denied :
  let r :=
    resultCode
      (fst (begin strict_env app_caller 1 "k" KeyPurpose.SIGN true [auth_token_param] []
              AID_SYSTEM OperationResult_new (demo_world plain_files STATE_NO_ERROR))) in
  containsTag [auth_token_param] Tag.AUTH_TOKEN = true
  /\ r = RC ResponseCode.PERMISSION_DENIED
  /\ r <> EC ErrorCode.INVALID_ARGUMENT.
Proof. vm_compute. repeat split; discriminate. Qed.

(** An [update] with AUTH_TOKEN among its parameters, on a live operation. *)
Lemma restricted_params_rejected_witness :
  update happy_env (Some 1%nat) [auth_token_param] [x01] OperationResult_new
    (one_operation_world happy_env)
  = (set_resultCode (EC ErrorCode.INVALID_ARGUMENT) OperationResult_new,
     one_operation_world happy_env).
Proof.
  apply (restricted_params_rejected happy_env [auth_token_param]).
  vm_compute. reflexivity.
Defined.

(** C5, counterexample.  The device rejects the input of an [update] on a
    live operation: the caller sees the device's error and the operation is
    still in the map afterwards. *)
Lemma update_failure_keeps_operation :
  let w := one_operation_world failing_env in
  let run := update failing_env (Some 1%nat) [] [x01] OperationResult_new w in
  has_operation (Some 1%nat) w = true
  /\ resultCode (fst run) = EC ErrorCode.INVALID_ARGUMENT
  /\ isOk (resultCode (fst run)) = false
  /\ has_operation (Some 1%nat) (snd run) = true.
Proof. vm_compute. repeat split. Qed.

(** The same run, read through the general statement. *)
Lemma update_finish_removal_witness :
  operation_tokens
    (snd (update failing_env (Some 1%nat) [] [x01] OperationResult_new
            (one_operation_world failing_env)))
  = operation_tokens (one_operation_world failing_env).
Proof.
  apply (update_finish_removal failing_env (Some 1%nat)).
Defined.

(** C7 on a key of the app that is critical to device encryption. *)
Lemma upgradeKeyBlob_preserves_flags_witness :
  isCriticalToDeviceEncryption
    (snd (fst (upgradeKeyBlob happy_env "crit" 10123 [] Blob_empty critical_world)))
  = isCriticalToDeviceEncryption critical_key
  /\ getInfoLength
       (snd (fst (upgradeKeyBlob happy_env "crit" 10123 [] Blob_empty critical_world)))
     = getInfoLength critical_key.
Proof.
  assert (Hstore : no_info_prefix (mKeyStore critical_world)).
  { change (map_Forall (fun (_ : Path) b => getInfoLength b = 0%nat)
              (KeyStore.files (mKeyStore critical_world))).
    apply (bool_decide_unpack _). vm_compute. exact I. }
  pose proof (upgradeKeyBlob_preserves_flags happy_env "crit" 10123 [] Blob_empty
                critical_key critical_world ErrorCode.OK ErrorCode.OK [x04] 0%nat Hstore)
    as Hspec.
  destruct Hspec as (_ & _ & _ & _ & _ & _ & _ & _ & Hcritical & Hinfo & _);
    try (vm_compute; reflexivity).
  split; [exact Hcritical | exact Hinfo].
Defined.

(** C8, counterexample.  The caller is the system uid and the target is the
    app: the app's key is critical to device encryption, and it is deleted
    together with its characteristics. *)
Lemma clear_uid_system_caller_deletes_critical :
  let w' := snd (clear_uid happy_env system_caller 10123 critical_world) in
  get_app_id (callingUid system_caller) = AID_SYSTEM
  /\ checkBinderPermissionSelfOrSystem happy_env system_caller P_CLEAR_UID 10123 = true
  /\ KeyStore.files (mKeyStore critical_world) !! key_path 10123 "crit" = Some critical_key
  /\ isCriticalToDeviceEncryption critical_key = true
  /\ KeyStore.files (mKeyStore w') !! key_path 10123 "crit" = None
  /\ KeyStore.files (mKeyStore w') !! chr_path 10123 "crit" = None.
Proof. vm_compute. repeat split. Qed.

(** Clearing the system uid itself keeps its critical key. *)
Lemma clear_uid_spec_witness :
  KeyStore.files (mKeyStore (snd (clear_uid happy_env system_caller AID_SYSTEM critical_world)))
    !! key_path AID_SYSTEM "crit"
  = Some critical_key.
Proof.
  pose proof (clear_uid_spec happy_env system_caller AID_SYSTEM critical_world) as Hspec.
  cbv zeta in Hspec.
  specialize (Hspec ltac:(vm_compute; reflexivity)).
  destruct (clear_uid happy_env system_caller AID_SYSTEM critical_world) as [r w'].
  destruct Hspec as (_ & Hkeys & _).
  specialize (Hkeys "crit" critical_key ltac:(vm_compute; reflexivity)).
  change (retained (mKeyStore critical_world)
            (getEffectiveUid system_caller (wrap_int32 AID_SYSTEM)) critical_key)
    with true in Hkeys.
  exact (proj1 Hkeys).
Defined.

(** C10, counterexample.  A caller without P_ADD_AUTH hands in an empty
    vector: the answer is PERMISSION_DENIED, not INVALID_ARGUMENT. *)
Lemma addAuthToken_permission_before_size :
  let r := fst (addAuthToken strict_env app_caller [] (demo_world ∅ STATE_NO_ERROR)) in
  length ([] : bytes) <> sizeof_hw_auth_token_t
  /\ r = ResponseCode.to_int32 ResponseCode.PERMISSION_DENIED
  /\ r <> KeyStoreServiceReturnCode.to_int32 (EC ErrorCode.INVALID_ARGUMENT).
Proof. vm_compute. repeat split; discriminate. Qed.

(** A vector one byte short, from a caller who holds the permission. *)
Lemma addAuthToken_spec_witness :
  addAuthToken happy_env system_caller (repeat x00 68) (demo_world ∅ STATE_NO_ERROR)
  = (KeyStoreServiceReturnCode.to_int32 (EC ErrorCode.INVALID_ARGUMENT),
     demo_world ∅ STATE_NO_ERROR).
Proof.
  pose proof (addAuthToken_spec happy_env system_caller (repeat x00 68)
                (demo_world ∅ STATE_NO_ERROR)) as Hspec.
  destruct (addAuthToken happy_env system_caller (repeat x00 68)
              (demo_world ∅ STATE_NO_ERROR)) as [r w'].
  destruct Hspec as (_ & _ & Hbad).
  destruct (Hbad ltac:(vm_compute; reflexivity) ltac:(vm_compute; reflexivity)) as [-> ->].
  reflexivity.
Defined.

(** * Further properties of the service *)

(** ** Live operations: abort, binder death, authorization and begin *)

Section Operations.
Context {X : Type} (env : Env X).

Abbreviation ops w := (OperationMap.operations (mOperationMap w)).

Lemma abort_run (tk : token_t) (w : World X) :
  abort env tk w
  = match OperationMap.getOperation tk (mOperationMap w) with
    | None => (KeyStoreServiceReturnCode.to_int32 (EC ErrorCode.INVALID_OPERATION_HANDLE), w)
    | Some op =>
        (KeyStoreServiceReturnCode.to_int32
           (EC (fst (dev_abort env (op_device op) (op_handle op) (external w)))),
         Build_World (mKeyStore w)
           (snd (OperationMap.removeOperation tk (mOperationMap w)))
           (MarkCompleted env (op_handle op) (mAuthTokenTable w))
           (snd (dev_abort env (op_device op) (op_handle op) (external w)))
           (calls w ++ [Call_abort (op_device op) (op_handle op)]))
    end.
Proof.
  unfold abort. rewrite bind_run. unfold opmap, gets. cbn [fst snd].
  destruct (OperationMap.getOperation tk (mOperationMap w)) as [op|] eqn:Hop.
  - rewrite bind_run, opmap_update_run. cbn [fst snd].
    rewrite bind_run, hidl_run. cbn [fst snd].
    rewrite bind_run. unfold modify, ret. cbn [fst snd].
    unfold with_mAuthTokenTable, with_mOperationMap. cbn. reflexivity.
  - reflexivity.
Qed.

(** X1.  [abort] on a token that names no live operation answers
    INVALID_OPERATION_HANDLE and changes nothing.  On a live operation it
    calls the device's abort once, with the handle of the operation, and
    answers with the code of the device, whatever it is; the operation is
    removed from the map while the others stay in their order, the handle
    is marked completed in the auth token table, and the key store is left
    as it was. *)
Theorem abort_removes_operation (tk : token_t) (w : World X) :
  let '(r, w') := abort env tk w in
  match OperationMap.getOperation tk (mOperationMap w) with
  | None =>
      r = KeyStoreServiceReturnCode.to_int32 (EC ErrorCode.INVALID_OPERATION_HANDLE)
      /\ w' = w
  | Some op =>
      r = KeyStoreServiceReturnCode.to_int32
            (EC (fst (dev_abort env (op_device op) (op_handle op) (external w))))
      /\ has_operation tk w' = false
      /\ ops w' = List.filter (fun o => negb (OperationMap.is_token tk o)) (ops w)
      /\ calls w' = calls w ++ [Call_abort (op_device op) (op_handle op)]
      /\ mAuthTokenTable w' = MarkCompleted env (op_handle op) (mAuthTokenTable w)
      /\ mKeyStore w' = mKeyStore w
  end.
Proof.
  rewrite abort_run.
  destruct (OperationMap.getOperation tk (mOperationMap w)) as [op|] eqn:Hop.
  - split; [reflexivity|]. split.
    + unfold has_operation. cbn [mOperationMap]. rewrite removeOperation_gone. reflexivity.
    + cbn [mOperationMap calls mAuthTokenTable mKeyStore].
      unfold OperationMap.removeOperation. rewrite Hop. cbn. repeat split.
  - split; reflexivity.
Qed.

Lemma filter_filter_and {A} (p q : A -> bool) (l : list A) :
  List.filter q (List.filter p l) = List.filter (fun x => p x && q x) l.
Proof.
  induction l as [|x l IH]; [reflexivity|]. cbn.
  destruct (p x); cbn; [destruct (q x); cbn; rewrite IH; reflexivity | exact IH].
Qed.

Lemma filter_none {A} (p : A -> bool) (l : list A) :
  (forall x, In x l -> p x = false) -> List.filter p l = [].
Proof.
  induction l as [|x l IH]; intros Hall; [reflexivity|].
  cbn. rewrite (Hall x (or_introl eq_refl)). apply IH.
  intros y Hy. apply Hall. right. exact Hy.
Qed.

Lemma binderDied_loop_run (tokens : list token_t) (w : World X) :
  let w' := snd (binderDied_loop env tokens w) in
  ops w'
  = List.filter (fun o => forallb (fun tk => negb (OperationMap.is_token tk o)) tokens) (ops w)
  /\ OperationMap.next_token (mOperationMap w') = OperationMap.next_token (mOperationMap w)
  /\ mKeyStore w' = mKeyStore w.
Proof.
  revert w. induction tokens as [|tk rest IH]; intros w; cbn zeta.
  - cbn. split; [|split; reflexivity].
    induction (ops w) as [|o l IHl]; [reflexivity|]. cbn. rewrite <- IHl. reflexivity.
  - cbn [binderDied_loop]. rewrite bind_run.
    destruct (abort env tk w) as [r w1] eqn:Habort. cbn [fst snd].
    pose proof Habort as Hks. rewrite abort_run in Hks.
    assert (Hstore : mKeyStore w1 = mKeyStore w).
    { destruct (OperationMap.getOperation tk (mOperationMap w));
        injection Hks as _ <-; reflexivity. }
    apply abort_operations in Habort. destruct Habort as [Hops Hnext].
    specialize (IH w1). cbn zeta in IH. destruct IH as (IHops & IHnext & IHks).
    split; [|split; congruence].
    rewrite IHops, Hops, filter_filter_and. reflexivity.
Qed.

Lemma NoDup_map_filter {A B} (f : A -> B) (p : A -> bool) (l : list A) :
  List.NoDup (map f l) -> List.NoDup (map f (List.filter p l)).
Proof.
  induction l as [|x l IH]; cbn; [intros; constructor|].
  intros Hnd. apply NoDup_cons_iff in Hnd as [Hx Hl].
  destruct (p x); cbn; [|exact (IH Hl)].
  apply NoDup_cons_iff. split; [|exact (IH Hl)].
  intros Hin. apply Hx. apply in_map_iff in Hin as (y & Hy & Hin).
  apply filter_In in Hin as [Hin _]. apply in_map_iff. exists y. split; assumption.
Qed.

Lemma NoDup_map_eq {A B} (f : A -> B) (l : list A) (x y : A) :
  List.NoDup (map f l) -> In x l -> In y l -> f x = f y -> x = y.
Proof.
  induction l as [|z l IH]; cbn; [intros _ []|].
  intros Hnd Hx Hy Heq. apply NoDup_cons_iff in Hnd as [Hz Hl].
  destruct Hx as [->|Hx], Hy as [->|Hy].
  - reflexivity.
  - exfalso. apply Hz. rewrite Heq. apply in_map. exact Hy.
  - exfalso. apply Hz. rewrite <- Heq. apply in_map. exact Hx.
  - exact (IH Hl Hx Hy Heq).
Qed.

Lemma getOperation_unique (o : Operation) (m : OperationMap.t) :
  List.NoDup (map op_token (OperationMap.operations m)) ->
  In o (OperationMap.operations m) ->
  OperationMap.getOperation (Some (op_token o)) m = Some o.
Proof.
  intros Hnd Hin. unfold OperationMap.getOperation.
  destruct (find (OperationMap.is_token (Some (op_token o))) (OperationMap.operations m))
    as [o'|] eqn:Hfind.
  - apply find_Some_holds in Hfind as [Htok Hin'].
    cbn in Htok. apply Nat.eqb_eq in Htok.
    f_equal. exact (NoDup_map_eq op_token _ _ _ Hnd Hin' Hin Htok).
  - exfalso. apply find_None_existsb in Hfind.
    assert (Hex : existsb (OperationMap.is_token (Some (op_token o)))
                    (OperationMap.operations m) = true).
    { apply existsb_exists. exists o. split; [exact Hin|]. cbn. apply Nat.eqb_refl. }
    congruence.
Qed.

(** The calls issued by the loop of [binderDied] when the tokens in the map
    are pairwise distinct and [dead] are operations of the map. *)
Lemma binderDied_loop_calls (dead : list Operation) (w : World X) :
  List.NoDup (map op_token (ops w)) ->
  List.NoDup (map op_token dead) ->
  (forall o, In o dead -> In o (ops w)) ->
  calls (snd (binderDied_loop env (map (fun o => Some (op_token o)) dead) w))
  = calls w ++ map (fun o => Call_abort (op_device o) (op_handle o)) dead.
Proof.
  revert w. induction dead as [|d dead IH]; intros w Hnd Hdead Hin.
  - cbn. rewrite app_nil_r. reflexivity.
  - cbn [map binderDied_loop]. rewrite bind_run.
    assert (Hd : In d (ops w)) by (apply Hin; left; reflexivity).
    pose proof (abort_run (Some (op_token d)) w) as Hrun.
    rewrite (getOperation_unique d _ Hnd Hd) in Hrun.
    rewrite Hrun. cbn [fst snd].
    apply NoDup_cons_iff in Hdead as [Hfresh Hdead].
    rewrite IH.
    + cbn [calls]. rewrite <- app_assoc. reflexivity.
    + cbn [mOperationMap]. unfold OperationMap.removeOperation.
      rewrite (getOperation_unique d _ Hnd Hd). cbn [snd OperationMap.operations].
      apply NoDup_map_filter. exact Hnd.
    + exact Hdead.
    + intros o Ho. cbn [mOperationMap]. unfold OperationMap.removeOperation.
      rewrite (getOperation_unique d _ Hnd Hd). cbn [snd OperationMap.operations].
      apply filter_In. split; [apply Hin; right; exact Ho|].
      cbn. apply negb_true_iff. apply Nat.eqb_neq. intros Heq.
      apply Hfresh. rewrite <- Heq. apply in_map. exact Ho.
Qed.

(** X2.  After [binderDied] no operation that was begun under the
    dead binder is left in the map, and the key store is as before.  When
    the tokens of the live operations are pairwise distinct, exactly the
    operations of that binder are removed, and the devices see one abort
    for each of them, oldest first. *)
Theorem binderDied_aborts_operations (who : nat) (w : World X) :
  let w' := snd (binderDied env who w) in
  let dead := List.filter (fun o => Nat.eqb (op_appToken o) who) (ops w) in
  OperationMap.getOperationsForToken who (mOperationMap w') = []
  /\ mKeyStore w' = mKeyStore w
  /\ (List.NoDup (operation_tokens w) ->
      ops w' = List.filter (fun o => negb (Nat.eqb (op_appToken o) who)) (ops w)
      /\ calls w'
         = calls w ++ map (fun o => Call_abort (op_device o) (op_handle o)) dead).
Proof.
  intros w' dead. subst w'. unfold binderDied. rewrite bind_run.
  unfold opmap, gets. cbn [fst snd].
  pose proof (binderDied_loop_run (OperationMap.getOperationsForToken who (mOperationMap w)) w)
    as Hloop.
  cbn zeta in Hloop. destruct Hloop as (Hops & _ & Hks).
  set (w' := snd (binderDied_loop env _ w)) in *.
  assert (Hsurvive : forall o, In o (ops w') -> Nat.eqb (op_appToken o) who = false).
  { intros o Ho. rewrite Hops in Ho. apply filter_In in Ho as [Ho Hall].
    destruct (Nat.eqb (op_appToken o) who) eqn:Happ; [exfalso|reflexivity].
    rewrite forallb_forall in Hall.
    specialize (Hall (Some (op_token o))).
    cbn in Hall. rewrite Nat.eqb_refl in Hall.
    assert (Hfalse : negb true = true); [|discriminate Hfalse].
    apply Hall. unfold OperationMap.getOperationsForToken.
    apply in_map_iff. exists o. split; [reflexivity|].
    apply filter_In. split; assumption. }
  split; [|split; [exact Hks|]].
  - unfold OperationMap.getOperationsForToken.
    rewrite (filter_none _ _ Hsurvive). reflexivity.
  - intros Hnd. unfold operation_tokens in Hnd. split.
    + rewrite Hops. apply filter_ext_in. intros o Ho.
      destruct (Nat.eqb (op_appToken o) who) eqn:Happ; cbn.
      * apply not_true_is_false. intros Hall. rewrite forallb_forall in Hall.
        specialize (Hall (Some (op_token o))).
        cbn in Hall. rewrite Nat.eqb_refl in Hall.
        assert (Hfalse : negb true = true); [|discriminate Hfalse].
        apply Hall. unfold OperationMap.getOperationsForToken.
        apply in_map_iff. exists o. split; [reflexivity|].
        apply filter_In. split; assumption.
      * apply forallb_forall. intros tk Htk.
        unfold OperationMap.getOperationsForToken in Htk.
        apply in_map_iff in Htk as (o' & <- & Ho').
        apply filter_In in Ho' as [Ho' Happ'].
        cbn. apply negb_true_iff. apply Nat.eqb_neq. intros Heq.
        assert (o = o') by exact (NoDup_map_eq op_token _ _ _ Hnd Ho Ho' Heq).
        subst o'. congruence.
    + subst w'. unfold OperationMap.getOperationsForToken.
      rewrite <- (map_map op_token Some).
      rewrite (map_map op_token Some).
      apply binderDied_loop_calls.
      * exact Hnd.
      * apply NoDup_map_filter. exact Hnd.
      * intros o Ho. apply filter_In in Ho as [Ho _]. exact Ho.
Qed.

(** X3.  [isOperationAuthorized] issues no device call and neither
    adds nor removes an operation.  For a token that names no live
    operation the answer is false and nothing changes; for an operation
    whose auth token is cached the answer is true and nothing changes. *)
Theorem isOperationAuthorized_spec (tk : token_t) (w : World X) :
  let '(authorized, w') := isOperationAuthorized env tk w in
  calls w' = calls w
  /\ operation_tokens w' = operation_tokens w
  /\ (has_operation tk w = false -> authorized = false /\ w' = w)
  /\ (forall authToken,
        OperationMap.getOperationAuthToken tk (mOperationMap w) = Some authToken ->
        authorized = true /\ w' = w).
Proof.
  destruct (isOperationAuthorized env tk w) as [authorized w'] eqn:Hrun.
  unfold isOperationAuthorized in Hrun. rewrite bind_run in Hrun.
  unfold opmap, gets in Hrun. cbn [fst snd] in Hrun.
  unfold has_operation, OperationMap.getOperationAuthToken.
  destruct (OperationMap.getOperation tk (mOperationMap w)) as [op|] eqn:Hop.
  - rewrite bind_run in Hrun. unfold opmap, gets in Hrun. cbn [fst snd] in Hrun.
    cbv zeta in Hrun. rewrite bind_run in Hrun.
    destruct (addOperationAuthTokenIfNeeded env tk [] w) as [[authResult ignored] w1] eqn:Hadd.
    cbn [fst snd] in Hrun. unfold ret in Hrun. cbv beta iota in Hrun.
    injection Hrun as <- <-.
    pose proof (addOperationAuthTokenIfNeeded_effect env _ _ _ _ _ Hadd) as [Hcalls Htokens].
    split; [exact Hcalls|]. split; [exact Htokens|]. split; [discriminate|].
    intros authToken Htok.
    unfold addOperationAuthTokenIfNeeded in Hadd. rewrite bind_run in Hadd.
    unfold opmap, gets in Hadd. cbn [fst snd] in Hadd.
    unfold OperationMap.getOperationAuthToken in Hadd. rewrite Hop, Htok in Hadd.
    unfold ret in Hadd. cbv beta iota in Hadd. injection Hadd as <- _ <-.
    split; reflexivity.
  - unfold ret in Hrun. injection Hrun as <- <-.
    repeat split; discriminate.
Qed.

(** X4.  A token that names no live operation is rejected by every
    entry point that takes one: [update] and [finish], called with allowed
    parameters, report INVALID_OPERATION_HANDLE in their result, [abort]
    returns it, and [isOperationAuthorized] answers false.  None of them
    changes the state or reaches a device. *)
Theorem stale_token_rejected (tk : token_t) (w : World X) :
  has_operation tk w = false ->
  (forall params input result,
      checkAllowedOperationParams params = true ->
      update env tk params input result w
      = (set_resultCode (EC ErrorCode.INVALID_OPERATION_HANDLE) result, w))
  /\ (forall params signature entropy result,
      checkAllowedOperationParams params = true ->
      finish env tk params signature entropy result w
      = (set_resultCode (EC ErrorCode.INVALID_OPERATION_HANDLE) result, w))
  /\ abort env tk w
     = (KeyStoreServiceReturnCode.to_int32 (EC ErrorCode.INVALID_OPERATION_HANDLE), w)
  /\ isOperationAuthorized env tk w = (false, w).
Proof.
  unfold has_operation. intros Hgone.
  destruct (OperationMap.getOperation tk (mOperationMap w)) as [op|] eqn:Hop;
    [discriminate|].
  repeat split.
  - intros params input result Hallowed. unfold update. rewrite Hallowed. cbn [negb].
    rewrite bind_run. unfold opmap, gets. cbn [fst snd]. rewrite Hop. reflexivity.
  - intros params signature entropy result Hallowed. unfold finish. rewrite Hallowed.
    cbn [negb]. rewrite bind_run. unfold opmap, gets. cbn [fst snd]. rewrite Hop.
    reflexivity.
  - rewrite abort_run, Hop. reflexivity.
  - unfold isOperationAuthorized. rewrite bind_run. unfold opmap, gets. cbn [fst snd].
    rewrite Hop. reflexivity.
Qed.

(** X5.  [begin] answers PERMISSION_DENIED, and does nothing else,
    when the key is not granted to the caller, and when an operation that
    cannot be pruned is asked for by a caller other than the system.  Past
    these checks and with allowed parameters, a key blob that cannot be
    loaded makes [begin] answer with the code of the load and leave the
    state as it was; the one exception is LOCKED on a super-encrypted
    blob. *)
Theorem begin_rejections (c : Caller) (appToken : nat) (name : string) (purpose : Z)
    (pruneable : bool) (params : AuthorizationSet) (entropy : bytes) (uid : Z)
    (result : OperationResult) (w : World X) :
  (is_granted_to env (callingUid c) (getEffectiveUid c uid) = false
   \/ (pruneable = false /\ get_app_id (callingUid c) <> AID_SYSTEM) ->
   begin env c appToken name purpose pruneable params entropy uid result w
   = (set_resultCode (RC ResponseCode.PERMISSION_DENIED) result, w))
  /\ (forall rc keyBlob,
      is_granted_to env (callingUid c) (getEffectiveUid c uid) = true ->
      pruneable = true \/ get_app_id (callingUid c) = AID_SYSTEM ->
      checkAllowedOperationParams params = true ->
      KeyStore.getKeyForName (mKeyStore w) Blob_empty name (getEffectiveUid c uid)
        TYPE_KEYMASTER_10 = (rc, keyBlob) ->
      rc <> ResponseCode.NO_ERROR ->
      rc <> ResponseCode.LOCKED \/ isSuperEncrypted keyBlob = false ->
      begin env c appToken name purpose pruneable params entropy uid result w
      = (set_resultCode (RC rc) result, w)).
Proof.
  split.
  - intros Hdenied. unfold begin. cbv zeta.
    destruct (is_granted_to env (callingUid c) (getEffectiveUid c uid)) eqn:Hgrant;
      cbn [negb]; [|reflexivity].
    destruct Hdenied as [Hfalse | [-> Hsys]]; [discriminate|].
    cbn [negb andb].
    destruct (get_app_id (callingUid c) =? AID_SYSTEM) eqn:Heq;
      [apply Z.eqb_eq in Heq; contradiction | reflexivity].
  - intros rc keyBlob Hgrant Hprune Hallowed Hload Hrc Hgate.
    assert (Hsys : negb pruneable && negb (get_app_id (callingUid c) =? AID_SYSTEM) = false).
    { destruct Hprune as [-> | ->]; [reflexivity|].
      change (AID_SYSTEM =? AID_SYSTEM) with true. apply andb_false_r. }
    unfold begin. cbv zeta. rewrite Hgrant, Hsys, Hallowed. cbn [negb].
    rewrite bind_run. unfold keystore, gets. cbn [fst snd]. rewrite Hload.
    cbv beta iota. cbn [resultCode set_resultCode].
    assert (Hnot :
      KeyStoreServiceReturnCode.eqResponseCode (RC rc) ResponseCode.LOCKED
      && isSuperEncrypted keyBlob = false).
    { destruct Hgate as [Hne | ->]; [|apply andb_false_r].
      destruct rc; try reflexivity. contradiction. }
    rewrite Hnot.
    cbn [resultCode set_resultCode].
    assert (Hfail : isOk (RC rc) = false) by (destruct rc; try reflexivity; contradiction).
    rewrite Hfail. reflexivity.
Qed.

Lemma pruned_from_refl (w : World X) : pruned_from w w.
Proof. split; [reflexivity | intros o Ho; exact Ho]. Qed.

Lemma pruned_from_trans (w1 w2 w3 : World X) :
  pruned_from w1 w2 -> pruned_from w2 w3 -> pruned_from w1 w3.
Proof.
  intros [Hn1 Hi1] [Hn2 Hi2]. split; [congruence|]. intros o Ho. apply Hi1, Hi2, Ho.
Qed.

Lemma pruneOperation_frame (w : World X) b w' :
  pruneOperation env w = (b, w') -> pruned_from w w'.
Proof.
  intros Hrun. unfold pruneOperation in Hrun. exec Hrun.
  all: match goal with
       | H : abort _ _ _ = _ |- _ => apply abort_operations in H; destruct H as [Hops Hnext]
       end.
  all: split; [exact Hnext|]; intros o Ho; rewrite Hops in Ho;
    apply filter_In in Ho as [Ho _]; exact Ho.
Qed.

Lemma prune_while_full_frame (fuel : nat) (w : World X) u w' :
  prune_while_full env fuel w = (u, w') -> pruned_from w w'.
Proof.
  revert w u w'. induction fuel as [|fuel IH]; intros w u w' Hrun.
  - cbn in Hrun. unfold ret in Hrun. injection Hrun as _ <-. apply pruned_from_refl.
  - cbn [prune_while_full] in Hrun. exec Hrun.
    all: try apply pruned_from_refl.
    all: match goal with
         | H : pruneOperation _ _ = _ |- _ => apply pruneOperation_frame in H
         end.
    + assumption.
    + eapply pruned_from_trans; [eassumption|]. eapply IH. eassumption.
Qed.

Lemma begin_hidlCb_token (result : OperationResult) cb :
  token (begin_hidlCb result cb) = token result.
Proof.
  unfold begin_hidlCb. destruct cb as [[[r outParams] operationHandle]|]; [|reflexivity].
  destruct (negb (isOk (EC r))); reflexivity.
Qed.

Lemma begin_retry_frame (fuel : nat) dev purpose key opParams rc result (w : World X)
    rc' result' w' :
  begin_retry env fuel dev purpose key opParams rc result w = ((rc', result'), w') ->
  pruned_from w w' /\ token result' = token result.
Proof.
  revert rc result w rc' result' w'. induction fuel as [|fuel IH];
    intros rc result w rc' result' w' Hrun.
  - cbn in Hrun. unfold ret in Hrun. injection Hrun as _ <- <-.
    split; [apply pruned_from_refl | reflexivity].
  - cbn [begin_retry] in Hrun. exec Hrun.
    all: try (split; [apply pruned_from_refl | reflexivity]).
    all: match goal with
         | H : pruneOperation _ _ = _ |- _ => apply pruneOperation_frame in H
         end.
    + split; [assumption | reflexivity].
    + apply IH in Hrun. destruct Hrun as [Hframe Htok].
      rewrite begin_hidlCb_token in Htok. split; [|exact Htok].
      eapply pruned_from_trans; [eassumption|].
      destruct Hframe as [Hn Hi]. split; [exact Hn | exact Hi].
Qed.

Lemma begin_operation_registers appToken purpose pruneable dev key opParams keyid
    characteristics authResult authToken result (w : World X) r w' :
  begin_operation env appToken purpose pruneable dev key opParams keyid characteristics
    authResult authToken result w = (r, w') ->
  registered appToken purpose pruneable (token result) w r w'.
Proof.
  intros Hrun. unfold begin_operation in Hrun. exec Hrun.
  all: repeat match goal with
              | H : prune_while_full _ _ _ = _ |- _ => apply prune_while_full_frame in H
              | H : begin_retry _ _ _ _ _ _ _ _ _ = _ |- _ =>
                  apply begin_retry_frame in H; destruct H as [? ?]
              end.
  all: repeat match goal with
              | H : pruned_from _ _ |- _ => destruct H as [? ?]
              end.
  all: cbn [mOperationMap] in *.
  all: rewrite ?begin_hidlCb_token in *.
  - left. split; [cbn [token set_resultCode]; assumption|].
    split; [congruence|]. auto.
  - right. unfold with_mOperationMap, OperationMap.setOperationAuthToken.
    cbn [mOperationMap OperationMap.operations OperationMap.next_token token handle
         set_resultCode set_token].
    split; [congruence|]. split; [congruence|].
    rewrite map_app. cbn [map OperationMap.is_token op_token]. rewrite Nat.eqb_refl.
    eexists. split; [apply last_snoc|]. cbn. repeat split. congruence.
  - right. unfold with_mOperationMap, OperationMap.setOperationAuthToken.
    cbn [mOperationMap OperationMap.operations OperationMap.next_token token handle
         set_resultCode set_token].
    split; [congruence|]. split; [congruence|].
    rewrite map_app. cbn [map OperationMap.is_token op_token]. rewrite Nat.eqb_refl.
    eexists. split; [apply last_snoc|]. cbn. repeat split. congruence.
  - right. unfold with_mOperationMap.
    cbn [mOperationMap OperationMap.operations OperationMap.next_token token handle
         set_resultCode set_token].
    split; [congruence|]. split; [congruence|].
    eexists. split; [apply last_snoc|]. cbn. repeat split. congruence.
  - right. unfold with_mOperationMap.
    cbn [mOperationMap OperationMap.operations OperationMap.next_token token handle
         set_resultCode set_token].
    split; [congruence|]. split; [congruence|].
    eexists. split; [apply last_snoc|]. cbn. repeat split. congruence.
Qed.

Lemma registered_same_map appToken purpose pruneable token0 (w w1 : World X) r w' :
  mOperationMap w1 = mOperationMap w ->
  registered appToken purpose pruneable token0 w1 r w' ->
  registered appToken purpose pruneable token0 w r w'.
Proof.
  unfold registered, pruned_from. intros ->. exact (fun H => H).
Qed.

Lemma begin_registered c appToken name purpose pruneable params entropy uid result
    (w : World X) r w' :
  begin env c appToken name purpose pruneable params entropy uid result w = (r, w') ->
  registered appToken purpose pruneable (token result) w r w'.
Proof.
  intros Hrun. unfold begin in Hrun. cbv zeta in Hrun.
  exec Hrun;
    repeat match goal with
           | H : upgradeKeyBlob _ _ _ _ _ _ = _ |- _ => apply upgradeKeyBlob_opmap in H
           | H : getOperationCharacteristics _ _ _ _ _ _ = _ |- _ =>
               apply getOperationCharacteristics_opmap in H
           | H : getAuthToken _ _ _ _ _ _ = _ |- _ => apply getAuthToken_world in H; subst
           | H : addRngEntropy _ _ _ = _ |- _ =>
               apply addRngEntropy_effect in H; destruct H as [? ?]
           end.
  all: try match goal with
           | H : negb false = false |- _ => discriminate H
           | H : negb true = true |- _ => discriminate H
           end.
  all: repeat match goal with
              | |- context [if ?b then set_resultCode _ _ else _] => destruct b
              | H : context [if ?b then set_resultCode _ _ else _] |- _ => destruct b
              end.
  all: try (left; split; [reflexivity|]; apply pruned_from_refl).
  all: try (left; split; [reflexivity|]; cbn [mOperationMap] in *;
            match goal with
            | |- pruned_from ?wa ?wb =>
                assert (Hsame : mOperationMap wb = mOperationMap wa)
                  by (cbn [mOperationMap] in *; congruence);
                unfold pruned_from; rewrite Hsame; split; [reflexivity | intros ? Ho; exact Ho]
            end).
  all: apply begin_operation_registers in Hrun.
  all: cbn [token set_resultCode] in Hrun.
  all: eapply registered_same_map; [|exact Hrun]; cbn [mOperationMap] in *; congruence.
Qed.

(** X6.  [begin] is called with a result whose token is null.  When
    the result comes back with a token, it is the next token of the map,
    the counter has moved by one, and the operation is live: it is the last
    one of the map and carries the caller's binder, purpose and pruneable
    flag and the handle that the result reports.  When the result comes
    back without a token, the counter has not moved and the map holds no
    operation that it did not hold before. *)
Theorem begin_registers_operation (c : Caller) (appToken : nat) (name : string)
    (purpose : Z) (pruneable : bool) (params : AuthorizationSet) (entropy : bytes) (uid : Z)
    (result : OperationResult) (w : World X) :
  token result = None ->
  let '(r, w') := begin env c appToken name purpose pruneable params entropy uid result w in
  match token r with
  | Some t =>
      t = OperationMap.next_token (mOperationMap w)
      /\ OperationMap.next_token (mOperationMap w') = S t
      /\ has_operation (Some t) w' = true
      /\ exists op,
           last (ops w') = Some op
           /\ op_token op = t /\ op_appToken op = appToken /\ op_purpose op = purpose
           /\ op_pruneable op = pruneable /\ op_handle op = handle r
  | None =>
      OperationMap.next_token (mOperationMap w') = OperationMap.next_token (mOperationMap w)
      /\ forall o, In o (ops w') -> In o (ops w)
  end.
Proof.
  intros Hfresh.
  destruct (begin env c appToken name purpose pruneable params entropy uid result w)
    as [r w'] eqn:Hrun.
  apply begin_registered in Hrun. rewrite Hfresh in Hrun.
  destruct Hrun as [[-> Hframe] | (-> & Hnext & op & Hlast & Htok & Hrest)].
  - exact Hframe.
  - split; [reflexivity|]. split; [exact Hnext|]. split; [|exists op; auto].
    unfold has_operation.
    destruct (OperationMap.getOperation
                (Some (OperationMap.next_token (mOperationMap w))) (mOperationMap w'))
      eqn:Hget; [reflexivity|].
    exfalso. unfold OperationMap.getOperation in Hget.
    apply find_None_existsb in Hget.
    assert (Hex : existsb
              (OperationMap.is_token (Some (OperationMap.next_token (mOperationMap w))))
              (ops w') = true).
    { apply existsb_exists. exists op. split.
      - apply last_Some in Hlast as [l' ->]. apply in_or_app. right. left. reflexivity.
      - cbn. rewrite Htok. apply Nat.eqb_refl. }
    congruence.
Qed.

Lemma getOperationAuthToken_set (tk : token_t) (a : option HardwareAuthToken)
    (m : OperationMap.t) (op : Operation) :
  OperationMap.getOperation tk m = Some op ->
  OperationMap.getOperationAuthToken tk (OperationMap.setOperationAuthToken tk a m) = a.
Proof.
  unfold OperationMap.getOperationAuthToken, OperationMap.getOperation,
    OperationMap.setOperationAuthToken. cbn [OperationMap.operations].
  induction (OperationMap.operations m) as [|o l IH]; cbn [find map]; [discriminate|].
  destruct (OperationMap.is_token tk o) eqn:Htok.
  - intros _. assert (Hset : OperationMap.is_token tk (OperationMap.set_authToken a o) = true)
      by (destruct tk; exact Htok).
    rewrite Hset. reflexivity.
  - rewrite Htok. exact IH.
Qed.

(** X7.  [addOperationAuthTokenIfNeeded] answers with one of four
    codes.  When the code is not NO_ERROR, the parameters and the state are
    as before.  On NO_ERROR the parameters are the caller's with the auth
    token of the operation added, and once a token is cached for the
    operation, every later call succeeds from the cache and changes
    nothing. *)
Theorem operation_auth_token_cached (tk : token_t) (params : AuthorizationSet) (w : World X) :
  let '((rc, params'), w') := addOperationAuthTokenIfNeeded env tk params w in
  let cached := OperationMap.getOperationAuthToken tk (mOperationMap w') in
  (rc = RC ResponseCode.NO_ERROR \/ rc = EC ErrorCode.KEY_USER_NOT_AUTHENTICATED
   \/ rc = EC ErrorCode.INVALID_OPERATION_HANDLE \/ rc = EC ErrorCode.INVALID_ARGUMENT)
  /\ (rc <> RC ResponseCode.NO_ERROR -> params' = params /\ w' = w)
  /\ (rc = RC ResponseCode.NO_ERROR ->
      params' = addAuthTokenToParams env params cached
      /\ (cached <> None ->
          forall params2,
            addOperationAuthTokenIfNeeded env tk params2 w'
            = ((RC ResponseCode.NO_ERROR, addAuthTokenToParams env params2 cached), w'))).
Proof.
  destruct (addOperationAuthTokenIfNeeded env tk params w) as [[rc params'] w'] eqn:Hrun.
  cbv zeta.
  assert (Hagain : forall tok (w1 : World X) params2,
            OperationMap.getOperationAuthToken tk (mOperationMap w1) = Some tok ->
            addOperationAuthTokenIfNeeded env tk params2 w1
            = ((RC ResponseCode.NO_ERROR, addAuthTokenToParams env params2 (Some tok)), w1)).
  { intros tok w1 params2 Htok. unfold addOperationAuthTokenIfNeeded.
    rewrite bind_run. unfold opmap, gets. cbn [fst snd]. rewrite Htok. reflexivity. }
  unfold addOperationAuthTokenIfNeeded, getAuthToken in Hrun. cbv zeta in Hrun.
  exec Hrun.
  all: try (split; [auto|]; split; [intros _; split; reflexivity | discriminate]).
  all: split; [left; reflexivity|]; split; [intros Hne; contradiction|]; intros _.
  all: unfold with_mOperationMap; cbn [mOperationMap].
  all: try match goal with
           | Hop : OperationMap.getOperation ?t _ = Some ?op
             |- context [OperationMap.setOperationAuthToken ?t ?a _] =>
               rewrite (getOperationAuthToken_set t a _ op Hop)
           end.
  all: try match goal with
           | H : OperationMap.getOperationAuthToken _ _ = _ |- _ => rewrite H
           end.
  all: split; [reflexivity|].
  all: try (intros Hne; contradiction).
  all: intros _ params2; apply Hagain; try assumption.
  all: cbn [mOperationMap];
    match goal with
    | Hop : OperationMap.getOperation ?t _ = Some ?op |- _ =>
        apply (getOperationAuthToken_set t _ _ op Hop)
    end.
Qed.

End Operations.

(** ** Keymaster keys: creation, characteristics, export and upgrade *)

Section Keys.
Context {X : Type} (env : Env X).

Lemma checkBinderPermissionAndKeystoreState_world (c : Caller) (permission : perm_t)
    (targetUid : Z) (checkUnlocked : bool) (w : World X) :
  snd (checkBinderPermissionAndKeystoreState env c permission targetUid checkUnlocked w) = w.
Proof.
  unfold checkBinderPermissionAndKeystoreState.
  destruct (negb (checkBinderPermission env c permission targetUid)); [reflexivity|].
  rewrite bind_run. unfold keystore, gets. cbn [fst snd].
  destruct (checkUnlocked && _); reflexivity.
Qed.

Lemma checkBinderPermissionAndKeystoreState_run (c : Caller) (permission : perm_t)
    (targetUid : Z) (checkUnlocked : bool) (w : World X) rc w' :
  checkBinderPermissionAndKeystoreState env c permission targetUid checkUnlocked w = (rc, w') ->
  w' = w.
Proof.
  intros Hrun. rewrite <- (checkBinderPermissionAndKeystoreState_world c permission
                             targetUid checkUnlocked w).
  rewrite Hrun. reflexivity.
Qed.

(** X8.  [generateKey] and [importKey] refuse a key that is flagged
    critical to device encryption when its target is not the system uid,
    and [generateKey] refuses the parameter INCLUDE_UNIQUE_ID from a caller
    without P_GEN_UNIQUE_ID.  The answer is the code of the check of the
    caller's permission and of the keystore state when that check fails,
    and PERMISSION_DENIED otherwise; no key is returned, nothing is stored
    and no device is called. *)
Theorem privileged_key_requests_denied (c : Caller) (name : string)
    (params : AuthorizationSet) (entropy : bytes) (format : Z) (keyData : bytes)
    (uid flags : Z) (w : World X) :
  let target := wrap_int32 (getEffectiveUid c uid) in
  let rc :=
    fst (checkBinderPermissionAndKeystoreState env c P_INSERT target
           (has_flag flags KEYSTORE_FLAG_ENCRYPTED) w) in
  let denied :=
    (KeyStoreServiceReturnCode.to_int32
       (if isOk rc then RC ResponseCode.PERMISSION_DENIED else rc),
     @None KeyCharacteristics, w) in
  (has_flag flags KEYSTORE_FLAG_CRITICAL_TO_DEVICE_ENCRYPTION = true ->
   get_app_id (cast_uid_t target) <> AID_SYSTEM ->
   generateKey env c name params entropy uid flags w = denied
   /\ importKey env c name params format keyData uid flags w = denied)
  /\ (containsTag params Tag.INCLUDE_UNIQUE_ID = true ->
      checkBinderPermission env c P_GEN_UNIQUE_ID UID_SELF = false ->
      generateKey env c name params entropy uid flags w = denied).
Proof.
  intros target rc denied. subst denied rc.
  pose proof (checkBinderPermissionAndKeystoreState_world c P_INSERT target
                (has_flag flags KEYSTORE_FLAG_ENCRYPTED) w) as Hworld.
  destruct (checkBinderPermissionAndKeystoreState env c P_INSERT target
              (has_flag flags KEYSTORE_FLAG_ENCRYPTED) w) as [rc w1] eqn:Hcheck.
  cbn [fst snd] in *. subst w1.
  split.
  - intros Hcrit Hsys.
    assert (Hgate : has_flag flags KEYSTORE_FLAG_CRITICAL_TO_DEVICE_ENCRYPTION
                    && negb (get_app_id (cast_uid_t target) =? AID_SYSTEM) = true).
    { rewrite Hcrit. cbn [andb]. apply negb_true_iff. apply Z.eqb_neq. exact Hsys. }
    split.
    + unfold generateKey. cbv zeta. fold target. rewrite bind_run, Hcheck. cbn [fst snd].
      destruct (isOk rc); cbn [negb]; [|reflexivity]. rewrite Hgate. reflexivity.
    + unfold importKey. cbv zeta. fold target. rewrite bind_run, Hcheck. cbn [fst snd].
      destruct (isOk rc); cbn [negb]; [|reflexivity]. rewrite Hgate. reflexivity.
  - intros Htag Hperm.
    unfold generateKey. cbv zeta. fold target. rewrite bind_run, Hcheck. cbn [fst snd].
    destruct (isOk rc); cbn [negb]; [|reflexivity].
    destruct (has_flag flags KEYSTORE_FLAG_CRITICAL_TO_DEVICE_ENCRYPTION
              && negb (get_app_id (cast_uid_t target) =? AID_SYSTEM)); [reflexivity|].
    rewrite Htag, Hperm. reflexivity.
Qed.

Lemma addRngEntropy_run (entropy : bytes) (w : World X) :
  addRngEntropy env entropy w
  = (KeyStoreServiceReturnCode.to_int32 (EC (fst (dev_addRngEntropy env entropy (external w)))),
     Build_World (mKeyStore w) (mOperationMap w) (mAuthTokenTable w)
       (snd (dev_addRngEntropy env entropy (external w)))
       (calls w ++ [Call_addRngEntropy entropy])).
Proof. unfold addRngEntropy. rewrite bind_run, hidl_run. reflexivity. Qed.

(** The key blob that the callback of [generateKey] writes. *)
Lemma generateKey_hidl_cb_stores name params uid flags usingFallback error out cb
    (w : World X) error' out' w' :
  generateKey_hidl_cb name params uid flags usingFallback error out cb w
  = ((error', out'), w') ->
  (cb = None /\ error' = error /\ out' = out /\ w' = w)
  \/ (exists r, isOk (EC r) = false /\ error' = EC r /\ out' = out /\ w' = w)
  \/ (exists keyBlob,
        out' <> None /\ error' = RC ResponseCode.NO_ERROR
        /\ w' = with_mKeyStore
                  (KeyStore.with_files
                     (<[key_path (cast_uid_t uid) name := keyBlob]>
                        (KeyStore.files (mKeyStore w))) (mKeyStore w)) w
        /\ getType keyBlob = TYPE_KEYMASTER_10
        /\ isFallback keyBlob = usingFallback
        /\ isEncrypted keyBlob = has_flag flags KEYSTORE_FLAG_ENCRYPTED).
Proof.
  unfold generateKey_hidl_cb. intros Hrun.
  destruct cb as [[[r hidlKeyBlob] keyCharacteristics]|].
  - destruct (isOk (EC r)) eqn:Hr; cbn [negb] in Hrun.
    + right. right. cbv zeta in Hrun. rewrite bind_run, keystore_update_run in Hrun.
      cbn [fst snd] in Hrun. unfold ret, KeyStore.put in Hrun. cbn [fst snd] in Hrun.
      injection Hrun as <- <- <-.
      eexists. split; [discriminate|]. split; [reflexivity|]. split; [reflexivity|].
      destruct (isAuthenticationBound params && _); cbn; repeat split.
    + right. left. unfold ret in Hrun. injection Hrun as <- <- <-.
      exists r. repeat split. exact Hr.
  - left. unfold ret in Hrun. injection Hrun as <- <- <-. repeat split.
Qed.

Lemma write_characteristics_stores name params uid flags usingFallback (w : World X) r w' :
  write_characteristics env name params uid flags usingFallback w = (r, w') ->
  r = ResponseCode.to_int32 ResponseCode.NO_ERROR ->
  exists charBlob,
    w' = with_mKeyStore
           (KeyStore.with_files
              (<[chr_path (cast_uid_t uid) name := charBlob]>
                 (KeyStore.files (mKeyStore w))) (mKeyStore w)) w
    /\ getType charBlob = TYPE_KEY_CHARACTERISTICS
    /\ Serialize env params = Some (getValue charBlob)
    /\ isFallback charBlob = usingFallback
    /\ isEncrypted charBlob = has_flag flags KEYSTORE_FLAG_ENCRYPTED.
Proof.
  unfold write_characteristics. intros Hrun Hr. cbv zeta in Hrun.
  destruct (Serialize env params) as [kc_buf|] eqn:Hser.
  - rewrite bind_run, keystore_update_run in Hrun. cbn [fst snd] in Hrun.
    unfold ret, KeyStore.put in Hrun. cbn [fst snd] in Hrun. injection Hrun as _ <-.
    eexists. split; [reflexivity|]. cbn. repeat split.
  - unfold ret in Hrun. injection Hrun as <- _. discriminate Hr.
Qed.

(** X9.  When the devices invoke their callback and
    [generateKey] returns NO_ERROR, the last device call is a [generateKey]
    with the caller's parameters, and the files of the store are those of
    before plus two for the alias under the target uid: the key blob, of
    type KEYMASTER_10, bound to the device that generated it and encrypted
    as the flags say, and the characteristics blob, which holds the
    serialised parameters and the same fallback and encryption flags.  The
    characteristics of the key are returned. *)
Theorem generateKey_creates_key_files (c : Caller) (name : string)
    (params : AuthorizationSet) (entropy : bytes) (uid flags : Z) (w : World X) :
  (forall dev x, callback_invoked (fst (dev_generateKey env dev params x))) ->
  let owner := cast_uid_t (wrap_int32 (getEffectiveUid c uid)) in
  let '((r, out), w') := generateKey env c name params entropy uid flags w in
  r = ResponseCode.to_int32 ResponseCode.NO_ERROR ->
  exists dev keyBlob charBlob,
    last (calls w') = Some (Call_generateKey dev params)
    /\ KeyStore.files (mKeyStore w')
       = <[chr_path owner name := charBlob]>
           (<[key_path owner name := keyBlob]> (KeyStore.files (mKeyStore w)))
    /\ getType keyBlob = TYPE_KEYMASTER_10
    /\ KeyStore.getDevice keyBlob = dev
    /\ isEncrypted keyBlob = has_flag flags KEYSTORE_FLAG_ENCRYPTED
    /\ getType charBlob = TYPE_KEY_CHARACTERISTICS
    /\ Serialize env params = Some (getValue charBlob)
    /\ isFallback charBlob = isFallback keyBlob
    /\ isEncrypted charBlob = has_flag flags KEYSTORE_FLAG_ENCRYPTED
    /\ out <> None.
Proof.
  intros Hcontract owner.
  destruct (generateKey env c name params entropy uid flags w) as [[r out] w'] eqn:Hrun.
  intros Hr. unfold generateKey in Hrun. cbv zeta in Hrun. fold owner in Hrun.
  exec Hrun.
  all: try discriminate.
  all: repeat match goal with
              | H : KeyStoreServiceReturnCode.to_int32 _ = _ |- _ =>
                  apply to_int32_NO_ERROR in H
              end.
  all: try match goal with
           | H : isOk ?a = true, E : negb (isOk ?a) = true |- _ =>
               rewrite H in E; discriminate E
           end.
  all: apply checkBinderPermissionAndKeystoreState_run in E; subst.
  all: rewrite addRngEntropy_run in E3; injection E3 as <- <-.
  all: repeat match goal with
              | H : generateKey_hidl_cb _ _ _ _ _ _ _ (hidl_callback ?reply) _ = _,
                Hstatus : negb (isOk (EC (hidl_status ?reply))) = false |- _ =>
                  let Hcb := fresh "Hcb" in
                  assert (Hcb : hidl_callback reply <> None)
                    by (apply Hcontract; apply negb_false_iff; exact Hstatus);
                  apply generateKey_hidl_cb_stores in H;
                  destruct H as [(? & _) | [(? & ? & -> & -> & ->)
                                               | (? & ? & -> & -> & ? & ? & ?)]];
                  [congruence | | ]
              end.
  all: try match goal with
           | Hr : isOk (EC ?r) = false, H : negb (isOk (EC ?r)) = false |- _ =>
               rewrite Hr in H; discriminate H
           end.
  all: try match goal with
           | H : negb (isOk (RC ResponseCode.NO_ERROR)) = true |- _ => discriminate H
           end.
  all: match goal with
       | H : write_characteristics _ _ _ _ _ _ _ = _ |- _ =>
           apply write_characteristics_stores in H; [|reflexivity];
           destruct H as (? & -> & ? & ? & ? & ?)
       end.
  all: try match goal with
           | H : KeyStore.getFallbackDevice _ = Some _ |- _ =>
               unfold KeyStore.getFallbackDevice in H;
               destruct (KeyStore.hasFallbackDevice _); [injection H as <- | discriminate H]
           end.
  all: match goal with
       | Hkt : getType ?kb = TYPE_KEYMASTER_10, Hfb : isFallback ?kb = ?fb,
         Hct : getType ?cb = TYPE_KEY_CHARACTERISTICS, Hcfb : isFallback ?cb = ?fb |- _ =>
           exists (if fb then FallbackDevice else PrimaryDevice), kb, cb;
           unfold with_mKeyStore, KeyStore.with_files; cbn [calls mKeyStore KeyStore.files];
           split; [apply last_snoc|]; split; [reflexivity|];
           unfold KeyStore.getDevice; rewrite Hfb, Hcfb; repeat split; assumption
       end.
Qed.

Lemma failed_load_not_ok (rc : ResponseCode.t) :
  rc <> ResponseCode.NO_ERROR -> isOk (RC rc) = false.
Proof. destruct rc; try reflexivity. contradiction. Qed.

(** X10.  The answers of [getKeyCharacteristics] that need
    no device: a null output pointer gives UNEXPECTED_NULL_POINTER, a target
    that is not granted to the caller gives PERMISSION_DENIED, and a key
    blob that cannot be loaded gives the code of the load.  When the load
    fails with UNINITIALIZED, the characteristics file is read instead: its
    code is the answer and, when it is NO_ERROR, the deserialised content
    becomes the software-enforced part of the output.  In all four cases
    the state is left as it was. *)
Theorem getKeyCharacteristics_without_device (c : Caller) (name : string)
    (clientId appId : bytes) (uid : Z) (out : KeyCharacteristics) (w : World X) :
  let target := getEffectiveUid c uid in
  getKeyCharacteristics env c name clientId appId uid None w
  = ((KeyStoreServiceReturnCode.to_int32 (EC ErrorCode.UNEXPECTED_NULL_POINTER), None), w)
  /\ (is_granted_to env (callingUid c) target = false ->
      getKeyCharacteristics env c name clientId appId uid (Some out) w
      = ((ResponseCode.to_int32 ResponseCode.PERMISSION_DENIED, Some out), w))
  /\ (forall rc keyBlob,
        is_granted_to env (callingUid c) target = true ->
        KeyStore.getKeyForName (mKeyStore w) Blob_empty name target TYPE_KEYMASTER_10
        = (rc, keyBlob) ->
        rc <> ResponseCode.NO_ERROR -> rc <> ResponseCode.UNINITIALIZED ->
        getKeyCharacteristics env c name clientId appId uid (Some out) w
        = ((ResponseCode.to_int32 rc, Some out), w))
  /\ (forall keyBlob rc charBlob,
        is_granted_to env (callingUid c) target = true ->
        KeyStore.getKeyForName (mKeyStore w) Blob_empty name target TYPE_KEYMASTER_10
        = (ResponseCode.UNINITIALIZED, keyBlob) ->
        KeyStore.getKeyForName (mKeyStore w) keyBlob name target TYPE_KEY_CHARACTERISTICS
        = (rc, charBlob) ->
        getKeyCharacteristics env c name clientId appId uid (Some out) w
        = ((ResponseCode.to_int32 rc,
            Some (if isOk (RC rc)
                  then {| softwareEnforced := Deserialize env (getValue charBlob);
                          teeEnforced := teeEnforced out |}
                  else out)), w)).
Proof.
  intros target. split; [reflexivity|]. split; [|split].
  - intros Hdenied. unfold getKeyCharacteristics. fold target. rewrite Hdenied. reflexivity.
  - intros rc keyBlob Hgrant Hload Hrc Hinit.
    unfold getKeyCharacteristics. fold target. rewrite Hgrant. cbn [negb].
    rewrite bind_run. unfold keystore, gets. cbn [fst snd]. rewrite Hload.
    cbv beta iota zeta.
    destruct rc; try contradiction; reflexivity.
  - intros keyBlob rc charBlob Hgrant Hload Hchr.
    unfold getKeyCharacteristics. fold target. rewrite Hgrant. cbn [negb].
    rewrite bind_run. unfold keystore, gets. cbn [fst snd]. rewrite Hload.
    cbv beta iota zeta.
    change (KeyStoreServiceReturnCode.eqResponseCode (RC ResponseCode.UNINITIALIZED)
              ResponseCode.UNINITIALIZED) with true. cbv iota.
    rewrite bind_run. cbn [fst snd]. rewrite Hchr. cbv beta iota zeta.
    destruct rc; reflexivity.
Qed.

(** X11.  [exportKey] answers PERMISSION_DENIED when the target is
    not granted to the caller, and the code of the load when the key blob
    cannot be loaded; the state is untouched in both cases.  When the
    device call goes through, the callback is invoked and the device asks
    for no upgrade, the result carries the code of the device, and the
    exported data when that code is OK; the device was called once and
    nothing else changed. *)
Theorem exportKey_spec (c : Caller) (name : string) (format : Z) (clientId appId : bytes)
    (uid : Z) (result : ExportResult) (w : World X) :
  let target := getEffectiveUid c uid in
  (is_granted_to env (callingUid c) target = false ->
   exportKey env c name format clientId appId uid result w
   = (set_export_resultCode (RC ResponseCode.PERMISSION_DENIED) result, w))
  /\ (forall rc keyBlob,
        is_granted_to env (callingUid c) target = true ->
        KeyStore.getKeyForName (mKeyStore w) Blob_empty name target TYPE_KEYMASTER_10
        = (rc, keyBlob) ->
        rc <> ResponseCode.NO_ERROR ->
        exportKey env c name format clientId appId uid result w
        = (set_export_resultCode (RC rc) result, w))
  /\ (forall keyBlob status r keyMaterial x',
        is_granted_to env (callingUid c) target = true ->
        KeyStore.getKeyForName (mKeyStore w) Blob_empty name target TYPE_KEYMASTER_10
        = (ResponseCode.NO_ERROR, keyBlob) ->
        dev_exportKey env (KeyStore.getDevice keyBlob) format (blob2hidlVec keyBlob)
          clientId appId (external w)
        = (Build_HidlReturn status (Some (r, keyMaterial)), x') ->
        isOk (EC status) = true ->
        r <> ErrorCode.KEY_REQUIRES_UPGRADE ->
        exportKey env c name format clientId appId uid result w
        = ({| export_resultCode := EC r;
              exportData := if isOk (EC r) then keyMaterial else exportData result |},
           Build_World (mKeyStore w) (mOperationMap w) (mAuthTokenTable w) x'
             (calls w
                ++ [Call_exportKey (KeyStore.getDevice keyBlob) format (blob2hidlVec keyBlob)
                      clientId appId]))).
Proof.
  intros target. split; [|split].
  - intros Hdenied. unfold exportKey. fold target. rewrite Hdenied. reflexivity.
  - intros rc keyBlob Hgrant Hload Hrc.
    unfold exportKey. fold target. rewrite Hgrant. cbn [negb].
    rewrite bind_run. unfold keystore, gets. cbn [fst snd]. rewrite Hload.
    cbv beta iota zeta. cbn [export_resultCode set_export_resultCode].
    rewrite (failed_load_not_ok rc Hrc). reflexivity.
  - intros keyBlob status r keyMaterial x' Hgrant Hload Hdev Hstatus Hr.
    unfold exportKey. fold target. rewrite Hgrant. cbn [negb].
    rewrite bind_run. unfold keystore, gets. cbn [fst snd]. rewrite Hload.
    cbv beta iota zeta. cbn [export_resultCode set_export_resultCode].
    change (isOk (RC ResponseCode.NO_ERROR)) with true. cbn [negb].
    rewrite bind_run, hidl_run, Hdev. cbn [fst snd hidl_callback hidl_status].
    rewrite Hstatus. cbn [negb]. unfold exportKey_hidlCb.
    assert (Hupg : forall res,
               export_resultCode res = EC r ->
               KeyStoreServiceReturnCode.eqErrorCode (export_resultCode res)
                 ErrorCode.KEY_REQUIRES_UPGRADE = false).
    { intros res ->. unfold KeyStoreServiceReturnCode.eqErrorCode,
        KeyStoreServiceReturnCode.of_ErrorCode.
      apply Z.eqb_neq. exact Hr. }
    destruct (isOk (EC r)); cbn [negb]; rewrite Hupg by reflexivity; reflexivity.
Qed.

(** X12.  An upgrade that fails keeps the old key.  When the
    blob cannot be loaded, [upgradeKeyBlob] answers with the code of the
    load and changes nothing.  When the device delivers no upgraded blob
    (the call fails, the callback is not invoked, or it reports an error),
    the old blob is handed back and the files of the store are as before:
    only the device call is logged.  The answer is then the status of the
    call when it failed, and otherwise what the callback reported, which is
    OK when it was not invoked. *)
Theorem upgradeKeyBlob_failure_keeps_store (name : string) (uid : uid_t)
    (params : AuthorizationSet) (blob : Blob) (w : World X) :
  (forall rc b,
      KeyStore.getKeyForName (mKeyStore w) blob name uid TYPE_KEYMASTER_10 = (rc, b) ->
      rc <> ResponseCode.NO_ERROR ->
      upgradeKeyBlob env name uid params blob w = ((RC rc, b), w))
  /\ (forall old status cb x',
      KeyStore.getKeyForName (mKeyStore w) blob name uid TYPE_KEYMASTER_10
      = (ResponseCode.NO_ERROR, old) ->
      dev_upgradeKey env (KeyStore.getDevice old) (blob2hidlVec old) params (external w)
      = (Build_HidlReturn status cb, x') ->
      match cb with
      | None => True
      | Some (r, _) => isOk (EC r) = false
      end ->
      upgradeKeyBlob env name uid params blob w
      = ((if negb (isOk (EC status)) then EC status
          else match cb with
               | None => EC ErrorCode.OK
               | Some (r, _) => EC r
               end, old),
         Build_World (mKeyStore w) (mOperationMap w) (mAuthTokenTable w) x'
           (calls w ++ [Call_upgradeKey (KeyStore.getDevice old) (blob2hidlVec old) params]))).
Proof.
  split.
  - intros rc b Hload Hrc. unfold upgradeKeyBlob.
    rewrite bind_run. unfold keystore, gets. cbn [fst snd]. rewrite Hload.
    cbv beta iota zeta.
    destruct rc; try contradiction; reflexivity.
  - intros old status cb x' Hload Hdev Hcb. unfold upgradeKeyBlob.
    rewrite bind_run. unfold keystore, gets. cbn [fst snd]. rewrite Hload.
    cbv beta iota zeta.
    change (negb (KeyStoreServiceReturnCode.eqResponseCode (RC ResponseCode.NO_ERROR)
                    ResponseCode.NO_ERROR)) with false.
    cbv iota. rewrite bind_run, hidl_run, Hdev. cbn [fst snd hidl_callback hidl_status].
    rewrite bind_run. unfold upgradeKeyBlob_hidlCb.
    destruct cb as [[r upgraded]|].
    + rewrite Hcb. cbn [negb]. unfold ret. cbn [fst snd].
      destruct (negb (isOk (EC status))); reflexivity.
    + unfold ret. cbn [fst snd]. destruct (negb (isOk (EC status))); reflexivity.
Qed.

End Keys.

(** ** The legacy sign and verify *)

Section LegacySignVerify.
Context {X : Type} (env : Env X).

Lemma translateResultToLegacyResult_positive (result : Z) :
  0 < translateResultToLegacyResult result.
Proof.
  unfold translateResultToLegacyResult.
  destruct (result >? 0) eqn:Hpos; [|reflexivity].
  rewrite Z.gtb_ltb in Hpos. apply Z.ltb_lt in Hpos. exact Hpos.
Qed.

Lemma doLegacySignVerify_loop_returns_positive (fuel : nat) tk input out consumed outBuffer
    result (w : World X) rc w' :
  doLegacySignVerify_loop env fuel tk input out consumed outBuffer result w
  = (Some (inl rc), w') ->
  0 < rc.
Proof.
  revert consumed outBuffer result w.
  induction fuel as [|fuel IH]; intros consumed outBuffer result w Hrun.
  - cbn in Hrun. unfold ret in Hrun. discriminate Hrun.
  - cbn [doLegacySignVerify_loop] in Hrun. cbv zeta in Hrun. rewrite bind_run in Hrun.
    destruct (negb (KeyStoreServiceReturnCode.eqResponseCode _ ResponseCode.NO_ERROR)).
    + unfold ret in Hrun. injection Hrun as <- _.
      apply translateResultToLegacyResult_positive.
    + destruct (_ && _).
      * eapply IH. exact Hrun.
      * unfold ret in Hrun. discriminate Hrun.
Qed.

Lemma doLegacySignVerify_positive fuel c name input out signature purpose (w : World X)
    rc legacy_out :
  fst (doLegacySignVerify env fuel c name input out signature purpose w)
  = Some (rc, legacy_out) ->
  0 < rc /\ (rc <> RC ResponseCode.NO_ERROR -> legacy_out = []).
Proof.
  destruct (doLegacySignVerify env fuel c name input out signature purpose w)
    as [answer w'] eqn:Hrun.
  cbn [fst]. intros ->. unfold doLegacySignVerify in Hrun. cbv zeta in Hrun.
  exec Hrun.
  all: try (split; [apply translateResultToLegacyResult_positive | reflexivity]).
  all: try (split; [reflexivity | reflexivity]).
  all: try (split; [reflexivity | intros Hne; exfalso; apply Hne; reflexivity]).
  all: match goal with
       | H : doLegacySignVerify_loop _ _ _ _ _ _ _ _ _ = (Some (inl _), _) |- _ =>
           apply doLegacySignVerify_loop_returns_positive in H
       end.
  all: split; [assumption | reflexivity].
Qed.

(** X13.  Whatever the devices report, every answer of the legacy [sign]
    is a service-specific error whose code is positive, with an empty
    output unless the code is NO_ERROR, and every answer of a [verify] by a
    caller with P_VERIFY is the ok status with a positive code.  Without
    P_SIGN, respectively P_VERIFY, [sign] and [verify] answer
    PERMISSION_DENIED and change nothing. *)
Theorem legacy_sign_verify_codes (fuel : nat) (c : Caller) (name : string)
    (input signature : bytes) (w : World X) :
  (forall status legacy_out,
      fst (sign env fuel c name input w) = Some (status, legacy_out) ->
      exists code,
        status = Status_fromServiceSpecificError code
        /\ 0 < code
        /\ (code <> ResponseCode.to_int32 ResponseCode.NO_ERROR -> legacy_out = []))
  /\ (checkBinderPermission env c P_SIGN UID_SELF = false ->
      sign env fuel c name input w
      = (Some (Status_fromServiceSpecificError
                 (ResponseCode.to_int32 ResponseCode.PERMISSION_DENIED), []), w))
  /\ (checkBinderPermission env c P_VERIFY UID_SELF = false ->
      verify env fuel c name input signature w
      = (Some (Status_fromServiceSpecificError
                 (ResponseCode.to_int32 ResponseCode.PERMISSION_DENIED), None), w))
  /\ (checkBinderPermission env c P_VERIFY UID_SELF = true ->
      forall answer,
        fst (verify env fuel c name input signature w) = Some answer ->
        exists code, answer = (Status_ok, Some code) /\ 0 < code).
Proof.
  assert (Hto : forall res, 0 < res -> KeyStoreServiceReturnCode.to_int32 res = res).
  { intros res Hres. unfold KeyStoreServiceReturnCode.to_int32.
    destruct (Z.eqb_spec res 0); [lia | reflexivity]. }
  split; [|split; [|split]].
  - intros status legacy_out. unfold sign.
    destruct (checkBinderPermission env c P_SIGN UID_SELF); cbn [negb].
    + rewrite bind_run.
      pose proof (doLegacySignVerify_positive fuel c name input true [] KeyPurpose.SIGN w)
        as Hpos.
      destruct (doLegacySignVerify env fuel c name input true [] KeyPurpose.SIGN w)
        as [[[res out]|] w']; cbn [fst snd] in *; unfold ret; cbn [fst];
        [| discriminate].
      intros Hanswer. injection Hanswer as <- <-.
      destruct (Hpos res out eq_refl) as [Hres Hout].
      exists res. rewrite (Hto res Hres). repeat split; assumption.
    + unfold ret. cbn [fst]. intros Hanswer. injection Hanswer as <- <-.
      eexists. split; [reflexivity|]. split; reflexivity.
  - intros Hperm. unfold sign. rewrite Hperm. reflexivity.
  - intros Hperm. unfold verify. rewrite Hperm. reflexivity.
  - intros Hperm answer. unfold verify. rewrite Hperm. cbn [negb]. rewrite bind_run.
    pose proof (doLegacySignVerify_positive fuel c name input false signature
                  KeyPurpose.VERIFY w) as Hpos.
    destruct (doLegacySignVerify env fuel c name input false signature KeyPurpose.VERIFY w)
      as [[[res out]|] w']; cbn [fst snd] in *; unfold ret; cbn [fst];
      [| discriminate].
    intros Hanswer. injection Hanswer as <-.
    destruct (Hpos res out eq_refl) as [Hres _].
    exists res. rewrite (Hto res Hres). split; [reflexivity | exact Hres].
Qed.

Lemma begin_hidlCb_inputConsumed (result : OperationResult) cb :
  inputConsumed (begin_hidlCb result cb) = inputConsumed result.
Proof.
  destruct cb as [[[r outParams] operationHandle]|]; [|reflexivity].
  unfold begin_hidlCb. destruct (negb (isOk (EC r))); reflexivity.
Qed.

Lemma begin_retry_inputConsumed (fuel : nat) dev purpose key opParams rc result
    (w : World X) :
  inputConsumed (snd (fst (begin_retry env fuel dev purpose key opParams rc result w)))
  = inputConsumed result.
Proof.
  revert rc result w. induction fuel as [|fuel IH]; intros rc result w; [reflexivity|].
  cbn [begin_retry]. rewrite bind_run.
  destruct (_ && _); [|reflexivity].
  rewrite bind_run. destruct (negb _); [reflexivity|].
  rewrite bind_run. rewrite IH. apply begin_hidlCb_inputConsumed.
Qed.

Lemma begin_operation_inputConsumed appToken purpose pruneable dev key opParams keyid
    characteristics authResult authToken result (w : World X) :
  inputConsumed
    (fst (begin_operation env appToken purpose pruneable dev key opParams keyid
            characteristics authResult authToken result w))
  = inputConsumed result.
Proof.
  destruct (begin_operation env appToken purpose pruneable dev key opParams keyid
              characteristics authResult authToken result w) as [r w'] eqn:Hrun.
  cbn [fst]. unfold begin_operation in Hrun. cbv zeta in Hrun.
  exec Hrun.
  all: match goal with
       | H : begin_retry _ ?f ?d ?p ?k ?o ?rc ?res ?w = _ |- _ =>
           pose proof (begin_retry_inputConsumed f d p k o rc res w) as Hic;
           rewrite H in Hic; cbn [fst snd] in Hic
       end.
  all: cbn [inputConsumed set_resultCode set_token]; rewrite Hic;
    apply begin_hidlCb_inputConsumed.
Qed.

Lemma begin_inputConsumed c appToken name purpose pruneable params entropy uid result
    (w : World X) :
  inputConsumed (fst (begin env c appToken name purpose pruneable params entropy uid
                        result w))
  = inputConsumed result.
Proof.
  destruct (begin env c appToken name purpose pruneable params entropy uid result w)
    as [r w'] eqn:Hrun.
  cbn [fst]. unfold begin in Hrun. cbv zeta in Hrun.
  exec Hrun.
  all: try match goal with
       | H : begin_operation _ ?a ?p ?pr ?d ?k ?o ?ki ?ch ?ar ?tok ?res ?w = _ |- _ =>
           pose proof (begin_operation_inputConsumed a p pr d k o ki ch ar tok res w) as Hic;
           rewrite H in Hic; cbn [fst] in Hic; rewrite Hic
       end.
  all: repeat match goal with
              | |- context [if ?b then _ else _] => destruct b
              end.
  all: reflexivity.
Qed.

Lemma update_inputConsumed tk params input result (w : World X) (bound : Z) :
  consumed_within_input env ->
  Z.of_nat (length input) <= bound -> bound < 2 ^ 31 ->
  0 <= inputConsumed result <= bound ->
  0 <= inputConsumed (fst (update env tk params input result w)) <= bound.
Proof.
  intros Hdev Hlen Hbound Hresult.
  destruct (update env tk params input result w) as [r w'] eqn:Hrun.
  cbn [fst]. unfold update in Hrun. cbv zeta in Hrun.
  exec Hrun.
  all: cbn [inputConsumed set_resultCode]; try exact Hresult.
  all: match goal with
       | |- context [dev_update env ?d ?h ?p ?i ?x] =>
           pose proof (Hdev d h p i x) as Hcount;
           destruct (hidl_callback (fst (dev_update env d h p i x)))
             as [[[[r0 n] outParams0] output]|]
       end.
  all: cbn [update_hidlCb]; try exact Hresult.
  all: destruct (negb (isOk (EC r0))); cbn [inputConsumed set_resultCode];
    try exact Hresult.
  all: unfold wrap_int32; rewrite Z.mod_small by lia; lia.
Qed.

Lemma cast_size_t_small (z : Z) :
  32 <= BN_BITS2 env -> 0 <= z < 2 ^ 32 -> cast_size_t env z = z.
Proof.
  intros Hbits Hz. unfold cast_size_t. apply Z.mod_small.
  assert (2 ^ 32 <= 2 ^ BN_BITS2 env) by (apply Z.pow_le_mono_r; lia). lia.
Qed.

Lemma doLegacySignVerify_loop_ends (fuel : nat) tk (input : bytes) out consumed outBuffer
    result (w : World X) :
  consumed_within_input env ->
  Z.of_nat (length input) < 2 ^ 31 ->
  32 <= BN_BITS2 env ->
  0 <= consumed <= Z.of_nat (length input) ->
  0 <= inputConsumed result <= Z.of_nat (length input) ->
  Z.of_nat (length input) - consumed < Z.of_nat fuel ->
  fst (doLegacySignVerify_loop env fuel tk input out consumed outBuffer result w) <> None.
Proof.
  intros Hdev Hlen Hbits.
  revert consumed outBuffer result w.
  induction fuel as [|fuel IH]; intros consumed outBuffer result w Hconsumed Hresult Hfuel;
    [lia|].
  cbn [doLegacySignVerify_loop]. cbv zeta. rewrite bind_run.
  pose proof (update_inputConsumed tk [] (drop (Z.to_nat consumed) input) result w
                (Z.of_nat (length input)) Hdev) as Hic.
  destruct (update env tk [] (drop (Z.to_nat consumed) input) result w) as [r w1].
  cbn [fst snd] in *.
  destruct (negb (KeyStoreServiceReturnCode.eqResponseCode _ ResponseCode.NO_ERROR));
    [unfold ret; cbn [fst]; discriminate|].
  assert (Hr : 0 <= inputConsumed r <= Z.of_nat (length input)).
  { apply Hic; [| lia | exact Hresult]. rewrite length_drop. lia. }
  rewrite (cast_size_t_small (inputConsumed r)) by lia.
  rewrite (cast_size_t_small (consumed + inputConsumed r)) by lia.
  destruct (_ && _) eqn:Hcont; [|unfold ret; cbn [fst]; discriminate].
  apply andb_true_iff in Hcont as [Hlt Hpos].
  apply Z.ltb_lt in Hlt. rewrite Z.gtb_ltb in Hpos. apply Z.ltb_lt in Hpos.
  apply IH; [lia | exact Hr | lia].
Qed.

(** X14.  With devices that report a count of consumed input between 0
    and the length of the input they were given, an input shorter than 2^31
    bytes and a machine word of at least 32 bits, the update loop of
    [doLegacySignVerify] ends within one round more than the input has
    bytes: [sign] and [verify] return. *)
Theorem legacy_sign_verify_return (fuel : nat) (c : Caller) (name : string)
    (input signature : bytes) (w : World X) :
  consumed_within_input env ->
  Z.of_nat (length input) < 2 ^ 31 ->
  32 <= BN_BITS2 env ->
  (length input < fuel)%nat ->
  fst (sign env fuel c name input w) <> None
  /\ fst (verify env fuel c name input signature w) <> None.
Proof.
  intros Hdev Hlen Hbits Hfuel.
  assert (Hreturns : forall out sig purpose,
             fst (doLegacySignVerify env fuel c name input out sig purpose w) <> None).
  { intros out sig purpose.
    destruct (doLegacySignVerify env fuel c name input out sig purpose w)
      as [answer w'] eqn:Hrun.
    cbn [fst]. unfold doLegacySignVerify in Hrun. cbv zeta in Hrun.
    exec Hrun; try discriminate.
    match goal with
    | H : doLegacySignVerify_loop _ _ ?tk _ _ _ _ ?r ?w0 = (None, _),
      Hb : begin _ ?c0 ?a ?n ?p ?pr ?ps ?e ?u ?res ?w1 = (?r, _) |- _ =>
        pose proof (begin_inputConsumed c0 a n p pr ps e u res w1) as Hic;
        rewrite Hb in Hic; cbn [fst] in Hic;
        pose proof (doLegacySignVerify_loop_ends fuel tk input out 0 [] r w0 Hdev Hlen
                      Hbits) as Hends;
        rewrite H in Hends; cbn [fst] in Hends
    end.
    exfalso. apply Hends; [lia | rewrite Hic; cbn; lia | lia |reflexivity]. }
  split.
  - unfold sign. destruct (checkBinderPermission env c P_SIGN UID_SELF); cbn [negb];
      [| unfold ret; cbn [fst]; discriminate].
    rewrite bind_run. specialize (Hreturns true [] KeyPurpose.SIGN).
    destruct (doLegacySignVerify env fuel c name input true [] KeyPurpose.SIGN w)
      as [[[res out]|] w']; cbn [fst snd] in *; unfold ret; cbn [fst];
      [discriminate | exfalso; apply Hreturns; reflexivity].
  - unfold verify. destruct (checkBinderPermission env c P_VERIFY UID_SELF); cbn [negb];
      [| unfold ret; cbn [fst]; discriminate].
    rewrite bind_run. specialize (Hreturns false signature KeyPurpose.VERIFY).
    destruct (doLegacySignVerify env fuel c name input false signature
                KeyPurpose.VERIFY w)
      as [[[res out]|] w']; cbn [fst snd] in *; unfold ret; cbn [fst];
      [discriminate | exfalso; apply Hreturns; reflexivity].
Qed.

End LegacySignVerify.

(** ** Generic blobs: insert, get, exist, del and duplicate *)

Section Blobs.
Context {X : Type} (env : Env X).

Lemma cast_wrap_uid (e : Z) : 0 <= e < 2 ^ 32 -> cast_uid_t (wrap_int32 e) = e.
Proof.
  intros He. unfold cast_uid_t, wrap_int32.
  change (2 ^ 32) with 4294967296 in *. change (2 ^ 31) with 2147483648.
  Z.div_mod_to_equations. lia.
Qed.

Lemma wrap_cast_int32 (z : Z) : -2 ^ 31 <= z < 2 ^ 31 -> wrap_int32 (cast_uid_t z) = z.
Proof.
  intros Hz. unfold cast_uid_t, wrap_int32.
  change (2 ^ 32) with 4294967296 in *. change (2 ^ 31) with 2147483648 in *.
  Z.div_mod_to_equations. lia.
Qed.

Lemma cast_uid_range (z : Z) : 0 <= cast_uid_t z < 2 ^ 32.
Proof. unfold cast_uid_t. apply Z.mod_pos_bound. reflexivity. Qed.

Lemma getEffectiveUid_range (c : Caller) (uid : Z) :
  0 <= callingUid c < 2 ^ 32 -> 0 <= getEffectiveUid c uid < 2 ^ 32.
Proof.
  intros Hc. unfold getEffectiveUid. destruct (uid =? UID_SELF); [exact Hc|].
  apply cast_uid_range.
Qed.

Lemma getEffectiveUid_resolved (c : Caller) (uid : Z) :
  0 <= callingUid c < 2 ^ 32 ->
  - 2 ^ 31 <= uid < 2 ^ 31 ->
  cast_uid_t (wrap_int32 (getEffectiveUid c uid)) = getEffectiveUid c uid
  /\ getEffectiveUid c (wrap_int32 (getEffectiveUid c uid)) = getEffectiveUid c uid.
Proof.
  intros Hc Hu.
  assert (Hrange : 0 <= getEffectiveUid c uid < 2 ^ 32)
    by (apply getEffectiveUid_range; exact Hc).
  pose proof (cast_wrap_uid _ Hrange) as Hcast.
  split; [exact Hcast|].
  unfold getEffectiveUid at 1.
  destruct (wrap_int32 (getEffectiveUid c uid) =? UID_SELF) eqn:Hself; [|exact Hcast].
  apply Z.eqb_eq in Hself. unfold getEffectiveUid in *.
  destruct (Z.eqb_spec uid UID_SELF) as [->|Hne]; [reflexivity|].
  exfalso. apply Hne.
  rewrite <- (wrap_cast_int32 uid Hu). exact Hself.
Qed.

(** X15.  For a calling uid of 32 bits and a target that is an
    [int32_t], the uid that [getEffectiveUid] resolves is a 32-bit uid,
    survives the conversion to [int32_t] and back, and resolves to itself;
    it is the calling uid exactly when the target is UID_SELF or the
    calling uid itself. *)
Theorem effective_uid_resolution_stable (c : Caller) (uid : Z) :
  0 <= callingUid c < 2 ^ 32 ->
  - 2 ^ 31 <= uid < 2 ^ 31 ->
  let targetUid := getEffectiveUid c uid in
  0 <= targetUid < 2 ^ 32
  /\ cast_uid_t (wrap_int32 targetUid) = targetUid
  /\ getEffectiveUid c (wrap_int32 targetUid) = targetUid
  /\ (targetUid = callingUid c <-> uid = UID_SELF \/ uid = wrap_int32 (callingUid c)).
Proof.
  intros Hc Hu targetUid.
  assert (Hrange : 0 <= targetUid < 2 ^ 32) by (apply getEffectiveUid_range; exact Hc).
  destruct (getEffectiveUid_resolved c uid Hc Hu) as [Hcast Hres].
  split; [exact Hrange|]. split; [exact Hcast|]. split; [exact Hres|].
  - subst targetUid. unfold getEffectiveUid.
    destruct (Z.eqb_spec uid UID_SELF) as [->|Hne].
    + split; [left; reflexivity | reflexivity].
    + split.
      * intros Heq. right. rewrite <- Heq. symmetry. apply wrap_cast_int32. exact Hu.
      * intros [Hself | ->]; [contradiction|]. apply cast_wrap_uid. exact Hc.
Qed.

Lemma checkBinderPermission_resolved (c : Caller) (permission : perm_t) (uid : Z) :
  0 <= callingUid c < 2 ^ 32 ->
  - 2 ^ 31 <= uid < 2 ^ 31 ->
  checkBinderPermission env c permission (wrap_int32 (getEffectiveUid c uid))
  = has_permission env (callingUid c) permission (callingPid c)
    && is_granted_to env (callingUid c) (getEffectiveUid c uid).
Proof.
  intros Hc Hu. unfold checkBinderPermission.
  destruct (getEffectiveUid_resolved c uid Hc Hu) as [_ ->].
  destruct (has_permission env _ _ _), (is_granted_to env _ _); reflexivity.
Qed.

(** The generic blob that [insert] writes. *)
Lemma insert_run (c : Caller) (name : string) (item : bytes) (uid flags : Z) (w : World X) :
  0 <= callingUid c < 2 ^ 32 ->
  - 2 ^ 31 <= uid < 2 ^ 31 ->
  let targetUid := getEffectiveUid c uid in
  let state := KeyStore.getState (mKeyStore w) (get_user_id targetUid) in
  let encrypted := has_flag flags KEYSTORE_FLAG_ENCRYPTED in
  insert env c name item uid flags w
  = if negb (checkBinderPermission env c P_INSERT (wrap_int32 targetUid))
    then (ResponseCode.to_int32 ResponseCode.PERMISSION_DENIED, w)
    else if encrypted && negb (isKeystoreUnlocked state)
    then (ResponseCode.to_int32 (State_to_ResponseCode state), w)
    else (ResponseCode.to_int32 ResponseCode.NO_ERROR,
          with_mKeyStore
            (KeyStore.with_files
               (<[key_path targetUid name
                  := setEncrypted encrypted (Blob_new item [] TYPE_GENERIC)]>
                  (KeyStore.files (mKeyStore w)))
               (mKeyStore w)) w).
Proof.
  intros Hc Hu targetUid state encrypted.
  destruct (getEffectiveUid_resolved c uid Hc Hu) as [Hcast Hres].
  fold targetUid in Hcast, Hres.
  unfold insert. cbv zeta. fold targetUid. fold encrypted. rewrite bind_run.
  unfold checkBinderPermissionAndKeystoreState.
  destruct (negb (checkBinderPermission env c P_INSERT (wrap_int32 targetUid)));
    [reflexivity|].
  rewrite bind_run. unfold keystore, gets. cbn [fst snd]. rewrite Hres. fold state.
  destruct (encrypted && negb (isKeystoreUnlocked state)) eqn:Hgate.
  - unfold ret. cbn [fst snd]. destruct state; try reflexivity.
    rewrite andb_false_r in Hgate. discriminate Hgate.
  - unfold ret. cbn [fst snd].
    change (negb (isOk (RC ResponseCode.NO_ERROR))) with false. cbv iota.
    rewrite bind_run, keystore_update_run. unfold KeyStore.put. cbn [fst snd].
    rewrite Hcast. reflexivity.
Qed.

(** X16.  [insert] without P_INSERT for the target answers
    PERMISSION_DENIED and changes nothing.  With the permission, an
    encrypted blob for a user whose keystore is not unlocked is refused
    with the code of the state, and nothing changes.  Otherwise the answer
    is NO_ERROR and the item is stored as a generic blob under the alias of
    the resolved uid, encrypted as the flags say; the other files, the user
    states, the operations and the device log stay as they were. *)
Theorem insert_lock_gating (c : Caller) (name : string) (item : bytes) (uid flags : Z)
    (w : World X) :
  0 <= callingUid c < 2 ^ 32 ->
  - 2 ^ 31 <= uid < 2 ^ 31 ->
  let targetUid := getEffectiveUid c uid in
  let state := KeyStore.getState (mKeyStore w) (get_user_id targetUid) in
  let '(r, w') := insert env c name item uid flags w in
  (checkBinderPermission env c P_INSERT (wrap_int32 targetUid) = false ->
   r = ResponseCode.to_int32 ResponseCode.PERMISSION_DENIED /\ w' = w)
  /\ (checkBinderPermission env c P_INSERT (wrap_int32 targetUid) = true ->
      has_flag flags KEYSTORE_FLAG_ENCRYPTED = true -> state <> STATE_NO_ERROR ->
      r = ResponseCode.to_int32 (State_to_ResponseCode state) /\ w' = w)
  /\ (checkBinderPermission env c P_INSERT (wrap_int32 targetUid) = true ->
      has_flag flags KEYSTORE_FLAG_ENCRYPTED = false \/ state = STATE_NO_ERROR ->
      r = ResponseCode.to_int32 ResponseCode.NO_ERROR
      /\ KeyStore.files (mKeyStore w')
         = <[key_path targetUid name
             := setEncrypted (has_flag flags KEYSTORE_FLAG_ENCRYPTED)
                  (Blob_new item [] TYPE_GENERIC)]> (KeyStore.files (mKeyStore w))
      /\ KeyStore.userState (mKeyStore w') = KeyStore.userState (mKeyStore w)
      /\ mOperationMap w' = mOperationMap w /\ calls w' = calls w).
Proof.
  intros Hc Hu targetUid state.
  pose proof (insert_run c name item uid flags w Hc Hu) as Hrun. cbv zeta in Hrun.
  fold targetUid in Hrun. fold state in Hrun. rewrite Hrun. clear Hrun.
  destruct (checkBinderPermission env c P_INSERT (wrap_int32 targetUid)); cbn [negb].
  - destruct (has_flag flags KEYSTORE_FLAG_ENCRYPTED); cbn [andb].
    + destruct state eqn:Hstate; cbn [isKeystoreUnlocked negb].
      * split; [discriminate|]. split; [intros _ _ Hne; contradiction|].
        intros _ _. repeat split.
      * split; [discriminate|]. split; [intros _ _ _; split; reflexivity|].
        intros _ [Hf|Hs]; discriminate.
      * split; [discriminate|]. split; [intros _ _ _; split; reflexivity|].
        intros _ [Hf|Hs]; discriminate.
    + split; [discriminate|]. split; [intros _ Hf; discriminate|].
      intros _ _. repeat split.
  - split; [intros _; split; reflexivity|]. split; discriminate.
Qed.

Lemma get_run (c : Caller) (name : string) (uid : Z) (item : bytes) (w : World X) :
  get env c name uid item w
  = if negb (checkBinderPermission env c P_GET (wrap_int32 (getEffectiveUid c uid)))
    then ((Status_fromServiceSpecificError
             (ResponseCode.to_int32 ResponseCode.PERMISSION_DENIED), item), w)
    else
      match KeyStore.getKeyForName (mKeyStore w) Blob_empty name (getEffectiveUid c uid)
              TYPE_GENERIC with
      | (ResponseCode.NO_ERROR, keyBlob) => ((Status_ok, blob2hidlVec keyBlob), w)
      | (rc, _) => ((Status_fromServiceSpecificError (ResponseCode.to_int32 rc), []), w)
      end.
Proof.
  unfold get. cbv zeta.
  destruct (negb (checkBinderPermission env c P_GET _)); [reflexivity|].
  rewrite bind_run. unfold keystore, gets. cbn [fst snd].
  destruct (KeyStore.getKeyForName _ _ _ _ _) as [rc keyBlob].
  destruct rc; reflexivity.
Qed.

Lemma exist_run (c : Caller) (name : string) (uid : Z) (w : World X) :
  0 <= callingUid c < 2 ^ 32 ->
  - 2 ^ 31 <= uid < 2 ^ 31 ->
  exist env c name uid w
  = (if negb (checkBinderPermission env c P_EXIST (wrap_int32 (getEffectiveUid c uid)))
     then ResponseCode.to_int32 ResponseCode.PERMISSION_DENIED
     else match KeyStore.files (mKeyStore w) !! key_path (getEffectiveUid c uid) name with
          | Some _ => ResponseCode.to_int32 ResponseCode.NO_ERROR
          | None => ResponseCode.to_int32 ResponseCode.KEY_NOT_FOUND
          end, w).
Proof.
  intros Hc Hu. destruct (getEffectiveUid_resolved c uid Hc Hu) as [Hcast _].
  unfold exist. cbv zeta.
  destruct (negb (checkBinderPermission env c P_EXIST _)); [reflexivity|].
  rewrite bind_run. unfold keystore, gets, KeyStore.getBlobFileNameIfExists.
  cbn [fst snd]. rewrite Hcast.
  change (KeyStore.getKeyNameForUidWithDir name (getEffectiveUid c uid) TYPE_ANY)
    with (key_path (getEffectiveUid c uid) name).
  destruct (KeyStore.files (mKeyStore w) !! key_path (getEffectiveUid c uid) name);
    reflexivity.
Qed.

(** X17.  What [insert] stored with NO_ERROR is what [get] reads
    back: a caller with P_GET gets the ok status and the inserted bytes,
    and a caller with P_EXIST is answered NO_ERROR by [exist]; neither of
    the two reads changes the state. *)
Theorem insert_then_get (c : Caller) (name : string) (item item0 : bytes) (uid flags : Z)
    (w : World X) :
  0 <= callingUid c < 2 ^ 32 ->
  - 2 ^ 31 <= uid < 2 ^ 31 ->
  fst (insert env c name item uid flags w) = ResponseCode.to_int32 ResponseCode.NO_ERROR ->
  let w1 := snd (insert env c name item uid flags w) in
  (checkBinderPermission env c P_GET (wrap_int32 (getEffectiveUid c uid)) = true ->
   get env c name uid item0 w1 = ((Status_ok, item), w1))
  /\ (checkBinderPermission env c P_EXIST (wrap_int32 (getEffectiveUid c uid)) = true ->
      exist env c name uid w1 = (ResponseCode.to_int32 ResponseCode.NO_ERROR, w1)).
Proof.
  intros Hc Hu. pose proof (insert_run c name item uid flags w Hc Hu) as Hrun.
  cbv zeta in Hrun. rewrite Hrun. clear Hrun.
  destruct (negb (checkBinderPermission env c P_INSERT _)); [discriminate|].
  set (state := KeyStore.getState (mKeyStore w) (get_user_id (getEffectiveUid c uid))).
  destruct (has_flag flags KEYSTORE_FLAG_ENCRYPTED && negb (isKeystoreUnlocked state))
    eqn:Hgate.
  { cbn [fst]. intros Hr. exfalso. clearbody state.
    destruct state; try discriminate Hr.
    cbn [isKeystoreUnlocked negb] in Hgate. rewrite andb_false_r in Hgate.
    discriminate Hgate. }
  cbn [fst snd]. intros _. split.
  - intros Hperm. rewrite get_run, Hperm. cbn [negb].
    unfold KeyStore.getKeyForName, KeyStore.get, with_mKeyStore, KeyStore.with_files.
    cbn [mKeyStore KeyStore.files KeyStore.getState KeyStore.userState].
    change (KeyStore.getKeyNameForUidWithDir name (getEffectiveUid c uid) TYPE_GENERIC)
      with (key_path (getEffectiveUid c uid) name).
    rewrite lookup_insert_eq. unfold KeyStore.read_gate.
    cbn [isEncrypted isSuperEncrypted setEncrypted Blob_new orb].
    rewrite orb_false_r.
    destruct (has_flag flags KEYSTORE_FLAG_ENCRYPTED); cbn [andb] in Hgate.
    + fold (KeyStore.getState (mKeyStore w) (get_user_id (getEffectiveUid c uid))).
      fold state. clearbody state. destruct state; try discriminate Hgate. reflexivity.
    + reflexivity.
  - intros Hperm. rewrite (exist_run c name uid _ Hc Hu), Hperm. cbn [negb].
    unfold with_mKeyStore, KeyStore.with_files. cbn [mKeyStore KeyStore.files].
    rewrite lookup_insert_eq. reflexivity.
Qed.

Lemma del_NO_ERROR (ks : KeyStore.t) (path : Path) (type : BlobType) (userId : Z) :
  fst (KeyStore.del ks path type userId) = ResponseCode.NO_ERROR ->
  KeyStore.files (snd (KeyStore.del ks path type userId)) !! path = None.
Proof.
  unfold KeyStore.del. destruct (KeyStore.files ks !! path) as [b|] eqn:Hb; [|discriminate].
  destruct (KeyStore.type_matches type b); [|discriminate].
  intros _. cbn. apply lookup_delete_eq.
Qed.

Lemma del_other (ks : KeyStore.t) (path : Path) (type : BlobType) (userId : Z) (p : Path) :
  p <> path ->
  KeyStore.files (snd (KeyStore.del ks path type userId)) !! p = KeyStore.files ks !! p.
Proof.
  intros Hne. unfold KeyStore.del. destruct (KeyStore.files ks !! path) as [b|]; [|reflexivity].
  destruct (KeyStore.type_matches type b); [|reflexivity].
  cbn. apply lookup_delete_ne. exact (not_eq_sym Hne).
Qed.

Lemma del_any (ks : KeyStore.t) (path : Path) (userId : Z) :
  KeyStore.files (snd (KeyStore.del ks path TYPE_ANY userId)) !! path = None.
Proof.
  unfold KeyStore.del. destruct (KeyStore.files ks !! path) as [b|] eqn:Hb; [|exact Hb].
  change (KeyStore.type_matches TYPE_ANY b) with true. cbn. apply lookup_delete_eq.
Qed.

Lemma del_any_code (ks : KeyStore.t) (path : Path) (userId : Z) (b : Blob) :
  KeyStore.files ks !! path = Some b ->
  fst (KeyStore.del ks path TYPE_ANY userId) = ResponseCode.NO_ERROR.
Proof. intros Hb. unfold KeyStore.del. rewrite Hb. reflexivity. Qed.

(** The run of [del] for a caller who may delete. *)
Lemma del_run (c : Caller) (name : string) (uid : Z) (w : World X) :
  0 <= callingUid c < 2 ^ 32 ->
  - 2 ^ 31 <= uid < 2 ^ 31 ->
  let targetUid := getEffectiveUid c uid in
  checkBinderPermission env c P_DELETE (wrap_int32 targetUid) = true ->
  let ks1 :=
    snd (KeyStore.del (mKeyStore w) (key_path targetUid name) TYPE_ANY
           (get_user_id targetUid)) in
  let deleted :=
    KeyStore.del ks1 (chr_path targetUid name) TYPE_KEY_CHARACTERISTICS
      (get_user_id targetUid) in
  del env c name uid w
  = match KeyStore.files (mKeyStore w) !! key_path targetUid name with
    | None => (ResponseCode.to_int32 ResponseCode.KEY_NOT_FOUND, w)
    | Some _ =>
        match KeyStore.files ks1 !! chr_path targetUid name with
        | Some _ => (ResponseCode.to_int32 (fst deleted), with_mKeyStore (snd deleted) w)
        | None => (ResponseCode.to_int32 ResponseCode.NO_ERROR, with_mKeyStore ks1 w)
        end
    end.
Proof.
  intros Hc Hu targetUid Hperm ks1 deleted.
  destruct (getEffectiveUid_resolved c uid Hc Hu) as [Hcast _]. fold targetUid in Hcast.
  unfold del. cbv zeta. fold targetUid. rewrite Hcast, Hperm. cbn [negb].
  rewrite bind_run. unfold keystore, gets. cbn [fst snd].
  unfold KeyStore.getBlobFileNameIfExists. cbv zeta.
  change (KeyStore.getKeyNameForUidWithDir name targetUid TYPE_ANY)
    with (key_path targetUid name).
  change (KeyStore.getKeyNameForUidWithDir name targetUid TYPE_KEY_CHARACTERISTICS)
    with (chr_path targetUid name).
  destruct (KeyStore.files (mKeyStore w) !! key_path targetUid name) as [b|] eqn:Hkey;
    [|reflexivity].
  cbv beta iota. rewrite bind_run, keystore_update_run. cbn [fst snd].
  rewrite (del_any_code _ _ _ _ Hkey). cbv beta iota.
  rewrite bind_run. cbn [fst snd]. unfold with_mKeyStore at 1 2. cbn [mKeyStore].
  fold ks1.
  destruct (KeyStore.files ks1 !! chr_path targetUid name) as [bc|] eqn:Hchr.
  - cbv beta iota. rewrite bind_run, keystore_update_run. cbn [fst snd].
    unfold ret, with_mKeyStore. cbn [mKeyStore mOperationMap mAuthTokenTable external calls].
    reflexivity.
  - reflexivity.
Qed.

(** X18.  [del] without P_DELETE for the target answers
    PERMISSION_DENIED and changes nothing.  With the permission, a missing
    key file gives KEY_NOT_FOUND and no change; in every case there is no
    key file for the alias afterwards, on NO_ERROR there is no
    characteristics file either, and all other files, the operations and
    the device log are as before. *)
Theorem del_removes_key_files (c : Caller) (name : string) (uid : Z) (w : World X) :
  0 <= callingUid c < 2 ^ 32 ->
  - 2 ^ 31 <= uid < 2 ^ 31 ->
  let targetUid := getEffectiveUid c uid in
  let '(r, w') := del env c name uid w in
  let before := KeyStore.files (mKeyStore w) in
  let after := KeyStore.files (mKeyStore w') in
  (checkBinderPermission env c P_DELETE (wrap_int32 targetUid) = false ->
   r = ResponseCode.to_int32 ResponseCode.PERMISSION_DENIED /\ w' = w)
  /\ (checkBinderPermission env c P_DELETE (wrap_int32 targetUid) = true ->
      (before !! key_path targetUid name = None ->
       r = ResponseCode.to_int32 ResponseCode.KEY_NOT_FOUND /\ w' = w)
      /\ after !! key_path targetUid name = None
      /\ (r = ResponseCode.to_int32 ResponseCode.NO_ERROR ->
          after !! chr_path targetUid name = None)
      /\ (forall p, p <> key_path targetUid name -> p <> chr_path targetUid name ->
                    after !! p = before !! p)
      /\ mOperationMap w' = mOperationMap w /\ calls w' = calls w).
Proof.
  intros Hc Hu targetUid.
  destruct (checkBinderPermission env c P_DELETE (wrap_int32 targetUid)) eqn:Hperm.
  - rewrite (del_run c name uid w Hc Hu Hperm). fold targetUid.
    set (ks1 := snd (KeyStore.del (mKeyStore w) (key_path targetUid name) TYPE_ANY
                       (get_user_id targetUid))).
    destruct (KeyStore.files (mKeyStore w) !! key_path targetUid name) as [b|] eqn:Hkey.
    + assert (Hgone : KeyStore.files ks1 !! key_path targetUid name = None)
        by apply del_any.
      assert (Hframe : forall p, p <> key_path targetUid name ->
                KeyStore.files ks1 !! p = KeyStore.files (mKeyStore w) !! p)
        by (intros p Hp; apply del_other; exact Hp).
      destruct (KeyStore.files ks1 !! chr_path targetUid name) as [bc|] eqn:Hchr.
      * cbv beta iota zeta. split; [discriminate|]. intros _.
        split; [intros Hn; congruence|].
        unfold with_mKeyStore. cbn [mKeyStore mOperationMap calls].
        split; [rewrite del_other by (apply not_eq_sym, chr_path_ne_key_path); exact Hgone|].
        split.
        { intros Hr. apply del_NO_ERROR.
          destruct (fst (KeyStore.del ks1 (chr_path targetUid name)
                           TYPE_KEY_CHARACTERISTICS (get_user_id targetUid)));
            try discriminate Hr. reflexivity. }
        split; [|split; reflexivity].
        intros p Hp1 Hp2. rewrite del_other by exact Hp2. apply Hframe. exact Hp1.
      * cbv beta iota zeta. split; [discriminate|]. intros _.
        split; [intros Hn; congruence|].
        unfold with_mKeyStore. cbn [mKeyStore mOperationMap calls].
        split; [exact Hgone|]. split; [intros _; exact Hchr|].
        split; [|split; reflexivity].
        intros p Hp1 Hp2. apply Hframe. exact Hp1.
    + cbv beta iota zeta. split; [discriminate|]. intros _.
      split; [intros _; split; reflexivity|]. split; [exact Hkey|].
      split; [discriminate|]. split; [reflexivity|]. split; reflexivity.
  - unfold del. cbv zeta. fold targetUid. rewrite Hperm. cbn [negb]. unfold ret.
    cbv beta iota zeta. split; [intros _; split; reflexivity | discriminate].
Qed.

(** X19.  A [duplicate] that does not answer NO_ERROR changes
    nothing.  One that answers NO_ERROR was called with P_DUPLICATE on an
    unlocked keystore, with a source that is the destination uid or the
    caller's own; the destination file did not exist, the source file did,
    and the only change is that the destination file now holds the blob of
    the source. *)
Theorem duplicate_spec (c : Caller) (srcKey : string) (srcUid : Z) (destKey : string)
    (destUid : Z) (w : World X) :
  let self := (srcUid =? -1) || (cast_uid_t srcUid =? callingUid c) in
  let src := if self then wrap_int32 (callingUid c) else srcUid in
  let dest := if destUid =? -1 then wrap_int32 (callingUid c) else destUid in
  let sourceFile := key_path (cast_uid_t src) srcKey in
  let targetFile := key_path (cast_uid_t dest) destKey in
  let '(r, w') := duplicate env c srcKey srcUid destKey destUid w in
  (r <> ResponseCode.to_int32 ResponseCode.NO_ERROR -> w' = w)
  /\ (r = ResponseCode.to_int32 ResponseCode.NO_ERROR ->
      has_permission env (callingUid c) P_DUPLICATE (callingPid c) = true
      /\ KeyStore.getState (mKeyStore w) (get_user_id (callingUid c)) = STATE_NO_ERROR
      /\ (src = dest \/ cast_uid_t src = callingUid c)
      /\ KeyStore.files (mKeyStore w) !! targetFile = None
      /\ exists b,
           KeyStore.files (mKeyStore w) !! sourceFile = Some b
           /\ w' = with_mKeyStore
                     (KeyStore.with_files
                        (<[targetFile := b]> (KeyStore.files (mKeyStore w)))
                        (mKeyStore w)) w).
Proof.
  intros self src dest sourceFile targetFile.
  destruct (duplicate env c srcKey srcUid destKey destUid w) as [r w'] eqn:Hrun.
  unfold duplicate in Hrun. cbv zeta in Hrun.
  fold self in Hrun. fold src in Hrun. fold dest in Hrun.
  change (KeyStore.getKeyNameForUidWithDir srcKey (cast_uid_t src) TYPE_ANY)
    with sourceFile in Hrun.
  change (KeyStore.getKeyNameForUidWithDir destKey (cast_uid_t dest) TYPE_ANY)
    with targetFile in Hrun.
  exec Hrun.
  all: try (split; [reflexivity | discriminate]).
  all: try (split; [reflexivity|]; intros Hr; exfalso;
            match goal with
            | H : negb (isKeystoreUnlocked ?s) = true |- _ =>
                destruct s; discriminate
            end).
  split; [contradiction|]. intros _.
  repeat match goal with
         | H : negb _ = false |- _ => apply negb_false_iff in H
         end.
  match goal with
  | H : KeyStore.get _ _ _ _ _ = (ResponseCode.NO_ERROR, ?b) |- _ =>
      apply get_NO_ERROR in H; destruct H as (Hsrc & _ & _)
  end.
  split; [assumption|]. split.
  { match goal with
    | H : isKeystoreUnlocked ?s = true |- _ => destruct s eqn:Hs; try discriminate H
    end. reflexivity. }
  split.
  { destruct (src =? dest) eqn:Heq; [left; apply Z.eqb_eq; exact Heq|right].
    match goal with
    | H : negb false && negb (cast_uid_t src =? callingUid c) = false |- _ =>
        cbn [negb andb] in H; apply negb_false_iff in H; apply Z.eqb_eq in H; exact H
    end. }
  split; [first [assumption | reflexivity]|].
  eexists. split; [exact Hsrc|]. unfold KeyStore.put. cbn [fst snd]. reflexivity.
Qed.

End Blobs.

(** ** User management *)

Section Users.
Context {X : Type} (env : Env X) (users : UserStore).

(** X20.  Every entry point of the user management checks
    its permission first: without it [getState], [reset],
    [onUserPasswordChanged], [onUserAdded], [onUserRemoved], [lock] and
    [unlock] answer PERMISSION_DENIED, [isEmpty] answers 0 (false), and the
    state is untouched. *)
Theorem user_management_requires_permission (c : Caller) (userId parentId : Z)
    (password : string) (w : World X) :
  let denied := (ResponseCode.to_int32 ResponseCode.PERMISSION_DENIED, w) in
  (checkBinderPermission env c P_GET_STATE UID_SELF = false ->
   getState env c userId w = denied)
  /\ (checkBinderPermission env c P_RESET UID_SELF = false ->
      reset env users c w = denied)
  /\ (checkBinderPermission env c P_PASSWORD UID_SELF = false ->
      onUserPasswordChanged env users c userId password w = denied)
  /\ (checkBinderPermission env c P_USER_CHANGED UID_SELF = false ->
      onUserAdded env users c userId parentId w = denied
      /\ onUserRemoved env users c userId w = denied)
  /\ (checkBinderPermission env c P_LOCK UID_SELF = false ->
      lock env users c userId w = denied)
  /\ (checkBinderPermission env c P_UNLOCK UID_SELF = false ->
      unlock env users c userId password w = denied)
  /\ (checkBinderPermission env c P_IS_EMPTY UID_SELF = false ->
      isEmpty env users c userId w = (0, w)).
Proof.
  cbv zeta. repeat match goal with |- _ /\ _ => split end; intros Hperm; try split.
  - unfold getState. rewrite Hperm. reflexivity.
  - unfold reset. rewrite Hperm. reflexivity.
  - unfold onUserPasswordChanged. rewrite Hperm. reflexivity.
  - unfold onUserAdded. rewrite Hperm. reflexivity.
  - unfold onUserRemoved. rewrite Hperm. reflexivity.
  - unfold lock. rewrite Hperm. reflexivity.
  - unfold unlock. rewrite Hperm. reflexivity.
  - unfold isEmpty. rewrite Hperm. reflexivity.
Qed.

(** X21.  With its permission, [lock] locks the user only when
    the keystore of the user is unlocked, and [unlock] reads the master key
    only when it is locked; in every other state the answer is the code of
    the state and nothing changes. *)
Theorem lock_unlock_state_gating (c : Caller) (userId : Z) (pw : string) (w : World X) :
  let state := KeyStore.getState (mKeyStore w) userId in
  (checkBinderPermission env c P_LOCK UID_SELF = true ->
   lock env users c userId w
   = match state with
     | STATE_NO_ERROR =>
         (ResponseCode.to_int32 ResponseCode.NO_ERROR,
          with_mKeyStore (lockUser users userId (mKeyStore w)) w)
     | _ => (ResponseCode.to_int32 (State_to_ResponseCode state), w)
     end)
  /\ (checkBinderPermission env c P_UNLOCK UID_SELF = true ->
      unlock env users c userId pw w
      = match state with
        | STATE_LOCKED =>
            (ResponseCode.to_int32 (fst (readMasterKey users pw userId (mKeyStore w))),
             with_mKeyStore (snd (readMasterKey users pw userId (mKeyStore w))) w)
        | _ => (ResponseCode.to_int32 (State_to_ResponseCode state), w)
        end)
  /\ (state <> STATE_NO_ERROR -> snd (lock env users c userId w) = w)
  /\ (state <> STATE_LOCKED -> snd (unlock env users c userId pw w) = w).
Proof.
  intros state.
  assert (Hlock : checkBinderPermission env c P_LOCK UID_SELF = true ->
    lock env users c userId w
    = match state with
      | STATE_NO_ERROR =>
          (ResponseCode.to_int32 ResponseCode.NO_ERROR,
           with_mKeyStore (lockUser users userId (mKeyStore w)) w)
      | _ => (ResponseCode.to_int32 (State_to_ResponseCode state), w)
      end).
  { intros Hperm. unfold lock. rewrite Hperm. cbn [negb].
    rewrite bind_run. unfold keystore, gets. cbn [fst snd]. fold state.
    destruct state; reflexivity. }
  assert (Hunlock : checkBinderPermission env c P_UNLOCK UID_SELF = true ->
    unlock env users c userId pw w
    = match state with
      | STATE_LOCKED =>
          (ResponseCode.to_int32 (fst (readMasterKey users pw userId (mKeyStore w))),
           with_mKeyStore (snd (readMasterKey users pw userId (mKeyStore w))) w)
      | _ => (ResponseCode.to_int32 (State_to_ResponseCode state), w)
      end).
  { intros Hperm. unfold unlock. rewrite Hperm. cbn [negb].
    rewrite bind_run. unfold keystore, gets. cbn [fst snd]. fold state.
    destruct state; try reflexivity.
    rewrite bind_run, keystore_update_run. reflexivity. }
  split; [exact Hlock|]. split; [exact Hunlock|]. split.
  - intros Hstate.
    destruct (checkBinderPermission env c P_LOCK UID_SELF) eqn:Hperm.
    + rewrite (Hlock eq_refl). destruct state; try reflexivity. contradiction.
    + unfold lock. rewrite Hperm. reflexivity.
  - intros Hstate.
    destruct (checkBinderPermission env c P_UNLOCK UID_SELF) eqn:Hperm.
    + rewrite (Hunlock eq_refl). destruct state; try reflexivity. contradiction.
    + unfold unlock. rewrite Hperm. reflexivity.
Qed.

(** X22.  A permitted [onUserPasswordChanged] always
    empties the auth token table and leaves the operations and the device
    log alone.  An empty password resets the user and answers NO_ERROR.  A
    new password initialises the user when the keystore is uninitialised,
    rewrites the master key when it is unlocked, and, when it is locked,
    resets the user before it initialises it; the answer is the code of
    that last step. *)
Theorem password_change_flushes_auth_tokens (c : Caller) (userId : Z) (password : string)
    (w : World X) :
  checkBinderPermission env c P_PASSWORD UID_SELF = true ->
  let state := KeyStore.getState (mKeyStore w) userId in
  let '(r, w') := onUserPasswordChanged env users c userId password w in
  mAuthTokenTable w' = []
  /\ mOperationMap w' = mOperationMap w
  /\ calls w' = calls w
  /\ (String.length password = 0%nat ->
      r = ResponseCode.to_int32 ResponseCode.NO_ERROR
      /\ mKeyStore w' = resetUser users userId true (mKeyStore w))
  /\ (String.length password <> 0%nat -> state = STATE_LOCKED ->
      let wiped := resetUser users userId true (mKeyStore w) in
      r = ResponseCode.to_int32 (fst (initializeUser users password userId wiped))
      /\ mKeyStore w' = snd (initializeUser users password userId wiped))
  /\ (String.length password <> 0%nat -> state = STATE_NO_ERROR ->
      r = ResponseCode.to_int32 (fst (writeMasterKey users password userId (mKeyStore w)))
      /\ mKeyStore w' = snd (writeMasterKey users password userId (mKeyStore w)))
  /\ (String.length password <> 0%nat -> state = STATE_UNINITIALIZED ->
      r = ResponseCode.to_int32 (fst (initializeUser users password userId (mKeyStore w)))
      /\ mKeyStore w' = snd (initializeUser users password userId (mKeyStore w))).
Proof.
  intros Hperm state.
  destruct (onUserPasswordChanged env users c userId password w) as [r w'] eqn:Hrun.
  unfold onUserPasswordChanged in Hrun. rewrite Hperm in Hrun. cbn [negb] in Hrun.
  rewrite bind_run in Hrun. unfold modify at 1 in Hrun. cbn [fst snd] in Hrun.
  destruct (Nat.eqb (String.length password) 0) eqn:Hlen.
  - apply Nat.eqb_eq in Hlen.
    rewrite bind_run, keystore_update_run in Hrun. unfold ret in Hrun.
    cbn [fst snd] in Hrun. injection Hrun as <- <-.
    cbn. repeat split; intros; congruence.
  - apply Nat.eqb_neq in Hlen.
    rewrite bind_run in Hrun. unfold keystore, gets in Hrun. cbn [fst snd] in Hrun.
    change (mKeyStore (with_mAuthTokenTable [] w)) with (mKeyStore w) in Hrun.
    fold state in Hrun.
    destruct state eqn:Hstate.
    + rewrite bind_run, keystore_update_run in Hrun. unfold ret in Hrun.
      cbn [fst snd] in Hrun. injection Hrun as <- <-.
      cbn. repeat split; intros; try congruence; try discriminate.
    + rewrite bind_run, keystore_update_run in Hrun. cbn [fst snd] in Hrun.
      rewrite bind_run, keystore_update_run in Hrun. unfold ret in Hrun.
      cbn [fst snd] in Hrun. injection Hrun as <- <-.
      cbn. repeat split; intros; try congruence; try discriminate.
    + rewrite bind_run, keystore_update_run in Hrun. unfold ret in Hrun.
      cbn [fst snd] in Hrun. injection Hrun as <- <-.
      cbn. repeat split; intros; try congruence; try discriminate.
Qed.

End Users.

(** ** Attestation *)

Section Attestation.
Context {X : Type} (env : Env X) (attest : AttestEnv X).

Lemma isDeviceIdAttestationRequested_exists (params : AuthorizationSet) :
  isDeviceIdAttestationRequested params = true
  <-> exists p, In p params /\ device_id_tag (tag p) = true.
Proof.
  induction params as [|param rest IH]; cbn [isDeviceIdAttestationRequested].
  - split; [discriminate | intros (p & [] & _)].
  - destruct (device_id_tag (tag param)) eqn:Hid.
    + split; [|reflexivity]. intros _. exists param. split; [left; reflexivity | exact Hid].
    + rewrite IH. split.
      * intros (p & Hin & Hp). exists p. split; [right; exact Hin | exact Hp].
      * intros (p & [<- | Hin] & Hp); [congruence|]. exists p. split; assumption.
Qed.

(** X23.  Both attestation entry points answer INVALID_ARGUMENT,
    without any effect, on parameters that [checkAllowedOperationParams]
    refuses.  [attestKey] refuses parameters that ask for a device id, and
    [attestDeviceIds] refuses parameters that ask for none; a device id is
    asked for exactly when some parameter carries one of the eight
    ATTESTATION_ID tags. *)
Theorem attestation_tag_gating (c : Caller) (name : string) (params : AuthorizationSet)
    (sys : TimestampFile) (w : World X) :
  let rejected :=
    (KeyStoreServiceReturnCode.to_int32 (EC ErrorCode.INVALID_ARGUMENT),
     @None (list bytes), w) in
  (checkAllowedOperationParams params = false ->
   attestKey attest c name params sys w = rejected
   /\ attestDeviceIds env attest c params sys w = rejected)
  /\ (isDeviceIdAttestationRequested params = true ->
      attestKey attest c name params sys w = rejected)
  /\ (isDeviceIdAttestationRequested params = false ->
      attestDeviceIds env attest c params sys w = rejected)
  /\ (isDeviceIdAttestationRequested params = true
      <-> exists p, In p params /\ device_id_tag (tag p) = true).
Proof.
  cbv zeta. split; [|split; [|split]].
  - intros Hbad. unfold attestKey, attestDeviceIds. rewrite Hbad. split; reflexivity.
  - intros Hids. unfold attestKey. rewrite Hids.
    destruct (checkAllowedOperationParams params); reflexivity.
  - intros Hids. unfold attestDeviceIds. rewrite Hids.
    destruct (checkAllowedOperationParams params); reflexivity.
  - apply isDeviceIdAttestationRequested_exists.
Qed.

Lemma filter_tag_allowed (params : AuthorizationSet) (t : Tag.t) :
  restricted_tag t = true ->
  checkAllowedOperationParams params = true ->
  List.filter (fun p => bool_decide (tag p = t)) params = [].
Proof.
  intros Ht. induction params as [|param rest IH]; [reflexivity|].
  cbn [checkAllowedOperationParams List.filter].
  destruct (restricted_tag (tag param)) eqn:Hparam; [discriminate|].
  intros Hrest. rewrite bool_decide_eq_false_2; [exact (IH Hrest)|].
  intros Heq. rewrite Heq in Hparam. congruence.
Qed.

(** X24.  [updateParamsForAttestation], on allowed
    parameters and with the application id at hand, fails only with
    SYSTEM_ERROR, and then returns the parameters as they were.  Otherwise
    the result is the caller's parameters with tags appended: exactly one
    ATTESTATION_APPLICATION_ID, which holds the first 1024 bytes of the
    application id (all of it when it is not longer), and
    RESET_SINCE_ID_ROTATION exactly when [hadFactoryResetSinceIdRotation]
    says so, which it does when the timestamp file did not exist. *)
Theorem attestation_application_id_from_keystore (sys : TimestampFile)
    (asn1_attestation_id : bytes) (params : AuthorizationSet) :
  checkAllowedOperationParams params = true ->
  let '(rc, params') :=
    updateParamsForAttestation sys (Some asn1_attestation_id) params in
  let truncated := take KEY_ATTESTATION_APPLICATION_ID_MAX_SIZE asn1_attestation_id in
  (isOk rc = false -> rc = RC ResponseCode.SYSTEM_ERROR /\ params' = params)
  /\ (isOk rc = true ->
      List.filter (fun p => bool_decide (tag p = Tag.ATTESTATION_APPLICATION_ID)) params'
      = [{| tag := Tag.ATTESTATION_APPLICATION_ID; f_integer := 0; f_blob := truncated |}]
      /\ (length truncated <= KEY_ATTESTATION_APPLICATION_ID_MAX_SIZE)%nat
      /\ ((length asn1_attestation_id <= KEY_ATTESTATION_APPLICATION_ID_MAX_SIZE)%nat ->
          truncated = asn1_attestation_id)
      /\ containsTag params' Tag.RESET_SINCE_ID_ROTATION
         = snd (hadFactoryResetSinceIdRotation sys)
      /\ (stat_ctime sys = None ->
          snd (hadFactoryResetSinceIdRotation sys) = true)
      /\ exists added, params' = params ++ added).
Proof.
  intros Hallowed.
  assert (Htake : (if (KEY_ATTESTATION_APPLICATION_ID_MAX_SIZE <? length asn1_attestation_id)%nat
                   then take KEY_ATTESTATION_APPLICATION_ID_MAX_SIZE asn1_attestation_id
                   else asn1_attestation_id)
                  = take KEY_ATTESTATION_APPLICATION_ID_MAX_SIZE asn1_attestation_id).
  { destruct (Nat.ltb_spec KEY_ATTESTATION_APPLICATION_ID_MAX_SIZE
                (length asn1_attestation_id)); [reflexivity|].
    symmetry. apply take_ge. assumption. }
  assert (Hno_id : List.filter (fun p => bool_decide (tag p = Tag.ATTESTATION_APPLICATION_ID))
                     params = [])
    by (apply filter_tag_allowed; [reflexivity | exact Hallowed]).
  assert (Hno_reset : containsTag params Tag.RESET_SINCE_ID_ROTATION = false).
  { unfold containsTag.
    pose proof (filter_tag_allowed params Tag.RESET_SINCE_ID_ROTATION eq_refl Hallowed) as Hf.
    clear -Hf. induction params as [|p rest IH]; [reflexivity|].
    cbn in *. destruct (bool_decide (tag p = Tag.RESET_SINCE_ID_ROTATION));
      [discriminate Hf | exact (IH Hf)]. }
  unfold updateParamsForAttestation.
  destruct (hadFactoryResetSinceIdRotation sys) as [responseCode reset] eqn:Hrot.
  cbn [snd].
  assert (Hcodes : responseCode = RC ResponseCode.SYSTEM_ERROR
                   \/ (responseCode = RC ResponseCode.NO_ERROR
                       /\ (stat_ctime sys = None -> reset = true))).
  { unfold hadFactoryResetSinceIdRotation in Hrot.
    destruct (stat_ctime sys) as [ctime|].
    - injection Hrot as <- <-. right. split; [reflexivity | discriminate].
    - destruct (negb (stat_errno sys =? ENOENT)); [injection Hrot as <- <-; left; reflexivity|].
      destruct (creat_fd sys <? 0); [injection Hrot as <- <-; left; reflexivity|].
      destruct (negb (close_result sys =? 0)); [injection Hrot as <- <-; left; reflexivity|].
      injection Hrot as <- <-. right. split; reflexivity. }
  destruct Hcodes as [-> | [-> Hmissing]].
  - cbn. split; [intros _; split; reflexivity | discriminate].
  - change (negb (isOk (RC ResponseCode.NO_ERROR))) with false. cbv iota zeta.
    rewrite Htake. split; [discriminate|]. intros _.
    unfold push_back_blob, push_back.
    split.
    { rewrite List.filter_app. destruct reset.
      - rewrite List.filter_app, Hno_id. reflexivity.
      - rewrite Hno_id. reflexivity. }
    split; [rewrite length_take; unfold KEY_ATTESTATION_APPLICATION_ID_MAX_SIZE; lia|].
    split; [intros Hshort; apply take_ge; exact Hshort|].
    split.
    { unfold containsTag. rewrite existsb_app. destruct reset.
      - rewrite existsb_app. fold (containsTag params Tag.RESET_SINCE_ID_ROTATION).
        rewrite Hno_reset. reflexivity.
      - fold (containsTag params Tag.RESET_SINCE_ID_ROTATION). rewrite Hno_reset.
        reflexivity. }
    split; [exact Hmissing|].
    destruct reset; [rewrite <- app_assoc|]; eexists; reflexivity.
Qed.

Lemma unlogged_run {A} (oracle : X -> A * X) (w : World X) a w' :
  unlogged oracle w = (a, w') ->
  mKeyStore w' = mKeyStore w /\ mOperationMap w' = mOperationMap w
  /\ mAuthTokenTable w' = mAuthTokenTable w /\ calls w' = calls w.
Proof.
  unfold unlogged. rewrite policy_run. intros H. inversion H; subst. cbn. auto.
Qed.

(** X25.  [attestKey] and [attestDeviceIds] never change the key store,
    the operation map or the auth token table.  [attestDeviceIds] answers
    CANNOT_ATTEST_IDS, before it does anything else, unless the permission
    service is reachable and grants the caller READ_PRIVILEGED_PHONE_STATE;
    [attestKey] answers ATTESTATION_APPLICATION_ID_MISSING, with no
    certificate chain, when the timestamp check succeeds and the
    application id of the caller cannot be gathered. *)
Theorem attestation_keeps_service_state (c : Caller) (name : string)
    (params : AuthorizationSet) (sys : TimestampFile) (w : World X) :
  let kept (w' : World X) :=
    mKeyStore w' = mKeyStore w /\ mOperationMap w' = mOperationMap w
    /\ mAuthTokenTable w' = mAuthTokenTable w in
  kept (snd (attestKey attest c name params sys w))
  /\ kept (snd (attestDeviceIds env attest c params sys w))
  /\ (checkAllowedOperationParams params = true ->
      isDeviceIdAttestationRequested params = true ->
      checkPermission_READ_PRIVILEGED_PHONE_STATE attest (callingPid c) (callingUid c)
      <> Some true ->
      attestDeviceIds env attest c params sys w
      = (KeyStoreServiceReturnCode.to_int32 (EC CANNOT_ATTEST_IDS), None, w))
  /\ (checkAllowedOperationParams params = true ->
      isDeviceIdAttestationRequested params = false ->
      isOk (fst (hadFactoryResetSinceIdRotation sys)) = true ->
      gather_attestation_application_id attest (callingUid c) = None ->
      fst (attestKey attest c name params sys w)
      = (KeyStoreServiceReturnCode.to_int32 (EC ATTESTATION_APPLICATION_ID_MISSING),
         None)).
Proof.
  cbv zeta. split; [| split; [| split]].
  - destruct (attestKey attest c name params sys w) as [a w'] eqn:Hrun.
    unfold attestKey in Hrun. cbn [snd]. exec Hrun.
    all: repeat match goal with
           | H : unlogged _ _ = _ |- _ =>
               apply unlogged_run in H; destruct H as (? & ? & ? & ?)
           end.
    all: repeat split; congruence.
  - destruct (attestDeviceIds env attest c params sys w) as [a w'] eqn:Hrun.
    unfold attestDeviceIds in Hrun. cbn [snd]. exec Hrun.
    all: repeat match goal with
           | H : unlogged _ _ = _ |- _ =>
               apply unlogged_run in H; destruct H as (? & ? & ? & ?)
           end.
    all: cbn [mKeyStore mOperationMap mAuthTokenTable] in *.
    all: repeat split; congruence.
  - intros Hallowed Hids Hperm. unfold attestDeviceIds. rewrite Hallowed, Hids. cbn [negb].
    destruct (checkPermission_READ_PRIVILEGED_PHONE_STATE attest (callingPid c)
                (callingUid c)) as [[|]|]; [congruence | reflexivity | reflexivity].
  - intros Hallowed Hids Hstamp Hgather. unfold attestKey. rewrite Hallowed, Hids, Hgather.
    cbn [negb]. unfold updateParamsForAttestation.
    destruct (hadFactoryResetSinceIdRotation sys) as [responseCode fresh].
    cbn [fst] in Hstamp. rewrite Hstamp. cbn [negb]. reflexivity.
Qed.

End Attestation.

(** ** Worked instances of the further properties *)

(** Aborting the second of three operations leaves the other two. *)
Lemma abort_removes_operation_witness :
  operation_tokens (snd (abort happy_env (Some 2%nat) three_operations_world))
  = [1%nat; 3%nat].
Proof.
  pose proof (abort_removes_operation happy_env (Some 2%nat) three_operations_world)
    as Hspec.
  destruct (abort happy_env (Some 2%nat) three_operations_world) as [r w'].
  destruct (OperationMap.getOperation (Some 2%nat) (mOperationMap three_operations_world))
    as [op|] eqn:Hop; [| vm_compute in Hop; discriminate].
  destruct Hspec as (_ & _ & Hops & _).
  unfold operation_tokens. simpl. rewrite Hops. vm_compute. reflexivity.
Defined.

(** The binder 2 dies while three operations are live. *)
Lemma binderDied_aborts_operations_witness :
  operation_tokens (snd (binderDied happy_env 2 three_operations_world)) = [1%nat; 3%nat].
Proof.
  pose proof (binderDied_aborts_operations happy_env 2 three_operations_world) as Hspec.
  cbv zeta in Hspec.
  destruct Hspec as (_ & _ & Hunique).
  assert (Htokens : operation_tokens three_operations_world = [1%nat; 2%nat; 3%nat])
    by (vm_compute; reflexivity).
  rewrite Htokens in Hunique.
  destruct Hunique as [Hops _].
  { repeat constructor; simpl; intuition discriminate. }
  unfold operation_tokens. rewrite Hops. vm_compute. reflexivity.
Defined.

(** An operation whose auth token is cached is authorized. *)
Lemma isOperationAuthorized_spec_witness :
  isOperationAuthorized auth_env (Some 1%nat) authorized_operation_world
  = (true, authorized_operation_world).
Proof.
  pose proof (isOperationAuthorized_spec auth_env (Some 1%nat) authorized_operation_world)
    as Hspec.
  destruct (isOperationAuthorized auth_env (Some 1%nat) authorized_operation_world)
    as [authorized w'].
  destruct Hspec as (_ & _ & _ & Hcached).
  destruct (OperationMap.getOperationAuthToken (Some 1%nat)
              (mOperationMap authorized_operation_world)) as [authToken|] eqn:Htoken;
    [| vm_compute in Htoken; discriminate].
  destruct (Hcached authToken eq_refl) as [-> ->]. reflexivity.
Defined.

(** The token 2 names no operation of a world with one operation. *)
Lemma stale_token_rejected_witness :
  update happy_env (Some 2%nat) [] [x01] OperationResult_new (one_operation_world happy_env)
  = (set_resultCode (EC ErrorCode.INVALID_OPERATION_HANDLE) OperationResult_new,
     one_operation_world happy_env).
Proof.
  pose proof (stale_token_rejected happy_env (Some 2%nat) (one_operation_world happy_env)
                ltac:(vm_compute; reflexivity)) as [Hupdate _].
  apply Hupdate. vm_compute. reflexivity.
Defined.

(** The app begins an operation on a key of the system uid without a grant. *)
Lemma begin_rejections_witness :
  begin strict_env app_caller 1 "k" KeyPurpose.SIGN true [] [] AID_SYSTEM
    OperationResult_new (demo_world plain_files STATE_NO_ERROR)
  = (set_resultCode (RC ResponseCode.PERMISSION_DENIED) OperationResult_new,
     demo_world plain_files STATE_NO_ERROR).
Proof.
  apply (proj1 (begin_rejections strict_env app_caller 1 "k" KeyPurpose.SIGN true [] []
                  AID_SYSTEM OperationResult_new (demo_world plain_files STATE_NO_ERROR))).
  left. vm_compute. reflexivity.
Defined.

(** The first [begin] of the app registers the operation with the token 1. *)
Lemma begin_registers_operation_witness :
  has_operation (Some 1%nat)
    (snd (begin happy_env app_caller 1 "k" KeyPurpose.SIGN true [] [] UID_SELF
            OperationResult_new (demo_world plain_files STATE_NO_ERROR)))
  = true.
Proof.
  pose proof (begin_registers_operation happy_env app_caller 1 "k" KeyPurpose.SIGN true []
                [] UID_SELF OperationResult_new (demo_world plain_files STATE_NO_ERROR)
                eq_refl) as Hspec.
  destruct (begin happy_env app_caller 1 "k" KeyPurpose.SIGN true [] [] UID_SELF
              OperationResult_new (demo_world plain_files STATE_NO_ERROR))
    as [r w'] eqn:Hrun.
  assert (Htoken : token r = Some 1%nat).
  { change r with (fst (r, w')). rewrite <- Hrun. vm_compute. reflexivity. }
  rewrite Htoken in Hspec.
  destruct Hspec as (_ & _ & Hlive & _). exact Hlive.
Defined.

(** The cached token of an operation is used again, whatever the table
    holds. *)
Lemma operation_auth_token_cached_witness :
  let w' :=
    snd (addOperationAuthTokenIfNeeded auth_env (Some 1%nat) []
           authorized_operation_world) in
  addOperationAuthTokenIfNeeded auth_env (Some 1%nat) [auth_token_param] w'
  = ((RC ResponseCode.NO_ERROR,
      addAuthTokenToParams auth_env [auth_token_param]
        (OperationMap.getOperationAuthToken (Some 1%nat) (mOperationMap w'))), w').
Proof.
  pose proof (operation_auth_token_cached auth_env (Some 1%nat) []
                authorized_operation_world) as Hspec.
  destruct (addOperationAuthTokenIfNeeded auth_env (Some 1%nat) []
              authorized_operation_world) as [[rc params'] w'] eqn:Hrun.
  cbv zeta in Hspec. destruct Hspec as (_ & _ & Hok).
  assert (Hrc : rc = RC ResponseCode.NO_ERROR).
  { change rc with (fst (fst (rc, params', w'))). rewrite <- Hrun.
    vm_compute. reflexivity. }
  destruct (Hok Hrc) as [_ Hcached].
  simpl. apply Hcached.
  change w' with (snd (rc, params', w')). rewrite <- Hrun. vm_compute. discriminate.
Defined.

(** The app asks for a key that is critical to device encryption. *)
Lemma privileged_key_requests_denied_witness :
  generateKey happy_env app_caller "crit" [] [] UID_SELF
    KEYSTORE_FLAG_CRITICAL_TO_DEVICE_ENCRYPTION (demo_world plain_files STATE_NO_ERROR)
  = (ResponseCode.to_int32 ResponseCode.PERMISSION_DENIED, None,
     demo_world plain_files STATE_NO_ERROR).
Proof.
  pose proof (privileged_key_requests_denied happy_env app_caller "crit" [] []
                KeyFormat.PKCS8 [] UID_SELF KEYSTORE_FLAG_CRITICAL_TO_DEVICE_ENCRYPTION
                (demo_world plain_files STATE_NO_ERROR)) as Hspec.
  cbv zeta in Hspec. destruct Hspec as [Hcritical _].
  destruct Hcritical as [Hgenerate _].
  - vm_compute. reflexivity.
  - vm_compute. discriminate.
  - rewrite Hgenerate. vm_compute. reflexivity.
Defined.

(** A key generated by the app: the last device call is [generateKey]. *)
Lemma generateKey_creates_key_files_witness :
  exists dev,
    last (calls (snd (generateKey happy_env app_caller "fresh" [] [] UID_SELF
                        KEYSTORE_FLAG_NONE (demo_world ∅ STATE_NO_ERROR))))
    = Some (Call_generateKey dev []).
Proof.
  pose proof (generateKey_creates_key_files happy_env app_caller "fresh" [] [] UID_SELF
                KEYSTORE_FLAG_NONE (demo_world ∅ STATE_NO_ERROR)) as Hspec.
  assert (Hgen : forall dev x, callback_invoked (fst (dev_generateKey happy_env dev [] x))).
  { intros dev x. vm_compute. discriminate. }
  specialize (Hspec Hgen). cbv zeta in Hspec.
  destruct (generateKey happy_env app_caller "fresh" [] [] UID_SELF KEYSTORE_FLAG_NONE
              (demo_world ∅ STATE_NO_ERROR)) as [[r out] w'] eqn:Hrun.
  assert (Hr : r = ResponseCode.to_int32 ResponseCode.NO_ERROR).
  { change r with (fst (fst (r, out, w'))). rewrite <- Hrun. vm_compute. reflexivity. }
  destruct (Hspec Hr) as (dev & keyBlob & charBlob & Hlast & _).
  exists dev. exact Hlast.
Defined.

(** The characteristics of a key of the system uid, asked for by an app
    that holds no grant. *)
Lemma getKeyCharacteristics_without_device_witness :
  getKeyCharacteristics strict_env app_caller "k" [] [] AID_SYSTEM (Some no_characteristics)
    (demo_world plain_files STATE_NO_ERROR)
  = ((ResponseCode.to_int32 ResponseCode.PERMISSION_DENIED, Some no_characteristics),
     demo_world plain_files STATE_NO_ERROR).
Proof.
  pose proof (getKeyCharacteristics_without_device strict_env app_caller "k" [] []
                AID_SYSTEM no_characteristics (demo_world plain_files STATE_NO_ERROR))
    as Hspec.
  cbv zeta in Hspec. destruct Hspec as (_ & Hdenied & _).
  apply Hdenied. vm_compute. reflexivity.
Defined.

(** The export of a key that is not there. *)
Lemma exportKey_spec_witness :
  exportKey happy_env app_caller "missing" KeyFormat.X509 [] [] UID_SELF
    {| export_resultCode := EC ErrorCode.OK; exportData := [] |}
    (demo_world plain_files STATE_NO_ERROR)
  = ({| export_resultCode := RC ResponseCode.KEY_NOT_FOUND; exportData := [] |},
     demo_world plain_files STATE_NO_ERROR).
Proof.
  pose proof (exportKey_spec happy_env app_caller "missing" KeyFormat.X509 [] [] UID_SELF
                {| export_resultCode := EC ErrorCode.OK; exportData := [] |}
                (demo_world plain_files STATE_NO_ERROR)) as Hspec.
  cbv zeta in Hspec. destruct Hspec as (_ & Hmissing & _).
  apply (Hmissing ResponseCode.KEY_NOT_FOUND Blob_empty).
  - vm_compute. reflexivity.
  - vm_compute. reflexivity.
  - discriminate.
Defined.

(** The upgrade of a key that is not there. *)
Lemma upgradeKeyBlob_failure_keeps_store_witness :
  upgradeKeyBlob happy_env "missing" 10123 [] Blob_empty
    (demo_world plain_files STATE_NO_ERROR)
  = ((RC ResponseCode.KEY_NOT_FOUND, Blob_empty), demo_world plain_files STATE_NO_ERROR).
Proof.
  apply (proj1 (upgradeKeyBlob_failure_keeps_store happy_env "missing" 10123 []
                  Blob_empty (demo_world plain_files STATE_NO_ERROR))).
  - vm_compute. reflexivity.
  - discriminate.
Defined.

(** A legacy [sign] that goes through: the code of the answer is positive. *)
Lemma legacy_sign_verify_codes_witness :
  exists code legacy_out,
    fst (sign happy_env 2 app_caller "k" [x01] (demo_world plain_files STATE_NO_ERROR))
    = Some (Status_fromServiceSpecificError code, legacy_out)
    /\ 0 < code.
Proof.
  pose proof (legacy_sign_verify_codes happy_env 2 app_caller "k" [x01] []
                (demo_world plain_files STATE_NO_ERROR)) as (Hsign & _).
  destruct (fst (sign happy_env 2 app_caller "k" [x01]
                   (demo_world plain_files STATE_NO_ERROR)))
    as [[status legacy_out]|] eqn:Hanswer; [| vm_compute in Hanswer; discriminate].
  destruct (Hsign status legacy_out eq_refl) as (code & -> & Hpos & _).
  exists code, legacy_out. split; [reflexivity | exact Hpos].
Defined.

(** One byte of input and two rounds of fuel: [sign] returns. *)
Lemma legacy_sign_verify_return_witness :
  fst (sign happy_env 2 app_caller "k" [x01] (demo_world plain_files STATE_NO_ERROR))
  <> None.
Proof.
  apply (legacy_sign_verify_return happy_env 2 app_caller "k" [x01] []
           (demo_world plain_files STATE_NO_ERROR)).
  - intros dev handle params input x. cbn. lia.
  - vm_compute. reflexivity.
  - vm_compute. discriminate.
  - simpl. lia.
Defined.

(** A count of 0xFFFFFFFF is -1 in the [int] of the result and the all-ones
    word as a [size_t]: it takes back one byte of [consumed].  With a device
    that reports 1, 0xFFFFFFFF, 1, 0xFFFFFFFF and then 2 for an input of two
    bytes, the loop of [doLegacySignVerify] runs five rounds, and only then
    does [sign] answer, with NO_ERROR. *)
Lemma sign_count_wraps_around :
  let w := demo_world plain_files STATE_NO_ERROR in
  fst (sign wrapping_env 3 app_caller "k" [x01; x02] w) = None
  /\ fst (sign wrapping_env 4 app_caller "k" [x01; x02] w) = None
  /\ exists legacy_out,
       fst (sign wrapping_env 5 app_caller "k" [x01; x02] w)
       = Some (Status_fromServiceSpecificError
                 (ResponseCode.to_int32 ResponseCode.NO_ERROR), legacy_out).
Proof.
  cbv zeta. repeat split; try (vm_compute; reflexivity).
  eexists. vm_compute. reflexivity.
Qed.

(** The app names itself by [UID_SELF]. *)
Lemma effective_uid_resolution_stable_witness :
  getEffectiveUid app_caller (wrap_int32 (getEffectiveUid app_caller UID_SELF))
  = getEffectiveUid app_caller UID_SELF.
Proof.
  pose proof (effective_uid_resolution_stable app_caller UID_SELF
                ltac:(vm_compute; split; [discriminate | reflexivity])
                ltac:(vm_compute; split; [discriminate | reflexivity])) as Hspec.
  cbv zeta in Hspec. destruct Hspec as (_ & _ & Hstable & _). exact Hstable.
Defined.

(** An encrypted blob for a user whose keystore is locked. *)
Lemma insert_lock_gating_witness :
  insert happy_env app_caller "blob" [x01] UID_SELF KEYSTORE_FLAG_ENCRYPTED locked_world
  = (ResponseCode.to_int32 ResponseCode.LOCKED, locked_world).
Proof.
  pose proof (insert_lock_gating happy_env app_caller "blob" [x01] UID_SELF
                KEYSTORE_FLAG_ENCRYPTED locked_world
                ltac:(vm_compute; split; [discriminate | reflexivity])
                ltac:(vm_compute; split; [discriminate | reflexivity])) as Hspec.
  cbv zeta in Hspec.
  destruct (insert happy_env app_caller "blob" [x01] UID_SELF KEYSTORE_FLAG_ENCRYPTED
              locked_world) as [r w'].
  destruct Hspec as (_ & Hlocked & _).
  destruct Hlocked as [-> ->].
  - vm_compute. reflexivity.
  - vm_compute. reflexivity.
  - vm_compute. discriminate.
  - vm_compute. reflexivity.
Defined.

(** A blob of two bytes is read back as it was written. *)
Lemma insert_then_get_witness :
  fst (get happy_env app_caller "blob" UID_SELF []
         (snd (insert happy_env app_caller "blob" [x01; x02] UID_SELF KEYSTORE_FLAG_NONE
                 (demo_world ∅ STATE_NO_ERROR))))
  = (Status_ok, [x01; x02]).
Proof.
  pose proof (insert_then_get happy_env app_caller "blob" [x01; x02] [] UID_SELF
                KEYSTORE_FLAG_NONE (demo_world ∅ STATE_NO_ERROR)
                ltac:(vm_compute; split; [discriminate | reflexivity])
                ltac:(vm_compute; split; [discriminate | reflexivity])
                ltac:(vm_compute; reflexivity)) as Hspec.
  cbv zeta in Hspec. destruct Hspec as [Hget _].
  rewrite Hget; [reflexivity | vm_compute; reflexivity].
Defined.

(** The app deletes its key ["k"]. *)
Lemma del_removes_key_files_witness :
  KeyStore.files
    (mKeyStore (snd (del happy_env app_caller "k" UID_SELF
                       (demo_world plain_files STATE_NO_ERROR))))
    !! key_path 10123 "k"
  = None.
Proof.
  pose proof (del_removes_key_files happy_env app_caller "k" UID_SELF
                (demo_world plain_files STATE_NO_ERROR)
                ltac:(vm_compute; split; [discriminate | reflexivity])
                ltac:(vm_compute; split; [discriminate | reflexivity])) as Hspec.
  cbv zeta in Hspec.
  destruct (del happy_env app_caller "k" UID_SELF (demo_world plain_files STATE_NO_ERROR))
    as [r w'].
  destruct Hspec as (_ & Hallowed).
  destruct Hallowed as (_ & Hgone & _).
  - vm_compute. reflexivity.
  - exact Hgone.
Defined.

(** The app copies its key ["k"] to the alias ["copy"]. *)
Lemma duplicate_spec_witness :
  KeyStore.files
    (mKeyStore (snd (duplicate happy_env app_caller "k" UID_SELF "copy" UID_SELF
                       (demo_world plain_files STATE_NO_ERROR))))
    !! key_path 10123 "copy"
  = Some plain_key.
Proof.
  pose proof (duplicate_spec happy_env app_caller "k" UID_SELF "copy" UID_SELF
                (demo_world plain_files STATE_NO_ERROR)) as Hspec.
  cbv zeta in Hspec.
  destruct (duplicate happy_env app_caller "k" UID_SELF "copy" UID_SELF
              (demo_world plain_files STATE_NO_ERROR)) as [r w'] eqn:Hrun.
  assert (Hr : r = ResponseCode.to_int32 ResponseCode.NO_ERROR).
  { change r with (fst (r, w')). rewrite <- Hrun. vm_compute. reflexivity. }
  destruct Hspec as [_ Hcopied].
  destruct (Hcopied Hr) as (_ & _ & _ & _ & b & Hsource & ->).
  assert (Hb : b = plain_key).
  { vm_compute in Hsource. injection Hsource as <-. reflexivity. }
  subst b. vm_compute. reflexivity.
Defined.

(** A caller without permissions asks for a reset. *)
Lemma user_management_requires_permission_witness :
  reset strict_env demo_users app_caller (demo_world plain_files STATE_NO_ERROR)
  = (ResponseCode.to_int32 ResponseCode.PERMISSION_DENIED,
     demo_world plain_files STATE_NO_ERROR).
Proof.
  pose proof (user_management_requires_permission strict_env demo_users app_caller 0 0
                "secret" (demo_world plain_files STATE_NO_ERROR)) as Hspec.
  cbv zeta in Hspec. destruct Hspec as (_ & Hreset & _).
  apply Hreset. vm_compute. reflexivity.
Defined.

(** Unlocking a user whose keystore is not locked changes nothing. *)
Lemma lock_unlock_state_gating_witness :
  unlock happy_env demo_users system_caller 0 "secret"
    (demo_world plain_files STATE_NO_ERROR)
  = (ResponseCode.to_int32 ResponseCode.NO_ERROR, demo_world plain_files STATE_NO_ERROR).
Proof.
  pose proof (lock_unlock_state_gating happy_env demo_users system_caller 0 "secret"
                (demo_world plain_files STATE_NO_ERROR)) as Hspec.
  cbv zeta in Hspec. destruct Hspec as (_ & Hunlock & _).
  rewrite Hunlock; [| vm_compute; reflexivity].
  vm_compute. reflexivity.
Defined.

(** The password of user 0 is removed while the table holds a token. *)
Lemma password_change_flushes_auth_tokens_witness :
  mAuthTokenTable authenticated_world <> []
  /\ mAuthTokenTable
       (snd (onUserPasswordChanged happy_env demo_users system_caller 0 ""
               authenticated_world))
     = [].
Proof.
  split; [vm_compute; discriminate |].
  pose proof (password_change_flushes_auth_tokens happy_env demo_users system_caller 0 ""
                authenticated_world ltac:(vm_compute; reflexivity)) as Hspec.
  cbv zeta in Hspec.
  destruct (onUserPasswordChanged happy_env demo_users system_caller 0 ""
              authenticated_world) as [r w'].
  exact (proj1 Hspec).
Defined.

(** An attestation of a key that asks for the serial number of the device. *)
Lemma attestation_tag_gating_witness :
  attestKey (demo_attest (Some true) (Some [x0a])) app_caller "k" [device_id_param]
    fresh_install
    (demo_world plain_files STATE_NO_ERROR)
  = (KeyStoreServiceReturnCode.to_int32 (EC ErrorCode.INVALID_ARGUMENT), None,
     demo_world plain_files STATE_NO_ERROR).
Proof.
  pose proof (attestation_tag_gating happy_env (demo_attest (Some true) (Some [x0a]))
                app_caller "k" [device_id_param] fresh_install
                (demo_world plain_files STATE_NO_ERROR))
    as Hspec.
  cbv zeta in Hspec. destruct Hspec as (_ & Hids & _).
  apply Hids. vm_compute. reflexivity.
Defined.

(** The first attestation after a factory reset carries the tag
    RESET_SINCE_ID_ROTATION. *)
Lemma attestation_application_id_from_keystore_witness :
  containsTag (snd (updateParamsForAttestation fresh_install (Some [x0a]) []))
    Tag.RESET_SINCE_ID_ROTATION
  = true.
Proof.
  pose proof (attestation_application_id_from_keystore fresh_install [x0a] []
                ltac:(vm_compute; reflexivity)) as Hspec.
  destruct Hspec as [_ Hok].
  destruct (Hok ltac:(vm_compute; reflexivity)) as (_ & _ & _ & Hreset & Hfresh & _).
  etransitivity; [exact Hreset | apply Hfresh; reflexivity].
Defined.

(** Device ids are asked for by a caller whom the "permission" service does
    not grant READ_PRIVILEGED_PHONE_STATE. *)
Lemma attestation_keeps_service_state_witness :
  attestDeviceIds happy_env (demo_attest (Some false) (Some [x0a])) app_caller
    [device_id_param] fresh_install (demo_world plain_files STATE_NO_ERROR)
  = (KeyStoreServiceReturnCode.to_int32 (EC CANNOT_ATTEST_IDS), None,
     demo_world plain_files STATE_NO_ERROR).
Proof.
  pose proof (attestation_keeps_service_state happy_env
                (demo_attest (Some false) (Some [x0a])) app_caller "k" [device_id_param]
                fresh_install (demo_world plain_files STATE_NO_ERROR)) as Hspec.
  cbv zeta in Hspec. destruct Hspec as (_ & _ & Hdenied & _).
  apply Hdenied.
  - vm_compute. reflexivity.
  - vm_compute. reflexivity.
  - discriminate.
Defined.
